(** * Zenith hub: recurrence, ordering and lifecycle of tasks and list items

    A shallow embedding of the task screen ([ProductivityScreen.tsx]) and of
    the shopping list ([SupermarketScreen.tsx]).  React state is a record,
    every handler is a function from state to state, and the JavaScript
    built-ins the handlers call ([Date], [Array.prototype.sort], [splice],
    [findIndex], [padStart], IEEE doubles) are written out after ECMA-262. *)

From Stdlib Require Import ZArith List String Ascii Bool Lia.
From Stdlib Require Import Permutation Sorted OrderedTypeEx.
From Corelib Require Import SpecFloat.
Import ListNotations.

Open Scope string_scope.
Open Scope Z_scope.

(* ================================================================== *)
(** * JavaScript numbers that stay integral *)

(** Day numbers, time values and comparator results are integers or [NaN];
    [None] stands for [NaN]. *)
Definition num := option Z.

Definition NaN : num := None.

Definition num_add (a b : num) : num :=
  match a, b with
  | Some x, Some y => Some (x + y)
  | _, _ => None
  end.

Definition num_sub (a b : num) : num :=
  match a, b with
  | Some x, Some y => Some (x - y)
  | _, _ => None
  end.

Definition digit_char (k : Z) : ascii := ascii_of_nat (48 + Z.to_nat k).

(** The decimal digits of [n >= 0] in front of [acc]; [fuel] bounds the
    number of digits after the first. *)
Fixpoint digits_of (fuel : nat) (n : Z) (acc : string) : string :=
  let acc' := String (digit_char (n mod 10)) acc in
  match fuel with
  | O => acc'
  | S fuel' => if n <? 10 then acc' else digits_of fuel' (n / 10) acc'
  end.

(** [String(n)] for an integral number or [NaN]. *)
Definition Number_toString (n : num) : string :=
  match n with
  | Some z =>
      if z <? 0 then String "-" (digits_of (Z.to_nat (Z.log2 (- z))) (- z) EmptyString)
      else digits_of (Z.to_nat (Z.log2 z)) z EmptyString
  | None => "NaN"
  end.

(** [s.padStart(2, '0')]. *)
Definition padStart2 (s : string) : string :=
  match String.length s with
  | O => "00"
  | S O => "0" ++ s
  | _ => s
  end.

(** [s.padStart(n, '0')] for any width. *)
Definition padStart0 (n : nat) (s : string) : string :=
  String.concat "" (repeat "0" (n - String.length s)) ++ s.

(* ================================================================== *)
(** * Time values and the civil calendar (ECMA-262, 21.4.1) *)

Definition msPerDay : Z := 86400000.
Definition msPerHour : Z := 3600000.
Definition msPerMinute : Z := 60000.
Definition msPerSecond : Z := 1000.

Definition Day (t : Z) : Z := t / msPerDay.
Definition TimeWithinDay (t : Z) : Z := t mod msPerDay.

Definition isLeapYear (y : Z) : bool :=
  (y mod 4 =? 0) && (negb (y mod 100 =? 0) || (y mod 400 =? 0)).

Definition DaysInYear (y : Z) : Z := if isLeapYear y then 366 else 365.

Definition DayFromYear (y : Z) : Z :=
  365 * (y - 1970) + (y - 1969) / 4 - (y - 1901) / 100 + (y - 1601) / 400.

Definition TimeFromYear (y : Z) : Z := msPerDay * DayFromYear y.

(** The largest year [y] with [TimeFromYear y <= t]: a first guess from the
    mean length of a year, corrected by at most one year either way. *)
Definition YearFromTime (t : Z) : Z :=
  let d := Day t in
  let y := 1970 + (400 * d) / 146097 in
  if d <? DayFromYear y then y - 1
  else if DayFromYear (y + 1) <=? d then y + 1
  else y.

Definition InLeapYear (t : Z) : Z :=
  if isLeapYear (YearFromTime t) then 1 else 0.

Definition DayWithinYear (t : Z) : Z := Day t - DayFromYear (YearFromTime t).

(** The month (0 for January to 11 for December) of day [d] of a year; [l]
    is 1 in a leap year. *)
Definition monthOfYearDay (d l : Z) : Z :=
  if d <? 31 then 0
  else if d <? 59 + l then 1
  else if d <? 90 + l then 2
  else if d <? 120 + l then 3
  else if d <? 151 + l then 4
  else if d <? 181 + l then 5
  else if d <? 212 + l then 6
  else if d <? 243 + l then 7
  else if d <? 273 + l then 8
  else if d <? 304 + l then 9
  else if d <? 334 + l then 10
  else 11.

Definition MonthFromTime (t : Z) : Z := monthOfYearDay (DayWithinYear t) (InLeapYear t).

(** Days of the year before the first of month [m] (0-based); [l] is 1 in a
    leap year. *)
Definition daysBeforeMonth (m l : Z) : Z :=
  match m with
  | 0 => 0
  | 1 => 31
  | 2 => 59 + l
  | 3 => 90 + l
  | 4 => 120 + l
  | 5 => 151 + l
  | 6 => 181 + l
  | 7 => 212 + l
  | 8 => 243 + l
  | 9 => 273 + l
  | 10 => 304 + l
  | _ => 334 + l
  end.

Definition DateFromTime (t : Z) : Z :=
  DayWithinYear t - daysBeforeMonth (MonthFromTime t) (InLeapYear t) + 1.

(** [MakeDay]: the day number of the first of the month, plus [date - 1];
    months outside 0..11 carry into the year. *)
Definition MakeDay (year month date : Z) : Z :=
  let ym := year + month / 12 in
  let mn := month mod 12 in
  DayFromYear ym + daysBeforeMonth mn (if isLeapYear ym then 1 else 0)
  + date - 1.

Definition MakeTime (hour min sec ms : Z) : Z :=
  hour * msPerHour + min * msPerMinute + sec * msPerSecond + ms.

Definition MakeDate (day time : Z) : Z := day * msPerDay + time.

Definition TimeClip (t : Z) : num :=
  if Z.abs t <=? 8640000000000000 then Some t else NaN.

Definition HourFromTime (t : Z) : Z := (t / msPerHour) mod 24.
Definition MinFromTime (t : Z) : Z := (t / msPerMinute) mod 60.
Definition SecFromTime (t : Z) : Z := (t / msPerSecond) mod 60.
Definition msFromTime (t : Z) : Z := t mod msPerSecond.

(* ================================================================== *)
(** * Parsing the date-time string format *)

Definition digit_val (c : ascii) : option Z :=
  let n := Z.of_nat (nat_of_ascii c) in
  if (48 <=? n) && (n <=? 57) then Some (n - 48) else None.

Fixpoint digits_val (acc : Z) (cs : list ascii) : option Z :=
  match cs with
  | [] => Some acc
  | c :: cs' =>
      match digit_val c with
      | Some d => digits_val (10 * acc + d) cs'
      | None => None
      end
  end.

Definition number_of (cs : list ascii) : option Z := digits_val 0 cs.

Definition is_char (c : ascii) (x : string) : bool :=
  match x with
  | String d EmptyString => Ascii.eqb c d
  | _ => false
  end.

(** The calendar part [YYYY-MM-DD] of a date-time string. *)
Definition parse_ymd (y3 y2 y1 y0 s1 m1 m0 s2 d1 d0 : ascii) : option (Z * Z * Z) :=
  if is_char s1 "-" && is_char s2 "-" then
    match number_of [y3; y2; y1; y0], number_of [m1; m0], number_of [d1; d0] with
    | Some y, Some m, Some d =>
        if (1 <=? m) && (m <=? 12) && (1 <=? d) && (d <=? 31)
        then Some (y, m, d) else None
    | _, _, _ => None
    end
  else None.

(** The time part [HH:mm:ss]. *)
Definition parse_hms (h1 h0 s1 i1 i0 s2 c1 c0 : ascii) : option Z :=
  if is_char s1 ":" && is_char s2 ":" then
    match number_of [h1; h0], number_of [i1; i0], number_of [c1; c0] with
    | Some h, Some mi, Some s =>
        if (h <=? 23) && (mi <=? 59) && (s <=? 59)
           || (h =? 24) && (mi =? 0) && (s =? 0)
        then Some (MakeTime h mi s 0) else None
    | _, _, _ => None
    end
  else None.

Inductive ParsedDate : Type :=
  | DateOnly (day : Z)                (* read as UTC midnight *)
  | DateTimeLocal (day time : Z)      (* no offset: read as local time *)
  | Unrecognised.

(** The two shapes this program hands to [new Date(string)]: [YYYY-MM-DD]
    and [YYYY-MM-DDTHH:mm:ss].  ECMA-262 leaves every string outside its
    interchange format to the engine; such strings are [Unrecognised] here. *)
Definition parse_date_string (s : string) : ParsedDate :=
  match list_ascii_of_string s with
  | [y3; y2; y1; y0; s1; m1; m0; s2; d1; d0] =>
      match parse_ymd y3 y2 y1 y0 s1 m1 m0 s2 d1 d0 with
      | Some (y, m, d) => DateOnly (MakeDay y (m - 1) d)
      | None => Unrecognised
      end
  | [y3; y2; y1; y0; s1; m1; m0; s2; d1; d0; t; h1; h0; s3; i1; i0; s4; c1; c0] =>
      if is_char t "T" then
        match parse_ymd y3 y2 y1 y0 s1 m1 m0 s2 d1 d0,
              parse_hms h1 h0 s3 i1 i0 s4 c1 c0 with
        | Some (y, m, d), Some time => DateTimeLocal (MakeDay y (m - 1) d) time
        | _, _ => Unrecognised
        end
      else Unrecognised
  | _ => Unrecognised
  end.

(* ================================================================== *)
(** * Data model *)

Inductive Importance : Type := low | medium | high.

Inductive RecurrenceFrequency : Type := daily | weekly | monthly | yearly.

(** JavaScript numbers that need not be integral are IEEE binary64 values. *)
Definition number : Type := spec_float.

Definition prec : Z := 53.
Definition emax : Z := 1024.

(** The double nearest to [m * 2^e]. *)
Definition number_of_Z2 (m e : Z) : number := binary_normalize prec emax m e false.

Definition isNaN (x : number) : bool :=
  match x with
  | S754_nan => true
  | _ => false
  end.

(** What [JSON.parse] can return. *)
#[warnings="-register-all"]
Inductive JSON : Type :=
  | JNull
  | JBool (b : bool)
  | JNumber (x : number)
  | JString (s : string)
  | JArray (items : list JSON)
  | JObject (fields : list (string * JSON)).

(** Modelled from the spec: the [Subtask], [Task] and [NewTaskData]
    declarations of [firebaseDb], which is not among the sources.  The fields
    are those of section 3 of the specification and of their uses in
    [ProductivityScreen.tsx].  A subtask's [text] is declared a string, but
    [handleBreakdownTask] stores the elements of the parsed response
    unchecked, so at run time it ranges over JSON values. *)
Module Subtask.
Record t : Type := mk { id : Z; text : JSON; completed : bool }.

Definition with_completed (c : bool) (st : t) : t := mk (id st) (text st) c.
End Subtask.

Module Task.
Record t : Type := mk {
  id : string;
  text : string;
  completed : bool;
  dueDate : option string;              (* YYYY-MM-DD *)
  importance : option Importance;
  recurring : option RecurrenceFrequency;
  subtasks : option (list Subtask.t)
}.

Definition with_completed (c : bool) (x : t) : t :=
  mk (id x) (text x) c (dueDate x) (importance x) (recurring x) (subtasks x).

Definition with_subtasks (s : option (list Subtask.t)) (x : t) : t :=
  mk (id x) (text x) (completed x) (dueDate x) (importance x) (recurring x) s.

Definition with_dueDate (d : option string) (x : t) : t :=
  mk (id x) (text x) (completed x) d (importance x) (recurring x) (subtasks x).
End Task.

Module NewTaskData.
Record t : Type := mk {
  text : string;
  completed : bool;
  dueDate : option string;
  importance : option Importance;
  recurring : option RecurrenceFrequency;
  subtasks : option (list Subtask.t)
}.
End NewTaskData.

Abbreviation Subtask := Subtask.t.
Abbreviation Task := Task.t.
Abbreviation NewTaskData := NewTaskData.t.

(** Identifiers are compared with [===], [<] and [>] on strings; the order is
    the lexicographic order of the character codes. *)
Definition string_lt (a b : string) : bool := String.ltb a b.

(** [s || undefined] and [s ? ... : ...] on an optional string: the empty
    string is falsy. *)
Definition truthy_string (s : option string) : option string :=
  match s with
  | Some (String c r) => Some (String c r)
  | _ => None
  end.

(** [s || undefined] on a form field. *)
Definition or_undefined (s : string) : option string := truthy_string (Some s).

(* ------------------------------------------------------------------ *)
(** ** Arrays *)

Section Arrays.
Context {A : Type}.

(** [arr.findIndex(p)]: the first index whose element satisfies [p], or -1. *)
Fixpoint findIndex_from (p : A -> bool) (l : list A) (i : Z) : Z :=
  match l with
  | [] => -1
  | x :: l' => if p x then i else findIndex_from p l' (i + 1)
  end.

Definition findIndex (p : A -> bool) (l : list A) : Z := findIndex_from p l 0.

(** [arr.splice(start, deleteCount, ...items)]: the removed elements and the
    array afterwards.  A negative [start] counts from the end; both
    arguments are clamped to the array. *)
Definition splice (l : list A) (start deleteCount : Z) (items : list A)
    : list A * list A :=
  let len := Z.of_nat (List.length l) in
  let actualStart :=
    if start <? 0 then Z.max (len + start) 0 else Z.min start len in
  let actualDeleteCount := Z.min (Z.max deleteCount 0) (len - actualStart) in
  let k := Z.to_nat actualStart in
  let n := Z.to_nat actualDeleteCount in
  (firstn n (skipn k l), (firstn k l ++ items ++ skipn (k + n) l)%list).

(** [Array.prototype.sort(comparefn)].  A comparator result of [NaN] counts
    as [+0].  The sort is stable, and for a consistent comparator the
    standard fixes its result: the insertion sort below computes it, each
    element going in front of the first element it does not compare greater
    than.  For a comparator that is not consistent (one that answers [NaN]
    for some pairs only) the standard leaves the order to the engine, and
    this definition says nothing about it. *)
Variable comparefn : A -> A -> num.

Definition SortCompare (x y : A) : Z :=
  match comparefn x y with
  | Some v => v
  | None => 0
  end.

Fixpoint sort_insert (x : A) (l : list A) : list A :=
  match l with
  | [] => [x]
  | y :: l' => if 0 <? SortCompare x y then y :: sort_insert x l' else x :: l
  end.

Definition Array_sort (l : list A) : list A := fold_right sort_insert [] l.
End Arrays.

(* ================================================================== *)
(** * Date objects *)

Section Platform.

(** [LocalTZA t isUTC]: the offset of local time from UTC in milliseconds, at
    the UTC time [t] ([isUTC = true]) or at the local time [t]. *)
Variable LocalTZA : Z -> bool -> Z.

(** [v > 0] for a JSON value [v] that is not known to be a number: the
    outcome of the coercions of the abstract relational comparison. *)
Variable greater_than_zero : JSON -> bool.

Definition LocalTime (t : Z) : Z := t + LocalTZA t true.
Definition UTC (t : Z) : Z := t - LocalTZA t false.

(** A [Date] object is its time value; [NaN] is the invalid date. *)
Record Date : Type := mkDate { tv : num }.

(** [new Date(string)]. *)
Definition Date_of_string (s : string) : Date :=
  match parse_date_string s with
  | DateOnly day => mkDate (TimeClip (MakeDate day 0))
  | DateTimeLocal day time => mkDate (TimeClip (UTC (MakeDate day time)))
  | Unrecognised => mkDate NaN
  end.

Definition getTime (d : Date) : num := tv d.

Definition getFullYear (d : Date) : num :=
  match tv d with
  | Some t => Some (YearFromTime (LocalTime t))
  | None => NaN
  end.

Definition getMonth (d : Date) : num :=
  match tv d with
  | Some t => Some (MonthFromTime (LocalTime t))
  | None => NaN
  end.

Definition getDate (d : Date) : num :=
  match tv d with
  | Some t => Some (DateFromTime (LocalTime t))
  | None => NaN
  end.

Definition setDate (d : Date) (date : num) : Date :=
  match tv d, date with
  | Some t0, Some dt =>
      let t := LocalTime t0 in
      let newDate :=
        MakeDate (MakeDay (YearFromTime t) (MonthFromTime t) dt) (TimeWithinDay t) in
      mkDate (TimeClip (UTC newDate))
  | _, _ => mkDate NaN
  end.

Definition setMonth (d : Date) (month : num) : Date :=
  match tv d, month with
  | Some t0, Some m =>
      let t := LocalTime t0 in
      let newDate :=
        MakeDate (MakeDay (YearFromTime t) m (DateFromTime t)) (TimeWithinDay t) in
      mkDate (TimeClip (UTC newDate))
  | _, _ => mkDate NaN
  end.

(** [setFullYear] restarts an invalid date from time value [+0]. *)
Definition setFullYear (d : Date) (year : num) : Date :=
  match year with
  | Some y =>
      let t := match tv d with Some t0 => LocalTime t0 | None => 0 end in
      let newDate :=
        MakeDate (MakeDay y (MonthFromTime t) (DateFromTime t)) (TimeWithinDay t) in
      mkDate (TimeClip (UTC newDate))
  | None => mkDate NaN
  end.

(** [toISOString()] works on the UTC fields; years outside 0..9999 take the
    six-digit signed form.  An invalid date throws a [RangeError]: [None]. *)
Definition toISOString (d : Date) : option string :=
  match tv d with
  | Some t =>
      let y := YearFromTime t in
      let year :=
        if (0 <=? y) && (y <=? 9999) then padStart0 4 (Number_toString (Some y))
        else (if y <? 0 then "-" else "+")
             ++ padStart0 6 (Number_toString (Some (Z.abs y))) in
      Some (year ++ "-" ++ padStart0 2 (Number_toString (Some (MonthFromTime t + 1)))
            ++ "-" ++ padStart0 2 (Number_toString (Some (DateFromTime t)))
            ++ "T" ++ padStart0 2 (Number_toString (Some (HourFromTime t)))
            ++ ":" ++ padStart0 2 (Number_toString (Some (MinFromTime t)))
            ++ ":" ++ padStart0 2 (Number_toString (Some (SecFromTime t)))
            ++ "." ++ padStart0 3 (Number_toString (Some (msFromTime t)))
            ++ "Z")
  | None => None
  end.

(** [s.split('T')[0]]: the text before the first ['T']. *)
Fixpoint split_T_0 (s : string) : string :=
  match s with
  | EmptyString => EmptyString
  | String c s' => if Ascii.eqb c "T" then EmptyString else String c (split_T_0 s')
  end.

(* ------------------------------------------------------------------ *)
(** ** [calculateNextDueDate] *)

Definition calculateNextDueDate (currentDateStr : string)
    (frequency : RecurrenceFrequency) : string :=
  (* Use midday to avoid timezone boundary issues *)
  let date := Date_of_string (currentDateStr ++ "T12:00:00") in
  let date :=
    match frequency with
    | daily => setDate date (num_add (getDate date) (Some 1))
    | weekly => setDate date (num_add (getDate date) (Some 7))
    | monthly => setMonth date (num_add (getMonth date) (Some 1))
    | yearly => setFullYear date (num_add (getFullYear date) (Some 1))
    end in
  let year := getFullYear date in
  let month := padStart2 (Number_toString (num_add (getMonth date) (Some 1))) in
  let day := padStart2 (Number_toString (getDate date)) in
  Number_toString year ++ "-" ++ month ++ "-" ++ day.


(* ------------------------------------------------------------------ *)
(** ** [sortTasks] *)

Definition importanceOrder (i : Importance) : Z :=
  match i with
  | high => 1
  | medium => 2
  | low => 3
  end.

Definition importanceRank (i : option Importance) : Z :=
  match i with
  | Some x => importanceOrder x
  | None => 4
  end.

(** [a.dueDate ? new Date(a.dueDate) : null]. *)
Definition dueDate_object (a : Task) : option Date :=
  match truthy_string (Task.dueDate a) with
  | Some d => Some (Date_of_string d)
  | None => None
  end.

(** The last three lines of the comparator. *)
Definition compareIds (a b : Task) : num :=
  if string_lt (Task.id a) (Task.id b) then Some 1
  else if string_lt (Task.id b) (Task.id a) then Some (-1)
  else Some 0.

Definition compareTasks (a b : Task) : num :=
  if negb (Bool.eqb (Task.completed a) (Task.completed b)) then
    if Task.completed a then Some 1 else Some (-1)
  else if negb (Task.completed a) then
    let aImportance := importanceRank (Task.importance a) in
    let bImportance := importanceRank (Task.importance b) in
    if negb (aImportance =? bImportance) then Some (aImportance - bImportance)
    else
      match dueDate_object a, dueDate_object b with
      | Some _, None => Some (-1)
      | None, Some _ => Some 1
      | Some aDate, Some bDate => num_sub (getTime aDate) (getTime bDate)
      | None, None => compareIds a b
      end
  else compareIds a b.

Definition sortTasks (tasks : list Task) : list Task :=
  Array_sort compareTasks tasks.

(* ------------------------------------------------------------------ *)
(** ** Component state *)

Inductive TimerMode : Type := focus | break.

Inductive Position : Type := top | bottom.

(** The calls a handler issues to the task store. *)
Inductive StoreCall : Type :=
  | addTask (data : NewTaskData)
  | updateTask (task : Task)
  | deleteTask (id : string).

(** Modelled from the spec: what [addTask] of [firebaseDb] (not among the
    sources) resolves to: the submitted data under the identifier the store
    assigned. *)
Definition addTask_result (newId : string) (data : NewTaskData) : Task :=
  Task.mk newId (NewTaskData.text data) (NewTaskData.completed data)
    (NewTaskData.dueDate data) (NewTaskData.importance data)
    (NewTaskData.recurring data) (NewTaskData.subtasks data).

Definition FOCUS_DURATION : Z := 25 * 60.
Definition BREAK_DURATION : Z := 5 * 60.

Record State : Type := mkState {
  tasks : list Task;
  loadingTaskId : option string;
  focusedTaskId : option string;
  openMenuId : option string;
  timerMode : TimerMode;
  timeLeft : Z;
  isTimerActive : bool;
  isModalOpen : bool;
  editingTask : option Task;
  formText : string;
  formDueDate : string;
  formImportance : option Importance;
  formIsRecurring : bool;
  formRecurrenceFrequency : RecurrenceFrequency;
  dragOverInfo : option (Z * Position);
  draggedSubtaskRef : option (string * Subtask);
  calls : list StoreCall;        (* store calls issued, latest first *)
  errors : nat                   (* number of [console.error] calls *)
}.

Definition setTasks (f : list Task -> list Task) (s : State) : State :=
  mkState (f (tasks s)) (loadingTaskId s) (focusedTaskId s) (openMenuId s)
    (timerMode s) (timeLeft s) (isTimerActive s) (isModalOpen s) (editingTask s)
    (formText s) (formDueDate s) (formImportance s) (formIsRecurring s)
    (formRecurrenceFrequency s) (dragOverInfo s) (draggedSubtaskRef s)
    (calls s) (errors s).

Definition setLoadingTaskId (v : option string) (s : State) : State :=
  mkState (tasks s) v (focusedTaskId s) (openMenuId s)
    (timerMode s) (timeLeft s) (isTimerActive s) (isModalOpen s) (editingTask s)
    (formText s) (formDueDate s) (formImportance s) (formIsRecurring s)
    (formRecurrenceFrequency s) (dragOverInfo s) (draggedSubtaskRef s)
    (calls s) (errors s).

Definition setFocusedTaskId (f : option string -> option string) (s : State) : State :=
  mkState (tasks s) (loadingTaskId s) (f (focusedTaskId s)) (openMenuId s)
    (timerMode s) (timeLeft s) (isTimerActive s) (isModalOpen s) (editingTask s)
    (formText s) (formDueDate s) (formImportance s) (formIsRecurring s)
    (formRecurrenceFrequency s) (dragOverInfo s) (draggedSubtaskRef s)
    (calls s) (errors s).

Definition setOpenMenuId (v : option string) (s : State) : State :=
  mkState (tasks s) (loadingTaskId s) (focusedTaskId s) v
    (timerMode s) (timeLeft s) (isTimerActive s) (isModalOpen s) (editingTask s)
    (formText s) (formDueDate s) (formImportance s) (formIsRecurring s)
    (formRecurrenceFrequency s) (dragOverInfo s) (draggedSubtaskRef s)
    (calls s) (errors s).

Definition setTimer (m : TimerMode) (left : Z) (s : State) : State :=
  mkState (tasks s) (loadingTaskId s) (focusedTaskId s) (openMenuId s)
    m left (isTimerActive s) (isModalOpen s) (editingTask s)
    (formText s) (formDueDate s) (formImportance s) (formIsRecurring s)
    (formRecurrenceFrequency s) (dragOverInfo s) (draggedSubtaskRef s)
    (calls s) (errors s).

Definition setIsModalOpen (v : bool) (s : State) : State :=
  mkState (tasks s) (loadingTaskId s) (focusedTaskId s) (openMenuId s)
    (timerMode s) (timeLeft s) (isTimerActive s) v (editingTask s)
    (formText s) (formDueDate s) (formImportance s) (formIsRecurring s)
    (formRecurrenceFrequency s) (dragOverInfo s) (draggedSubtaskRef s)
    (calls s) (errors s).

Definition setDragOverInfo (v : option (Z * Position)) (s : State) : State :=
  mkState (tasks s) (loadingTaskId s) (focusedTaskId s) (openMenuId s)
    (timerMode s) (timeLeft s) (isTimerActive s) (isModalOpen s) (editingTask s)
    (formText s) (formDueDate s) (formImportance s) (formIsRecurring s)
    (formRecurrenceFrequency s) v (draggedSubtaskRef s)
    (calls s) (errors s).

Definition setDraggedSubtaskRef (v : option (string * Subtask)) (s : State) : State :=
  mkState (tasks s) (loadingTaskId s) (focusedTaskId s) (openMenuId s)
    (timerMode s) (timeLeft s) (isTimerActive s) (isModalOpen s) (editingTask s)
    (formText s) (formDueDate s) (formImportance s) (formIsRecurring s)
    (formRecurrenceFrequency s) (dragOverInfo s) v
    (calls s) (errors s).

(** Issue a call to the store. *)
Definition call (c : StoreCall) (s : State) : State :=
  mkState (tasks s) (loadingTaskId s) (focusedTaskId s) (openMenuId s)
    (timerMode s) (timeLeft s) (isTimerActive s) (isModalOpen s) (editingTask s)
    (formText s) (formDueDate s) (formImportance s) (formIsRecurring s)
    (formRecurrenceFrequency s) (dragOverInfo s) (draggedSubtaskRef s)
    (c :: calls s) (errors s).

Definition console_error (s : State) : State :=
  mkState (tasks s) (loadingTaskId s) (focusedTaskId s) (openMenuId s)
    (timerMode s) (timeLeft s) (isTimerActive s) (isModalOpen s) (editingTask s)
    (formText s) (formDueDate s) (formImportance s) (formIsRecurring s)
    (formRecurrenceFrequency s) (dragOverInfo s) (draggedSubtaskRef s)
    (calls s) (S (errors s)).

Definition closeModal (s : State) : State := setIsModalOpen false s.

(** [prev.map(t => t.id === id ? updatedTask : t)]. *)
Definition replaceById (id : string) (updatedTask : Task) (prev : list Task) : list Task :=
  map (fun t => if String.eqb (Task.id t) id then updatedTask else t) prev.

(** [focusedTask]: [tasks.find(t => t.id === focusedTaskId)]. *)
Definition focusedTask (s : State) : option Task :=
  match focusedTaskId s with
  | Some f => find (fun t => String.eqb (Task.id t) f) (tasks s)
  | None => None
  end.

(* ------------------------------------------------------------------ *)
(** ** Handlers

    Every handler awaits at most one store call; [persisted] tells whether
    that call resolved ([true]) or rejected. *)

(** [String.prototype.trim].  A character is a code unit below 256; among
    those the white space and the line terminators are the codes 9 to 13, 32
    and 160.  Texts holding other white space (U+3000 and the like) cannot be
    written as a [string] and are outside this model. *)
Definition is_whitespace (c : ascii) : bool :=
  let n := nat_of_ascii c in
  ((9 <=? n) && (n <=? 13))%nat || (n =? 32)%nat || (n =? 160)%nat.

Fixpoint trimStart (s : string) : string :=
  match s with
  | EmptyString => EmptyString
  | String c s' => if is_whitespace c then trimStart s' else s
  end.

Definition string_rev (s : string) : string :=
  string_of_list_ascii (rev (list_ascii_of_string s)).

Definition trim (s : string) : string :=
  string_rev (trimStart (string_rev (trimStart s))).

Definition handleSaveTask (newId : string) (persisted : bool) (s : State) : State :=
  if String.eqb (trim (formText s)) "" then s
  else
    match editingTask s with
    | Some editing =>
        let updatedTask :=
          Task.mk (Task.id editing) (formText s) (Task.completed editing)
            (or_undefined (formDueDate s)) (formImportance s)
            (if formIsRecurring s then Some (formRecurrenceFrequency s) else None)
            (Task.subtasks editing) in
        let updatedTask :=
          if formIsRecurring s
          then Task.with_completed false updatedTask (* Recurring tasks should be active *)
          else updatedTask in
        let s := call (updateTask updatedTask) s in
        if persisted then
          closeModal
            (setTasks (fun prev => sortTasks (replaceById (Task.id editing) updatedTask prev)) s)
        else s
    | None =>
        let newTaskData :=
          NewTaskData.mk (formText s) false (or_undefined (formDueDate s))
            (formImportance s)
            (if formIsRecurring s then Some (formRecurrenceFrequency s) else None)
            (Some []) in
        let s := call (addTask newTaskData) s in
        closeModal
          (if persisted then
             let newTask := addTask_result newId newTaskData in
             setTasks (fun prev => sortTasks (newTask :: prev)) s
           else console_error s)
    end.

(** [new Date().toISOString().split('T')[0]] at time value [now]. *)
Definition todayISO (now : Z) : string :=
  match toISOString (mkDate (Some now)) with
  | Some iso => split_T_0 iso
  | None => EmptyString
  end.

Definition handleToggleTask (now : Z) (persisted : bool) (task : Task) (s : State) : State :=
  let s :=
    match Task.recurring task, Task.completed task with
    | Some frequency, false =>
        let nextDueDate :=
          calculateNextDueDate
            (match truthy_string (Task.dueDate task) with
             | Some d => d
             | None => todayISO now
             end)
            frequency in
        let resetSubtasks :=
          option_map (map (Subtask.with_completed false)) (Task.subtasks task) in
        let updatedTask :=
          Task.with_subtasks resetSubtasks (Task.with_dueDate (Some nextDueDate) task) in
        let s := setTasks (fun prev => sortTasks (replaceById (Task.id task) updatedTask prev)) s in
        call (updateTask updatedTask) s
    | _, _ =>
        let updatedTask := Task.with_completed (negb (Task.completed task)) task in
        let s := setTasks (fun prev => sortTasks (replaceById (Task.id task) updatedTask prev)) s in
        call (updateTask updatedTask) s
    end in
  if persisted then setOpenMenuId None s else s.

Definition handleToggleSubtask (persisted : bool) (taskId : string) (subtaskId : Z)
    (s : State) : State :=
  match find (fun t => String.eqb (Task.id t) taskId) (tasks s) with
  | None => s
  | Some taskToUpdate =>
      match Task.subtasks taskToUpdate with
      | None => s
      | Some subtasks =>
          let updatedSubtasks :=
            map (fun st =>
                   if Subtask.id st =? subtaskId
                   then Subtask.with_completed (negb (Subtask.completed st)) st
                   else st) subtasks in
          let updatedTask := Task.with_subtasks (Some updatedSubtasks) taskToUpdate in
          (* Update state without re-sorting main task list to preserve UI stability *)
          let s := setTasks (fun prev => replaceById taskId updatedTask prev) s in
          call (updateTask updatedTask) s
      end
  end.

Definition handleDeleteTask (persisted : bool) (id : string) (s : State) : State :=
  let s :=
    match focusedTaskId s with
    | Some f => if String.eqb f id then setFocusedTaskId (fun _ => None) s else s
    | None => s
    end in
  let s := setTasks (fun prev => filter (fun t => negb (String.eqb (Task.id t) id)) prev) s in
  let s := call (deleteTask id) s in
  if persisted then setOpenMenuId None s else s.

Definition handleSelectFocusTask (task : Task) (s : State) : State :=
  if Task.completed task then s
  else if isTimerActive s then s (* alert *)
  else
    let s :=
      setFocusedTaskId
        (fun prev =>
           match prev with
           | Some f => if String.eqb f (Task.id task) then None else Some (Task.id task)
           | None => Some (Task.id task)
           end) s in
    match timerMode s with
    | focus => if timeLeft s =? FOCUS_DURATION then s else setTimer focus FOCUS_DURATION s
    | break => setTimer focus FOCUS_DURATION s
    end.

(* ------------------------------------------------------------------ *)
(** ** [handleBreakdownTask] *)

(** What the text-generation call and [JSON.parse(response.text)] come to. *)
Inductive Generation : Type :=
  | TransportFailure                 (* [generateContent] rejected *)
  | ParseFailure                     (* [JSON.parse] threw a [SyntaxError] *)
  | Parsed (result : JSON).

Inductive Completion : Type :=
  | Returned (s : State)
  | Thrown (s : State).

Fixpoint lookup (key : string) (fields : list (string * JSON)) : option JSON :=
  match fields with
  | [] => None
  | (k, v) :: rest => if String.eqb k key then Some v else lookup key rest
  end.

(** [v || []] on the value of [result.subtasks]; [None] is [undefined]. *)
Definition or_empty_array (v : option JSON) : JSON :=
  match v with
  | None => JArray []
  | Some JNull => JArray []
  | Some (JBool false) => JArray []
  | Some (JNumber (S754_zero _)) => JArray []
  | Some (JNumber S754_nan) => JArray []
  | Some (JString EmptyString) => JArray []
  | Some x => x
  end.

Fixpoint mapi_from {A B : Type} (f : A -> nat -> B) (i : nat) (l : list A) : list B :=
  match l with
  | [] => []
  | x :: l' => f x i :: mapi_from f (S i) l'
  end.

(** [arr.map((x, index) => ...)]. *)
Definition mapi {A B : Type} (f : A -> nat -> B) (l : list A) : list B :=
  mapi_from f O l.

(** The body of the [try] block once the response is parsed.  [Date_now i] is
    what [Date.now()] returns inside the callback for index [i]. *)
Definition breakdown_parsed (Date_now : nat -> Z) (persisted : bool) (task : Task)
    (result : JSON) (s : State) : Completion :=
  match result with
  | JNull => Thrown s                        (* [null.subtasks] *)
  | _ =>
      let subtaskTexts :=
        or_empty_array
          match result with
          | JObject fields => lookup "subtasks" fields
          | _ => None
          end in
      match subtaskTexts with
      | JArray texts =>
          if (0 <? Z.of_nat (List.length texts)) then
            let newSubtasks :=
              mapi (fun subtaskText index =>
                      Subtask.mk (Date_now index + Z.of_nat index) subtaskText false)
                   texts in
            let updatedTask :=
              Task.with_subtasks
                (Some (match Task.subtasks task with
                       | Some old => old
                       | None => []
                       end ++ newSubtasks)%list)
                task in
            let s :=
              setTasks (fun prev => sortTasks (replaceById (Task.id task) updatedTask prev)) s in
            let s := call (updateTask updatedTask) s in
            if persisted then Returned s else Thrown s
          else Returned s
      | JString _ => Thrown s                (* a string has no [map] *)
      | JObject fields =>
          match lookup "length" fields with
          | Some len => if greater_than_zero len then Thrown s else Returned s
          | None => Returned s
          end
      | _ => Returned s                      (* [length] is [undefined] *)
      end
  end.

Definition handleBreakdownTask (Date_now : nat -> Z) (persisted : bool)
    (response : Generation) (task : Task) (s : State) : State :=
  let s := setOpenMenuId None s in
  let s := setLoadingTaskId (Some (Task.id task)) s in
  let s :=
    match
      match response with
      | TransportFailure => Thrown s
      | ParseFailure => Thrown s
      | Parsed result => breakdown_parsed Date_now persisted task result s
      end
    with
    | Returned s' => s'
    | Thrown s' => console_error s'
    end in
  setLoadingTaskId None s.

(* ------------------------------------------------------------------ *)
(** ** Dragging subtasks *)

Definition handleSubtaskDragStart (taskId : string) (subtask : Subtask) (s : State) : State :=
  setDraggedSubtaskRef (Some (taskId, subtask)) s.

(** [position] is [top] when the pointer is above the middle of the target. *)
Definition handleSubtaskDragOver (subtaskId : Z) (position : Position) (s : State) : State :=
  match draggedSubtaskRef s with
  | None => s
  | Some (_, dragged) =>
      if Subtask.id dragged =? subtaskId then s
      else setDragOverInfo (Some (subtaskId, position)) s
  end.

Definition handleSubtaskDragLeave (s : State) : State := setDragOverInfo None s.

Definition handleSubtaskDragEnd (s : State) : State :=
  setDragOverInfo None (setDraggedSubtaskRef None s).

(** [None]: the source would put [undefined] into the array of subtasks
    ([splice] took nothing out of an empty array), which a list of subtasks
    cannot hold. *)
Definition handleSubtaskDrop (persisted : bool) (targetTaskId : string)
    (targetSubtask : Subtask) (s : State) : option State :=
  match draggedSubtaskRef s with
  | None => Some s
  | Some (sourceTaskId, sourceSubtask) =>
      if negb (String.eqb sourceTaskId targetTaskId)
         || (Subtask.id sourceSubtask =? Subtask.id targetSubtask)
      then Some s
      else
        match find (fun t => String.eqb (Task.id t) targetTaskId) (tasks s) with
        | None => Some s
        | Some taskToUpdate =>
            match Task.subtasks taskToUpdate with
            | None => Some s
            | Some subtasks =>
                let sourceIndex :=
                  findIndex (fun st => Subtask.id st =? Subtask.id sourceSubtask) subtasks in
                let targetIndex :=
                  findIndex (fun st => Subtask.id st =? Subtask.id targetSubtask) subtasks in
                let (removed, subtasks) := splice subtasks sourceIndex 1 [] in
                match removed with
                | [] => None
                | movedItem :: _ =>
                    let adjustedTargetIndex :=
                      if targetIndex >? sourceIndex then targetIndex - 1 else targetIndex in
                    let subtasks :=
                      match dragOverInfo s with
                      | Some (_, top) =>
                          snd (splice subtasks adjustedTargetIndex 0 [movedItem])
                      | _ =>
                          snd (splice subtasks (adjustedTargetIndex + 1) 0 [movedItem])
                      end in
                    let updatedTask := Task.with_subtasks (Some subtasks) taskToUpdate in
                    let s := setTasks (fun prevTasks => replaceById targetTaskId updatedTask prevTasks) s in
                    let s := call (updateTask updatedTask) s in
                    Some (if persisted then setDragOverInfo None s else s)
                end
            end
        end
  end.

(* ------------------------------------------------------------------ *)
(** ** The task screen as a transition system *)

Inductive Action : Type :=
  | SaveTask (newId : string)
  | ToggleTask (now : Z) (task : Task)
  | ToggleSubtask (taskId : string) (subtaskId : Z)
  | DeleteTask (id : string)
  | SelectFocusTask (task : Task)
  | BreakdownTask (Date_now : nat -> Z) (response : Generation) (task : Task)
  | SubtaskDragStart (taskId : string) (subtask : Subtask)
  | SubtaskDragOver (subtaskId : Z) (position : Position)
  | SubtaskDragLeave
  | SubtaskDrop (targetTaskId : string) (targetSubtask : Subtask)
  | SubtaskDragEnd.

Definition step (persisted : bool) (a : Action) (s : State) : option State :=
  match a with
  | SaveTask newId => Some (handleSaveTask newId persisted s)
  | ToggleTask now task => Some (handleToggleTask now persisted task s)
  | ToggleSubtask taskId subtaskId => Some (handleToggleSubtask persisted taskId subtaskId s)
  | DeleteTask id => Some (handleDeleteTask persisted id s)
  | SelectFocusTask task => Some (handleSelectFocusTask task s)
  | BreakdownTask Date_now response task =>
      Some (handleBreakdownTask Date_now persisted response task s)
  | SubtaskDragStart taskId subtask => Some (handleSubtaskDragStart taskId subtask s)
  | SubtaskDragOver subtaskId position => Some (handleSubtaskDragOver subtaskId position s)
  | SubtaskDragLeave => Some (handleSubtaskDragLeave s)
  | SubtaskDrop targetTaskId targetSubtask =>
      handleSubtaskDrop persisted targetTaskId targetSubtask s
  | SubtaskDragEnd => Some (handleSubtaskDragEnd s)
  end.

End Platform.

(* ================================================================== *)
(** * The shopping list ([SupermarketScreen.tsx]) *)

Module ListItem.
Record t : Type := mk {
  id : Z;
  text : string;
  completed : bool;
  quantity : option number;
  unitPrice : option number;
  totalPrice : option number
}.
End ListItem.

Abbreviation ListItem := ListItem.t.

Module Supermarket.

Inductive StoreCall : Type :=
  | addItem (item : ListItem)
  | updateItem (item : ListItem)
  | deleteItem (id : Z)
  | clearAllItems.

Record State : Type := mkState {
  items : list ListItem;
  inputValue : string;
  modalItem : option ListItem;
  quantity : string;
  unitPrice : string;
  showClearConfirm : bool;
  calls : list StoreCall;
  errors : nat
}.

Definition zero : number := S754_zero false.
Definition mul (x y : number) : number := SFmul prec emax x y.

(** [s.replace(',', '.')]: the first comma only. *)
Fixpoint replace_comma (s : string) : string :=
  match s with
  | EmptyString => EmptyString
  | String c s' =>
      if Ascii.eqb c "," then String "." s' else String c (replace_comma s')
  end.

Section Handlers.

(** The built-ins [parseFloat] and [Number.prototype.toString]. *)
Variable parseFloat : string -> number.
Variable Number_prototype_toString : number -> string.

Definition modalItemTotal (s : State) : number :=
  let q := parseFloat (replace_comma (quantity s)) in
  let p := parseFloat (replace_comma (unitPrice s)) in
  if negb (isNaN q) && SFltb zero q && negb (isNaN p) && SFleb zero p
  then mul q p
  else zero.

Definition handleAddItem (Date_now : Z) (persisted : bool) (s : State) : State :=
  if String.eqb (trim (inputValue s)) "" then s
  else
    let newItem := ListItem.mk Date_now (inputValue s) false None None None in
    mkState (newItem :: items s) "" (modalItem s) (quantity s) (unitPrice s)
      (showClearConfirm s) (addItem newItem :: calls s)
      (if persisted then errors s else S (errors s)).

(** [x?.toString() || fallback] on an optional number. *)
Definition toString_or (x : option number) (fallback : string) : string :=
  match x with
  | Some v =>
      match Number_prototype_toString v with
      | EmptyString => fallback
      | str => str
      end
  | None => fallback
  end.

Definition handleCheckmarkClick (persisted : bool) (item : ListItem) (s : State) : State :=
  if ListItem.completed item then
    let updatedItem :=
      ListItem.mk (ListItem.id item) (ListItem.text item) false None None None in
    mkState
      (map (fun i => if ListItem.id i =? ListItem.id item then updatedItem else i) (items s))
      (inputValue s) (modalItem s) (quantity s) (unitPrice s) (showClearConfirm s)
      (updateItem updatedItem :: calls s)
      (if persisted then errors s else S (errors s))
  else
    mkState (items s) (inputValue s) (Some item)
      (toString_or (ListItem.quantity item) "1")
      (toString_or (ListItem.unitPrice item) "")
      (showClearConfirm s) (calls s) (errors s).

Definition handleModalConfirm (persisted : bool) (s : State) : State :=
  match modalItem s with
  | None => s
  | Some modal =>
      if SFleb (modalItemTotal s) zero then s
      else
        let updatedItem :=
          ListItem.mk (ListItem.id modal) (ListItem.text modal) true
            (Some (parseFloat (replace_comma (quantity s))))
            (Some (parseFloat (replace_comma (unitPrice s))))
            (Some (modalItemTotal s)) in
        mkState
          (map (fun item => if ListItem.id item =? ListItem.id modal then updatedItem else item)
               (items s))
          (inputValue s) None "1" "" (showClearConfirm s)
          (updateItem updatedItem :: calls s)
          (if persisted then errors s else S (errors s))
  end.

Definition handleDeleteItem (persisted : bool) (id : Z) (s : State) : State :=
  mkState (filter (fun item => negb (ListItem.id item =? id)) (items s))
    (inputValue s) (modalItem s) (quantity s) (unitPrice s) (showClearConfirm s)
    (deleteItem id :: calls s)
    (if persisted then errors s else S (errors s)).

Definition confirmClearList (persisted : bool) (s : State) : State :=
  mkState (if persisted then [] else items s)
    (inputValue s) (modalItem s) (quantity s) (unitPrice s) false
    (clearAllItems :: calls s)
    (if persisted then errors s else S (errors s)).

Inductive Action : Type :=
  | SetInputValue (value : string)
  | SetQuantity (value : string)
  | SetUnitPrice (value : string)
  | AddItem (Date_now : Z)
  | CheckmarkClick (item : ListItem)
  | CancelModal
  | ModalConfirm
  | DeleteItem (id : Z)
  | ConfirmClearList.

Definition step (persisted : bool) (a : Action) (s : State) : State :=
  match a with
  | SetInputValue value =>
      mkState (items s) value (modalItem s) (quantity s) (unitPrice s)
        (showClearConfirm s) (calls s) (errors s)
  | SetQuantity value =>
      mkState (items s) (inputValue s) (modalItem s) value (unitPrice s)
        (showClearConfirm s) (calls s) (errors s)
  | SetUnitPrice value =>
      mkState (items s) (inputValue s) (modalItem s) (quantity s) value
        (showClearConfirm s) (calls s) (errors s)
  | AddItem Date_now => handleAddItem Date_now persisted s
  | CheckmarkClick item => handleCheckmarkClick persisted item s
  | CancelModal =>
      mkState (items s) (inputValue s) None (quantity s) (unitPrice s)
        (showClearConfirm s) (calls s) (errors s)
  | ModalConfirm => handleModalConfirm persisted s
  | DeleteItem id => handleDeleteItem persisted id s
  | ConfirmClearList => confirmClearList persisted s
  end.

End Handlers.




(** A reading of plain decimal numerals, [digits] or [digits.digits], enough
    to try the handlers on: the integer the digits spell, divided by the power
    of ten of the fraction.  It is [parseFloat] on short numerals. *)
Fixpoint decimal_digits (s : string) (acc : Z) (scale : option Z) : option (Z * Z) :=
  match s with
  | EmptyString => Some (acc, match scale with Some k => k | None => 1 end)
  | String c s' =>
      if Ascii.eqb c "." then
        match scale with
        | None => decimal_digits s' acc (Some 1)
        | Some _ => None
        end
      else
        match digit_val c with
        | Some d =>
            decimal_digits s' (10 * acc + d)
              match scale with Some k => Some (10 * k) | None => None end
        | None => None
        end
  end.

Definition parseFloat_decimal (s : string) : number :=
  match s with
  | EmptyString => S754_nan
  | _ =>
      match decimal_digits s 0 None with
      | Some (m, k) => SFdiv prec emax (number_of_Z2 m 0) (number_of_Z2 k 0)
      | None => S754_nan
      end
  end.

(** A list with one open item whose pricing dialog reads 3 and 2,50. *)
Definition bread : ListItem := ListItem.mk 1700000000000 "bread" false None None None.

Definition pricing_bread : State :=
  mkState [bread] "" (Some bread) "3" "2,50" false [] O.

End Supermarket.

(* ================================================================== *)
(** * The calendar the specification speaks of *)

(** Days of month [m] (1..12). *)
Definition monthLength (leap : bool) (m : Z) : Z :=
  match m with
  | 2 => if leap then 29 else 28
  | 4 | 6 | 9 | 11 => 30
  | _ => 31
  end.

Definition daysInMonth (y m : Z) : Z := monthLength (isLeapYear y) m.

(** The integers [lo], [lo + 1], ... [lo + n - 1]. *)
Definition range (lo n : Z) : list Z :=
  map (fun i => lo + Z.of_nat i) (seq 0 (Z.to_nat n)).

(** A calendar date with a four-digit year. *)
Definition valid_date (y m d : Z) : Prop :=
  0 <= y <= 9999 /\ 1 <= m <= 12 /\ 1 <= d <= daysInMonth y m.

(** The text [YYYY-MM-DD] of a date, every field zero-padded. *)
Definition date_string (y m d : Z) : string :=
  String (digit_char (y / 1000)) (String (digit_char (y / 100 mod 10))
  (String (digit_char (y / 10 mod 10)) (String (digit_char (y mod 10))
  (String "-" (String (digit_char (m / 10)) (String (digit_char (m mod 10))
  (String "-" (String (digit_char (d / 10)) (String (digit_char (d mod 10))
  EmptyString))))))))).

(** The day after. *)
Definition next_day (x : Z * Z * Z) : Z * Z * Z :=
  let '(y, m, d) := x in
  if d <? daysInMonth y m then (y, m, d + 1)
  else if m <? 12 then (y, m + 1, 1)
  else (y + 1, 1, 1).

Fixpoint add_days (n : nat) (x : Z * Z * Z) : Z * Z * Z :=
  match n with
  | O => x
  | S n' => add_days n' (next_day x)
  end.

(** Month overflow: a day past the end of its month runs on into the month
    after; nothing is clamped. *)
Definition month_overflow (x : Z * Z * Z) : Z * Z * Z :=
  let '(y, m, d) := x in
  if d <=? daysInMonth y m then (y, m, d) else (y, m + 1, d - daysInMonth y m).

Definition add_month (x : Z * Z * Z) : Z * Z * Z :=
  let '(y, m, d) := x in
  month_overflow (if m =? 12 then (y + 1, 1, d) else (y, m + 1, d)).

Definition add_year (x : Z * Z * Z) : Z * Z * Z :=
  let '(y, m, d) := x in
  month_overflow (y + 1, m, d).

(** [nextOccurrence] as section 4.1 of the specification words it. *)
Definition nextOccurrence (frequency : RecurrenceFrequency) (x : Z * Z * Z) : Z * Z * Z :=
  match frequency with
  | daily => add_days 1 x
  | weekly => add_days 7 x
  | monthly => add_month x
  | yearly => add_year x
  end.

(** Year, month and day joined by dashes, month and day padded to two digits. *)
Definition year_month_day (x : Z * Z * Z) : string :=
  let '(y, m, d) := x in
  Number_toString (Some y) ++ "-" ++ padStart2 (Number_toString (Some m))
  ++ "-" ++ padStart2 (Number_toString (Some d)).

Definition midday : Z := 12 * msPerHour.

(** Local noon is never inside a change of offset, and offsets stay within
    a day: what makes arithmetic at midday safe. *)
Definition midday_stable (LocalTZA : Z -> bool -> Z) : Prop :=
  (forall t b, - msPerDay <= LocalTZA t b <= msPerDay) /\
  (forall t, TimeWithinDay t = midday ->
             LocalTZA (UTC LocalTZA t) true = LocalTZA t false).

(** The [Date] object that shows local noon of a calendar date. *)
Definition noon_of (y m d : Z) : Z := MakeDate (MakeDay y (m - 1) d) midday.

Definition Date_at (LocalTZA : Z -> bool -> Z) (y m d : Z) : Date :=
  mkDate (Some (UTC LocalTZA (noon_of y m d))).

(** Brasilia time, three hours behind UTC all year. *)
Definition Brasilia : Z -> bool -> Z := fun _ _ => -10800000.


(* ================================================================== *)
(** * Properties of tasks and states *)

(** [x] may stand before [y] in an array sorted by [comparefn]. *)
Definition before {A : Type} (comparefn : A -> A -> num) (x y : A) : Prop :=
  SortCompare comparefn x y <= 0.

(** The due date of a task, when it has one, is a date the engine can read. *)
Definition dated_ok (LocalTZA : Z -> bool -> Z) (t : Task) : Prop :=
  match dueDate_object LocalTZA t with
  | Some date => getTime date <> None
  | None => True
  end.

(** The time value of the due date. *)
Definition due_time (LocalTZA : Z -> bool -> Z) (t : Task) : option Z :=
  match dueDate_object LocalTZA t with
  | Some date => getTime date
  | None => None
  end.

(** The order of the task list, tier by tier: unfinished tasks first; among
    them the smaller importance rank first, then the earlier due date, tasks
    with a due date before tasks without; identifiers, greatest first, decide
    between two finished tasks and between two unfinished tasks of one rank
    that both lack a due date. *)
Definition precedes (LocalTZA : Z -> bool -> Z) (a b : Task) : Prop :=
  match Task.completed a, Task.completed b with
  | false, true => True
  | true, false => False
  | true, true => string_lt (Task.id a) (Task.id b) = false
  | false, false =>
      importanceRank (Task.importance a) < importanceRank (Task.importance b)
      \/ (importanceRank (Task.importance a) = importanceRank (Task.importance b)
          /\ match due_time LocalTZA a, due_time LocalTZA b with
             | Some ta, Some tb => ta <= tb
             | Some _, None => True
             | None, Some _ => False
             | None, None => string_lt (Task.id a) (Task.id b) = false
             end)
  end.

(** A recurring task is never left completed. *)
Definition recurring_active (t : Task) : Prop :=
  Task.recurring t <> None -> Task.completed t = false.

(** The task an action carries, if any, is one the screen shows. *)
Definition action_task (a : Action) : option Task :=
  match a with
  | ToggleTask _ task => Some task
  | SelectFocusTask task => Some task
  | BreakdownTask _ _ task => Some task
  | _ => None
  end.

(** Two tasks with the same importance and the same due date, and the same
    two without a due date. *)
Definition report_a : Task :=
  Task.mk "a" "write report" false (Some "2024-01-01") None None (Some []).
Definition report_b : Task :=
  Task.mk "b" "send report" false (Some "2024-01-01") None None (Some []).
Definition undated_a : Task := Task.with_dueDate None report_a.
Definition undated_b : Task := Task.with_dueDate None report_b.

(** The state a completion ends in, before any [catch]. *)
Definition state_of (c : Completion) : State :=
  match c with
  | Returned s => s
  | Thrown s => s
  end.



(** The non-empty array found under [subtasks], whatever its elements. *)
Definition generated_texts (response : Generation) : option (list JSON) :=
  match response with
  | Parsed (JObject fields) =>
      match lookup "subtasks" fields with
      | Some (JArray (x :: rest)) => Some (x :: rest)
      | _ => None
      end
  | _ => None
  end.

(** The subtasks made of an array of texts. *)
Definition newSubtasks (Date_now : nat -> Z) (texts : list JSON) : list Subtask :=
  mapi (fun subtaskText index =>
          Subtask.mk (Date_now index + Z.of_nat index) subtaskText false) texts.

Definition existing_subtasks (task : Task) : list Subtask :=
  match Task.subtasks task with
  | Some old => old
  | None => []
  end.



(** The reordering [handleSubtaskDrop] computes from an array of subtasks. *)
Definition dropped (sourceId targetId : Z) (over : option (Z * Position))
    (subtasks : list Subtask) : option (list Subtask) :=
  let sourceIndex := findIndex (fun st => Subtask.id st =? sourceId) subtasks in
  let targetIndex := findIndex (fun st => Subtask.id st =? targetId) subtasks in
  let (removed, subtasks) := splice subtasks sourceIndex 1 [] in
  match removed with
  | [] => None
  | movedItem :: _ =>
      let adjustedTargetIndex :=
        if targetIndex >? sourceIndex then targetIndex - 1 else targetIndex in
      Some match over with
           | Some (_, top) => snd (splice subtasks adjustedTargetIndex 0 [movedItem])
           | _ => snd (splice subtasks (adjustedTargetIndex + 1) 0 [movedItem])
           end
  end.


(** Sample data: a monthly rent task with one finished subtask, and screens
    showing it. *)
Definition receipt : Subtask := Subtask.mk 1 (JString "keep the receipt") true.
Definition transfer : Subtask := Subtask.mk 2 (JString "make the transfer") false.
Definition notify : Subtask := Subtask.mk 3 (JString "tell the landlord") false.

Definition rent : Task :=
  Task.mk "rent" "pay the rent" false (Some "2024-01-31") (Some high) (Some monthly)
    (Some [receipt; transfer; notify]).

Definition rent_screen : State :=
  mkState [rent; report_a] None None None focus FOCUS_DURATION false false None
    "" "" None false monthly None None [] O.

(** The same screen while [receipt] is dragged over the upper half of [notify]. *)
Definition dragging_receipt : State :=
  mkState [rent; report_a] None None None focus FOCUS_DURATION false false None
    "" "" None false monthly (Some (3, top)) (Some ("rent", receipt)) [] O.

(** A daily task without a due date, and a quarter past nine in the evening
    of 29 February 2024 in Brasilia, which is 2024-03-01T00:15:00Z. *)
Definition chore : Task :=
  Task.mk "chore" "water the plants" false None None (Some daily) (Some []).

Definition chore_screen : State :=
  mkState [chore] None None None focus FOCUS_DURATION false false None
    "" "" None false monthly None None [] O.

Definition late_evening : Z := 1709252100000.



(* ================================================================== *)
(** * More of the task screen *)

(** ** The form *)

Definition setForm (editing : option Task) (text dueDate : string)
    (imp : option Importance) (isRecurring : bool) (frequency : RecurrenceFrequency)
    (s : State) : State :=
  mkState (tasks s) (loadingTaskId s) (focusedTaskId s) (openMenuId s)
    (timerMode s) (timeLeft s) (isTimerActive s) (isModalOpen s) editing
    text dueDate imp isRecurring frequency (dragOverInfo s) (draggedSubtaskRef s)
    (calls s) (errors s).

Definition resetForm (s : State) : State := setForm None "" "" None false monthly s.

Definition openAddModal (s : State) : State := setIsModalOpen true (resetForm s).

Definition openEditModal (task : Task) (s : State) : State :=
  let s :=
    setForm (Some task) (Task.text task)
      (match truthy_string (Task.dueDate task) with Some d => d | None => "" end)
      (Task.importance task)
      (match Task.recurring task with Some _ => true | None => false end)
      (match Task.recurring task with Some frequency => frequency | None => monthly end)
      s in
  setIsModalOpen true (setOpenMenuId None s).

Definition handleMenuToggle (taskId : string) (s : State) : State :=
  setOpenMenuId
    (match openMenuId s with
     | Some prev => if String.eqb prev taskId then None else Some taskId
     | None => Some taskId
     end) s.

(** The text is made of ASCII characters. *)
Definition ascii_text (s : string) : bool :=
  forallb (fun c => (nat_of_ascii c <? 128)%nat) (list_ascii_of_string s).

(** The text has no character but white space. *)
Definition all_blank (s : string) : bool :=
  forallb is_whitespace (list_ascii_of_string s).

(** ** The focus timer *)

Definition setIsTimerActive (v : bool) (s : State) : State :=
  mkState (tasks s) (loadingTaskId s) (focusedTaskId s) (openMenuId s)
    (timerMode s) (timeLeft s) v (isModalOpen s) (editingTask s)
    (formText s) (formDueDate s) (formImportance s) (formIsRecurring s)
    (formRecurrenceFrequency s) (dragOverInfo s) (draggedSubtaskRef s)
    (calls s) (errors s).

(** The component state: [State] with the two pieces of the timer panel it
    leaves out. *)
Record Screen : Type := mkScreen {
  state : State;
  pomodoroCount : Z;
  isPomodoroExpanded : bool
}.

Definition duration (m : TimerMode) : Z :=
  match m with
  | focus => FOCUS_DURATION
  | break => BREAK_DURATION
  end.

(** The callback of the interval that runs while the timer is active:
    [setTimeLeft(prev => prev - 1)]. *)
Definition interval_callback (p : Screen) : Screen :=
  if isTimerActive (state p)
  then mkScreen (setTimer (timerMode (state p)) (timeLeft (state p) - 1) (state p))
         (pomodoroCount p) (isPomodoroExpanded p)
  else p.

(** The effect that follows [timeLeft] and [timerMode]. *)
Definition timeLeft_effect (p : Screen) : Screen :=
  if timeLeft (state p) <=? 0 then
    match timerMode (state p) with
    | focus =>
        mkScreen (setIsTimerActive false (setTimer break BREAK_DURATION (state p)))
          (pomodoroCount p + 1) (isPomodoroExpanded p)
    | break =>
        mkScreen (setIsTimerActive false (setTimer focus FOCUS_DURATION (state p)))
          (pomodoroCount p) (isPomodoroExpanded p)
    end
  else p.

(** One second of the running timer, once the screen has settled: the
    callback, then the effect.  Between the two the component renders with
    the time left the callback set, see [render]. *)
Definition tick (p : Screen) : Screen := timeLeft_effect (interval_callback p).

Definition handleStartTimer (p : Screen) : Screen :=
  mkScreen (if isTimerActive (state p) then state p else setIsTimerActive true (state p))
    (pomodoroCount p) true.

Definition toggleTimer (p : Screen) : Screen :=
  mkScreen (setIsTimerActive (negb (isTimerActive (state p))) (state p))
    (pomodoroCount p) (isPomodoroExpanded p).

Definition resetTimer (p : Screen) : Screen :=
  mkScreen
    (setTimer (timerMode (state p)) (duration (timerMode (state p)))
       (setIsTimerActive false (state p)))
    (pomodoroCount p) false.

(** [Math.floor(timeLeft / 60).toString().padStart(2, '0')] and
    [(timeLeft % 60).toString().padStart(2, '0')]. *)
Definition minutes (timeLeft : Z) : string :=
  padStart2 (Number_toString (Some (timeLeft / 60))).

Definition seconds (timeLeft : Z) : string :=
  padStart2 (Number_toString (Some (Z.rem timeLeft 60))).

(** Everything that can happen on the screen. *)
Inductive Event : Type :=
  | Tick
  | StartTimer
  | ToggleTimer
  | ResetTimer
  | ExpandPomodoro
  | CollapsePomodoro
  | MenuToggle (taskId : string)
  | OpenAddModal
  | OpenEditModal (task : Task)
  | CloseModal
  | Act (a : Action).

(** The render an event leads to: the state its handler leaves, before any
    effect has run.  For [Tick] that is the callback of the interval alone. *)
Definition render (LocalTZA : Z -> bool -> Z) (greater_than_zero : JSON -> bool)
    (persisted : bool) (e : Event) (p : Screen) : option Screen :=
  let on_state f := Some (mkScreen (f (state p)) (pomodoroCount p) (isPomodoroExpanded p)) in
  match e with
  | Tick => Some (interval_callback p)
  | StartTimer => Some (handleStartTimer p)
  | ToggleTimer => Some (toggleTimer p)
  | ResetTimer => Some (resetTimer p)
  | ExpandPomodoro =>
      Some (if isTimerActive (state p) then mkScreen (state p) (pomodoroCount p) true else p)
  | CollapsePomodoro => Some (mkScreen (state p) (pomodoroCount p) false)
  | MenuToggle taskId => on_state (handleMenuToggle taskId)
  | OpenAddModal => on_state openAddModal
  | OpenEditModal task => on_state (openEditModal task)
  | CloseModal => on_state closeModal
  | Act a =>
      match step LocalTZA greater_than_zero persisted a (state p) with
      | Some s' => Some (mkScreen s' (pomodoroCount p) (isPomodoroExpanded p))
      | None => None
      end
  end.

(** An event and the effect after its render: the state the screen settles
    in.  The effect runs after every render in which [timeLeft] or
    [timerMode] changed, and does nothing while [timeLeft] is above zero. *)
Definition handle (LocalTZA : Z -> bool -> Z) (greater_than_zero : JSON -> bool)
    (persisted : bool) (e : Event) (p : Screen) : option Screen :=
  option_map timeLeft_effect (render LocalTZA greater_than_zero persisted e p).

(** The timer shows a time left within its session. *)
Definition timer_ok (s : State) : Prop := 0 < timeLeft s <= duration (timerMode s).

(** The keys [sortTasks] looks at. *)
Definition same_keys (a b : Task) : Prop :=
  Task.id a = Task.id b /\ Task.completed a = Task.completed b
  /\ Task.importance a = Task.importance b /\ Task.dueDate a = Task.dueDate b.

(** The timer fields of a state. *)
Definition timer_of (s : State) : TimerMode * Z * bool :=
  (timerMode s, timeLeft s, isTimerActive s).

Definition other_mode (m : TimerMode) : TimerMode :=
  match m with
  | focus => break
  | break => focus
  end.

(** The identifiers of the tasks on the screen, in order. *)
Definition task_ids (s : State) : list string := map Task.id (tasks s).

(** The focused identifier, if any, is the identifier of a listed task:
    [focusedTask] finds it. *)
Definition focus_ok (s : State) : Prop :=
  match focusedTaskId s with
  | Some f => exists t, focusedTask s = Some t /\ Task.id t = f
  | None => True
  end.

(** [t'] is [t] with its subtasks in another order. *)
Definition subtasks_permuted (t t' : Task) : Prop :=
  t' = Task.with_subtasks (Task.subtasks t') t
  /\ match Task.subtasks t, Task.subtasks t' with
     | Some sts, Some sts' => Permutation sts sts'
     | None, None => True
     | _, _ => False
     end.

(** The text [YYYY-MM-DD] of a date given as a triple. *)
Definition date_text (x : Z * Z * Z) : string :=
  let '(y, m, d) := x in date_string y m d.

(** The day number of a date given as a triple. *)
Definition day_number (x : Z * Z * Z) : Z :=
  let '(y, m, d) := x in MakeDay y (m - 1) d.

(* ================================================================== *)
(** * The date picker *)

(** [a > b] on numbers: false as soon as one of them is [NaN]. *)
Definition num_gt (a b : num) : bool :=
  match a, b with
  | Some x, Some y => y <? x
  | _, _ => false
  end.

(** [a % b] on integers: the sign of the dividend, [NaN] for a zero divisor. *)
Definition num_rem (a b : Z) : num := if b =? 0 then NaN else Some (Z.rem a b).

(** [arr[i]] as a number: [undefined] outside the array reads as [NaN]. *)
Definition nth_num (l : list Z) (i : num) : num :=
  match i with
  | Some i => if i <? 0 then NaN else nth_error l (Z.to_nat i)
  | None => NaN
  end.

Inductive Wheel : Type := day_wheel | month_wheel | year_wheel.

Section Picker.

Variable LocalTZA : Z -> bool -> Z.




(** [new Date(year, month, date)]: local midnight; a year from 0 to 99 counts
    from 1900. *)
Definition Date_of_fields (year month date : num) : Date :=
  match year, month, date with
  | Some y, Some m, Some dt =>
      let yr := if (0 <=? y) && (y <=? 99) then 1900 + y else y in
      mkDate (TimeClip (UTC LocalTZA (MakeDate (MakeDay yr m dt) (MakeTime 0 0 0 0))))
  | _, _, _ => mkDate NaN
  end.


(** [new Date(y, m + 1, 0).getDate()]: the length of the month of a date. *)
Definition lastDayOfMonth (d : Date) : num :=
  getDate LocalTZA
    (Date_of_fields (getFullYear LocalTZA d) (num_add (getMonth LocalTZA d) (Some 1))
       (Some 0)).

(** The arrays behind the wheels: 41 years around the current one, the days
    of the month of the date the picker shows. *)
Definition originalYears (thisYear : Z) : list Z :=
  map (fun i => thisYear - 20 + i) (range 0 41).

Definition originalDays (pickerDate : Date) : list Z :=
  match lastDayOfMonth pickerDate with
  | Some daysInMonth => map (fun i => i + 1) (range 0 daysInMonth)
  | None => []
  end.


(** What the timer of [handleScroll] sets of the date, before the check
    against the length of the month.  [index] is the item the wheel stopped
    at, [rendered] the date the wheels were drawn for, [current] the date at
    the time of the update. *)
Definition scroll_set (type : Wheel) (index thisYear : Z) (rendered current : Date) : Date :=
  let length :=
    match type with
    | day_wheel => Z.of_nat (List.length (originalDays rendered))
    | month_wheel => 12
    | year_wheel => Z.of_nat (List.length (originalYears thisYear))
    end in
  let valIndex := num_rem index length in
  match type with
  | day_wheel => setDate LocalTZA current (nth_num (originalDays rendered) valIndex)
  | month_wheel => setMonth LocalTZA current valIndex
  | year_wheel => setFullYear LocalTZA current (nth_num (originalYears thisYear) valIndex)
  end.

(** The updater of [handleScroll]. *)
Definition scroll_update (type : Wheel) (index thisYear : Z) (rendered current : Date) : Date :=
  let newDate := scroll_set type index thisYear rendered current in
  let maxDays := lastDayOfMonth newDate in
  if num_gt (getDate LocalTZA newDate) maxDays then setDate LocalTZA newDate maxDays
  else newDate.



End Picker.

(** A time zone with one offset all year. *)
Definition fixed_offset (tz : Z) : Z -> bool -> Z := fun _ _ => tz.

(** The day before, as a relation. *)
Definition day_before (x x' : Z * Z * Z) : Prop := next_day x = x'.

(* ================================================================== *)
(** * The store of the shopping list *)

(** The object store [supermarket] of the database, key path [id]: its
    records, in the order of their keys.  A request that fails gives [None]. *)
Module Db.

Definition Store : Type := list ListItem.

Definition has (id : Z) (db : Store) : bool :=
  existsb (fun x => ListItem.id x =? id) db.

(** The record goes where its key belongs, in place of a record with the
    same key. *)
Fixpoint put (item : ListItem) (db : Store) : Store :=
  match db with
  | [] => [item]
  | x :: rest =>
      if ListItem.id item <? ListItem.id x then item :: db
      else if ListItem.id item =? ListItem.id x then item :: rest
      else x :: put item rest
  end.

(** [store.getAll()]. *)
Definition getItems (db : Store) : option (list ListItem) := Some db.

(** [store.add(item)]: fails when the key is taken. *)
Definition addItem (item : ListItem) (db : Store) : option Store :=
  if has (ListItem.id item) db then None else Some (put item db).

(** [store.put(item)]. *)
Definition updateItem (item : ListItem) (db : Store) : option Store := Some (put item db).

(** [store.delete(id)]. *)
Definition deleteItem (id : Z) (db : Store) : option Store :=
  Some (filter (fun x => negb (ListItem.id x =? id)) db).

(** [store.clear()]. *)
Definition clearAllItems (db : Store) : option Store := Some [].

End Db.

Module Shopping.

(** The comparator of the load effect: [(a, b) => b.id - a.id]. *)
Definition newest_first (a b : ListItem) : num := Some (ListItem.id b - ListItem.id a).

(** What the load effect puts on the screen: [dbItems.sort(...)]. *)
Definition load (dbItems : list ListItem) : list ListItem :=
  Array_sort newest_first dbItems.

(** The request a store call makes. *)
Definition request (c : Supermarket.StoreCall) (db : Db.Store) : option Db.Store :=
  match c with
  | Supermarket.addItem item => Db.addItem item db
  | Supermarket.updateItem item => Db.updateItem item db
  | Supermarket.deleteItem id => Db.deleteItem id db
  | Supermarket.clearAllItems => Db.clearAllItems db
  end.

(** The call a handler has added to the log, if it has. *)
Definition issued (before after : list Supermarket.StoreCall) : option Supermarket.StoreCall :=
  match after with
  | c :: rest =>
      if Nat.eqb (List.length rest) (List.length before) then Some c else None
  | [] => None
  end.

(** An action on the screen together with the store behind it: the call the
    handler makes is carried out on the store, and the handler goes on
    according to its outcome. *)
Definition perform (parseFloat : string -> number)
    (Number_prototype_toString : number -> string)
    (a : Supermarket.Action) (sdb : Supermarket.State * Db.Store)
    : Supermarket.State * Db.Store :=
  let (s, db) := sdb in
  let resolved := Supermarket.step parseFloat Number_prototype_toString true a s in
  match issued (Supermarket.calls s) (Supermarket.calls resolved) with
  | None => (resolved, db)
  | Some c =>
      match request c db with
      | Some db' => (resolved, db')
      | None => (Supermarket.step parseFloat Number_prototype_toString false a s, db)
      end
  end.

(** The screen shows what a reload would show, and the keys of the store
    are in order. *)
Definition mirrored (sdb : Supermarket.State * Db.Store) : Prop :=
  let (s, db) := sdb in
  Supermarket.items s = load db
  /\ StronglySorted (fun a b => ListItem.id a < ListItem.id b) db.

(** The item an action works on is one of the list, and a new item gets a
    later time stamp than every item there is. *)
Definition in_order (a : Supermarket.Action) (s : Supermarket.State) : Prop :=
  match a with
  | Supermarket.AddItem Date_now =>
      Forall (fun i => ListItem.id i < Date_now) (Supermarket.items s)
  | Supermarket.CheckmarkClick item =>
      In (ListItem.id item) (map ListItem.id (Supermarket.items s))
  | Supermarket.ModalConfirm =>
      match Supermarket.modalItem s with
      | Some modal => In (ListItem.id modal) (map ListItem.id (Supermarket.items s))
      | None => True
      end
  | _ => True
  end.

End Shopping.

(** The dash shown for a task without a due date. *)
Definition em_dash : string :=
  String (ascii_of_nat 226) (String (ascii_of_nat 128) (String (ascii_of_nat 148) EmptyString)).

(** The [day] of [getCardDate]. *)
Definition getCardDate_day (LocalTZA : Z -> bool -> Z) (dateString : option string) : string :=
  match truthy_string dateString with
  | None => em_dash
  | Some s =>
      let date := Date_of_string LocalTZA (s ++ "T12:00:00") in
      Number_toString (getDate LocalTZA date)
  end.

(** An item that is not ticked off carries no quantity, price or total. *)
Definition open_blank (i : ListItem) : Prop :=
  ListItem.completed i = false ->
  ListItem.quantity i = None /\ ListItem.unitPrice i = None /\ ListItem.totalPrice i = None.

(* ================================================================== *)
(** * More sample data *)

(** The form filled in for a new task. *)
Definition adding_milk : State := setForm None "buy milk" "" None false monthly rent_screen.

(** The pricing dialog of [bread] with a unit price of zero. *)
Definition free_bread : Supermarket.State :=
  Supermarket.mkState [Supermarket.bread] "" (Some Supermarket.bread) "3" "0" false [] O.

(** Midnight of 31 January 2024 in Brasilia. *)
Definition jan31 : Date := mkDate (Some (MakeDate (MakeDay 2024 0 31) 0 + 10800000)).

(** 29 February 2024 in Brasilia, at a quarter past nine in the evening. *)
Definition feb29_evening : Date :=
  mkDate (Some (MakeDate (MakeDay 2024 1 29) 76500000 + 10800000)).

(** The form holding three blanks. *)
Definition adding_blanks : State := setForm None "   " "" None false monthly rent_screen.

(** The running timer of [rent_screen] with one second left. *)
Definition last_second : Screen :=
  mkScreen (setIsTimerActive true (setTimer focus 1 rent_screen)) 0 true.

(** The form with a text typed between blanks. *)
Definition adding_padded : State :=
  setForm None "  buy milk " "" None false monthly rent_screen.
(* ================================================================== *)
(** * Calendar arithmetic *)

Ltac zdiv := Z.div_mod_to_equations; lia.

Lemma isLeapYear_cases (y : Z) :
  (isLeapYear y = true /\ y mod 4 = 0 /\ (y mod 100 <> 0 \/ y mod 400 = 0)) \/
  (isLeapYear y = false /\ (y mod 4 <> 0 \/ (y mod 100 = 0 /\ y mod 400 <> 0))).
Proof.
  unfold isLeapYear.
  destruct (Z.eqb_spec (y mod 4) 0), (Z.eqb_spec (y mod 100) 0),
    (Z.eqb_spec (y mod 400) 0); simpl; intuition lia.
Qed.

Lemma DayFromYear_succ (y : Z) :
  DayFromYear (y + 1) = DayFromYear y + DaysInYear y.
Proof.
  unfold DaysInYear, DayFromYear.
  destruct (isLeapYear_cases y) as [(-> & H4 & H)|(-> & H)]; zdiv.
Qed.

Lemma DaysInYear_pos (y : Z) : 365 <= DaysInYear y <= 366.
Proof. unfold DaysInYear; destruct (isLeapYear y); lia. Qed.

Lemma DayFromYear_mono (y y' : Z) : y <= y' -> DayFromYear y <= DayFromYear y'.
Proof. unfold DayFromYear; intros; zdiv. Qed.

Lemma YearFromTime_bounds (t : Z) :
  DayFromYear (YearFromTime t) <= Day t < DayFromYear (YearFromTime t + 1).
Proof.
  unfold YearFromTime.
  set (d := Day t). set (y := 1970 + 400 * d / 146097).
  assert (Hlo : DayFromYear (y - 1) <= d) by (unfold DayFromYear, y; zdiv).
  assert (Hhi : d < DayFromYear (y + 1 + 1)) by (unfold DayFromYear, y; zdiv).
  destruct (Z.ltb_spec d (DayFromYear y)).
  - replace (y - 1 + 1) with y by lia. lia.
  - destruct (Z.leb_spec (DayFromYear (y + 1)) d); lia.
Qed.

Lemma YearFromTime_unique (t y : Z) :
  DayFromYear y <= Day t < DayFromYear (y + 1) -> YearFromTime t = y.
Proof.
  intros H. pose proof (YearFromTime_bounds t) as B.
  set (Y := YearFromTime t) in *.
  destruct (Z.lt_trichotomy Y y) as [L|[E|G]]; [|exact E|].
  - pose proof (DayFromYear_mono (Y + 1) y ltac:(lia)). lia.
  - pose proof (DayFromYear_mono (y + 1) Y ltac:(lia)). lia.
Qed.

Lemma month_cases (m : Z) :
  1 <= m <= 12 ->
  m = 1 \/ m = 2 \/ m = 3 \/ m = 4 \/ m = 5 \/ m = 6 \/
  m = 7 \/ m = 8 \/ m = 9 \/ m = 10 \/ m = 11 \/ m = 12.
Proof. lia. Qed.

Ltac each_month Hm :=
  apply month_cases in Hm;
  repeat (destruct Hm as [Hm|Hm]); subst.

Lemma Day_MakeDate (day time : Z) :
  0 <= time < msPerDay -> Day (MakeDate day time) = day.
Proof. unfold Day, MakeDate, msPerDay; intros; zdiv. Qed.

Lemma TimeWithinDay_MakeDate (day time : Z) :
  0 <= time < msPerDay -> TimeWithinDay (MakeDate day time) = time.
Proof. unfold TimeWithinDay, MakeDate, msPerDay; intros; zdiv. Qed.

(** [MakeDay] of a month in range is the start of the year plus the days
    before the month. *)
Lemma MakeDay_in_year (y m d : Z) :
  1 <= m <= 12 ->
  MakeDay y (m - 1) d =
  DayFromYear y + daysBeforeMonth (m - 1) (if isLeapYear y then 1 else 0) + d - 1.
Proof.
  intros Hm. unfold MakeDay.
  replace ((m - 1) / 12) with 0 by zdiv.
  replace ((m - 1) mod 12) with (m - 1) by zdiv.
  now rewrite Z.add_0_r.
Qed.

Lemma MakeDay_date_shift (y m d k : Z) : MakeDay y m (d + k) = MakeDay y m d + k.
Proof. unfold MakeDay; lia. Qed.

Ltac calendar L := cbn in *; rewrite ?L in *; cbn in *.

Lemma forallb_range (P : Z -> bool) (lo n : Z) :
  forallb P (range lo n) = true -> forall z, lo <= z < lo + n -> P z = true.
Proof.
  intros H z Hz. rewrite forallb_forall in H. apply H.
  apply in_map_iff. exists (Z.to_nat (z - lo)). split; [lia|].
  apply in_seq. lia.
Qed.

Lemma monthLength_bounds (leap : bool) (m : Z) : 28 <= monthLength leap m <= 31.
Proof.
  unfold monthLength. destruct leap.
  all: destruct m as [|p|p]; try lia.
  all: do 4 (try destruct p as [p|p|]; try lia).
Qed.

(** Every day of every month lies in its year and is given back its month. *)
Lemma yearday_of_date (leap : bool) (m day : Z) :
  1 <= m <= 12 -> 1 <= day <= monthLength leap m ->
  let l := if leap then 1 else 0 in
  let d := daysBeforeMonth (m - 1) l + day - 1 in
  0 <= d < 365 + l /\ monthOfYearDay d l = m - 1.
Proof.
  intros Hm Hd l d. pose proof (monthLength_bounds leap m).
  assert (T : forallb (fun m =>
                forallb (fun day =>
                  let l := if leap then 1 else 0 in
                  let d := daysBeforeMonth (m - 1) l + day - 1 in
                  negb (day <=? monthLength leap m)
                  || ((0 <=? d) && (d <? 365 + l) && (monthOfYearDay d l =? m - 1)))
                  (range 1 31))
                (range 1 12) = true)
    by (destruct leap; vm_compute; reflexivity).
  pose proof (forallb_range _ _ _ (forallb_range _ _ _ T m ltac:(lia)) day ltac:(lia)) as C.
  cbv beta zeta in C. fold l in C. fold d in C.
  destruct (Z.leb_spec day (monthLength leap m)); [|lia]. cbn [negb orb] in C.
  apply andb_prop in C. destruct C as [C C3]. apply andb_prop in C. destruct C as [C1 C2].
  apply Z.leb_le in C1. apply Z.ltb_lt in C2. apply Z.eqb_eq in C3. auto.
Qed.

(** Every day of a year falls in a month, on one of its days. *)
Lemma date_of_yearday (leap : bool) (d : Z) :
  let l := if leap then 1 else 0 in
  0 <= d < 365 + l ->
  0 <= monthOfYearDay d l <= 11
  /\ 1 <= d - daysBeforeMonth (monthOfYearDay d l) l + 1
     <= monthLength leap (monthOfYearDay d l + 1).
Proof.
  intros l Hd.
  assert (T : forallb (fun d =>
                let l := if leap then 1 else 0 in
                let m := monthOfYearDay d l in
                negb (d <? 365 + l)
                || ((0 <=? m) && (m <=? 11) && (1 <=? d - daysBeforeMonth m l + 1)
                    && (d - daysBeforeMonth m l + 1 <=? monthLength leap (m + 1))))
                (range 0 366) = true)
    by (destruct leap; vm_compute; reflexivity).
  pose proof (forallb_range _ _ _ T d ltac:(subst l; destruct leap; lia)) as C.
  cbv beta zeta in C. fold l in C.
  destruct (Z.ltb_spec d (365 + l)); [|lia]. cbn [negb orb] in C.
  repeat (apply andb_prop in C; destruct C as [C ?]).
  repeat match goal with
         | H : (_ <=? _) = true |- _ => apply Z.leb_le in H
         end.
  auto.
Qed.

(** The fields of a time value built from a calendar date are that date. *)
Lemma fields_of_MakeDate (y m d time : Z) :
  1 <= m <= 12 -> 1 <= d <= daysInMonth y m -> 0 <= time < msPerDay ->
  let t := MakeDate (MakeDay y (m - 1) d) time in
  YearFromTime t = y /\ MonthFromTime t = m - 1 /\ DateFromTime t = d.
Proof.
  intros Hm Hd Ht t.
  assert (HD : Day t = MakeDay y (m - 1) d) by (apply Day_MakeDate; exact Ht).
  rewrite (MakeDay_in_year _ _ _ Hm) in HD. clearbody t.
  destruct (yearday_of_date (isLeapYear y) m d Hm Hd) as [R M].
  assert (HY : YearFromTime t = y).
  { apply YearFromTime_unique. rewrite HD, DayFromYear_succ. unfold DaysInYear.
    destruct (isLeapYear y); lia. }
  assert (HM : MonthFromTime t = m - 1).
  { unfold MonthFromTime, DayWithinYear, InLeapYear. rewrite HY, HD.
    cbv zeta in M.
    replace (DayFromYear y + daysBeforeMonth (m - 1) (if isLeapYear y then 1 else 0)
             + d - 1 - DayFromYear y)
      with (daysBeforeMonth (m - 1) (if isLeapYear y then 1 else 0) + d - 1) by lia.
    exact M. }
  split; [exact HY|]. split; [exact HM|].
  unfold DateFromTime. rewrite HM. unfold DayWithinYear, InLeapYear. rewrite HY, HD. lia.
Qed.

Lemma valid_next_day (y m d : Z) :
  1 <= m <= 12 -> 1 <= d <= daysInMonth y m ->
  let '(y', m', d') := next_day (y, m, d) in
  1 <= m' <= 12 /\ 1 <= d' <= daysInMonth y' m' /\
  MakeDay y (m - 1) (d + 1) = MakeDay y' (m' - 1) d'.
Proof.
  intros Hm Hd. unfold next_day.
  destruct (Z.ltb_spec d (daysInMonth y m)); [lia|].
  destruct (Z.ltb_spec m 12).
  - assert (1 <= m + 1 <= 12) by lia.
    rewrite !MakeDay_in_year by lia.
    replace (m + 1 - 1) with m by lia.
    destruct (isLeapYear y) eqn:L; each_month Hm; calendar L; lia.
  - assert (m = 12) by lia; subst.
    rewrite !MakeDay_in_year by lia. rewrite DayFromYear_succ. unfold DaysInYear.
    destruct (isLeapYear y), (isLeapYear (y + 1)); cbn in *; lia.
Qed.

Lemma valid_add_days (n : nat) (y m d : Z) :
  1 <= m <= 12 -> 1 <= d <= daysInMonth y m ->
  let '(y', m', d') := add_days n (y, m, d) in
  1 <= m' <= 12 /\ 1 <= d' <= daysInMonth y' m' /\
  MakeDay y (m - 1) (d + Z.of_nat n) = MakeDay y' (m' - 1) d'.
Proof.
  revert y m d. induction n as [|n IH]; intros y m d Hm Hd.
  - simpl. rewrite Z.add_0_r. auto.
  - cbn [add_days].
    pose proof (valid_next_day y m d Hm Hd) as N.
    destruct (next_day (y, m, d)) as [[y1 m1] d1]. destruct N as (Hm1 & Hd1 & E).
    specialize (IH y1 m1 d1 Hm1 Hd1).
    destruct (add_days n (y1, m1, d1)) as [[y2 m2] d2]. destruct IH as (? & ? & E2).
    repeat split; try lia.
    rewrite <- E2, (MakeDay_date_shift y1), <- E, <- MakeDay_date_shift. f_equal. lia.
Qed.

Lemma daysInMonth_bounds (y m : Z) : 28 <= daysInMonth y m <= 31.
Proof. apply monthLength_bounds. Qed.

Lemma valid_month_overflow (y m d : Z) :
  1 <= m <= 12 -> 1 <= d <= 31 ->
  let '(y', m', d') := month_overflow (y, m, d) in
  1 <= m' <= 12 /\ 1 <= d' <= daysInMonth y' m' /\
  MakeDay y (m - 1) d = MakeDay y' (m' - 1) d'.
Proof.
  intros Hm Hd. unfold month_overflow.
  destruct (Z.leb_spec d (daysInMonth y m)); [lia|].
  assert (m <> 12) by (intros ->; simpl in *; lia).
  assert (1 <= m + 1 <= 12) by lia.
  rewrite !MakeDay_in_year by lia. replace (m + 1 - 1) with m by lia.
  destruct (isLeapYear y) eqn:L; each_month Hm; calendar L; lia.
Qed.

Lemma MakeDay_month_carry (y d : Z) : MakeDay y 12 d = MakeDay (y + 1) 0 d.
Proof.
  unfold MakeDay.
  change (12 / 12) with 1. change (12 mod 12) with 0.
  change (0 / 12) with 0. change (0 mod 12) with 0.
  now rewrite !Z.add_0_r.
Qed.

Lemma valid_add_month (y m d : Z) :
  1 <= m <= 12 -> 1 <= d <= daysInMonth y m ->
  let '(y', m', d') := add_month (y, m, d) in
  1 <= m' <= 12 /\ 1 <= d' <= daysInMonth y' m' /\
  MakeDay y (m - 1 + 1) d = MakeDay y' (m' - 1) d'.
Proof.
  intros Hm Hd. pose proof (daysInMonth_bounds y m). unfold add_month.
  destruct (Z.eqb_spec m 12) as [->|N].
  - pose proof (valid_month_overflow (y + 1) 1 d ltac:(lia) ltac:(lia)) as V.
    destruct (month_overflow (y + 1, 1, d)) as [[y' m'] d'].
    destruct V as (? & ? & E). rewrite <- E.
    repeat split; try lia. apply MakeDay_month_carry.
  - pose proof (valid_month_overflow y (m + 1) d ltac:(lia) ltac:(lia)) as V.
    destruct (month_overflow (y, m + 1, d)) as [[y' m'] d'].
    destruct V as (? & ? & E). rewrite <- E.
    repeat split; try lia. f_equal; lia.
Qed.

Lemma valid_add_year (y m d : Z) :
  1 <= m <= 12 -> 1 <= d <= daysInMonth y m ->
  let '(y', m', d') := add_year (y, m, d) in
  1 <= m' <= 12 /\ 1 <= d' <= daysInMonth y' m' /\
  MakeDay (y + 1) (m - 1) d = MakeDay y' (m' - 1) d'.
Proof.
  intros Hm Hd. pose proof (daysInMonth_bounds y m). unfold add_year.
  apply valid_month_overflow; lia.
Qed.

(* ------------------------------------------------------------------ *)
(** ** Reading a date string *)

Lemma digit_val_digit_char (k : Z) : 0 <= k <= 9 -> digit_val (digit_char k) = Some k.
Proof.
  intros H.
  assert (C : k = 0 \/ k = 1 \/ k = 2 \/ k = 3 \/ k = 4 \/ k = 5 \/ k = 6 \/ k = 7
              \/ k = 8 \/ k = 9) by lia.
  repeat (destruct C as [C|C]); subst; reflexivity.
Qed.

Lemma number_of_2 (a b : Z) :
  0 <= a <= 9 -> 0 <= b <= 9 ->
  number_of [digit_char a; digit_char b] = Some (10 * a + b).
Proof.
  intros. unfold number_of. cbn [digits_val].
  rewrite !digit_val_digit_char by assumption. f_equal; lia.
Qed.

Lemma number_of_4 (a b c e : Z) :
  0 <= a <= 9 -> 0 <= b <= 9 -> 0 <= c <= 9 -> 0 <= e <= 9 ->
  number_of [digit_char a; digit_char b; digit_char c; digit_char e]
  = Some (1000 * a + 100 * b + 10 * c + e).
Proof.
  intros. unfold number_of. cbn [digits_val].
  rewrite !digit_val_digit_char by assumption. f_equal; lia.
Qed.

Lemma parse_ymd_date_string (y m d : Z) :
  0 <= y <= 9999 -> 1 <= m <= 12 -> 1 <= d <= 31 ->
  parse_ymd (digit_char (y / 1000)) (digit_char (y / 100 mod 10))
    (digit_char (y / 10 mod 10)) (digit_char (y mod 10)) "-"
    (digit_char (m / 10)) (digit_char (m mod 10)) "-"
    (digit_char (d / 10)) (digit_char (d mod 10))
  = Some (y, m, d).
Proof.
  intros Hy Hm Hd. unfold parse_ymd.
  change (is_char "-" "-") with true. cbn [andb].
  rewrite number_of_4, !number_of_2 by zdiv.
  replace (1000 * (y / 1000) + 100 * (y / 100 mod 10) + 10 * (y / 10 mod 10) + y mod 10)
    with y by zdiv.
  replace (10 * (m / 10) + m mod 10) with m by zdiv.
  replace (10 * (d / 10) + d mod 10) with d by zdiv.
  destruct (Z.leb_spec 1 m), (Z.leb_spec m 12), (Z.leb_spec 1 d), (Z.leb_spec d 31);
    try lia. reflexivity.
Qed.

Lemma parse_date_string_midday (y m d : Z) :
  0 <= y <= 9999 -> 1 <= m <= 12 -> 1 <= d <= 31 ->
  parse_date_string (date_string y m d ++ "T12:00:00")
  = DateTimeLocal (MakeDay y (m - 1) d) midday.
Proof.
  intros Hy Hm Hd. unfold parse_date_string, date_string.
  cbn [append list_ascii_of_string].
  change (is_char "T" "T") with true. cbv iota.
  rewrite parse_ymd_date_string by assumption. reflexivity.
Qed.

Lemma parse_date_string_date_only (y m d : Z) :
  0 <= y <= 9999 -> 1 <= m <= 12 -> 1 <= d <= 31 ->
  parse_date_string (date_string y m d) = DateOnly (MakeDay y (m - 1) d).
Proof.
  intros Hy Hm Hd. unfold parse_date_string, date_string.
  cbn [list_ascii_of_string].
  rewrite parse_ymd_date_string by assumption. reflexivity.
Qed.

(* ------------------------------------------------------------------ *)
(** ** Dates at local noon *)

Lemma daysBeforeMonth_bounds (k l : Z) :
  0 <= l <= 1 -> 0 <= daysBeforeMonth k l <= 335.
Proof.
  intros. unfold daysBeforeMonth.
  destruct k as [|p|p]; try lia.
  do 4 (try destruct p as [p|p|]; try lia).
Qed.

(** Time values of the years this program meets are far inside the range of
    [TimeClip], with a day to spare for the offset. *)
Lemma noon_in_range (y m d : Z) :
  -1 <= y <= 10001 -> 0 <= m <= 12 -> 0 <= d <= 40 ->
  Z.abs (MakeDate (MakeDay y m d) midday) <= 8640000000000000 - msPerDay.
Proof.
  intros Hy Hm Hd. unfold MakeDate, MakeDay, midday, msPerDay, msPerHour.
  assert (0 <= m / 12 <= 1) by zdiv.
  pose proof (daysBeforeMonth_bounds (m mod 12)
                (if isLeapYear (y + m / 12) then 1 else 0)
                ltac:(destruct (isLeapYear _); lia)).
  pose proof (DayFromYear_mono (-1) (y + m / 12) ltac:(lia)).
  pose proof (DayFromYear_mono (y + m / 12) 10002 ltac:(lia)).
  change (DayFromYear (-1)) with (-719893) in *.
  change (DayFromYear 10002) with 2933628 in *.
  lia.
Qed.

Section Noon.

Variable LocalTZA : Z -> bool -> Z.
Hypothesis Stable : midday_stable LocalTZA.

Lemma TimeWithinDay_noon (day : Z) : TimeWithinDay (MakeDate day midday) = midday.
Proof. apply TimeWithinDay_MakeDate. unfold midday, msPerDay, msPerHour. lia. Qed.

Lemma LocalTime_UTC_noon (day : Z) :
  LocalTime LocalTZA (UTC LocalTZA (MakeDate day midday)) = MakeDate day midday.
Proof.
  destruct Stable as [_ H]. unfold LocalTime.
  rewrite (H _ (TimeWithinDay_noon day)). unfold UTC. lia.
Qed.

Lemma TimeClip_UTC_noon (y m d : Z) :
  -1 <= y <= 10001 -> 0 <= m <= 12 -> 0 <= d <= 40 ->
  TimeClip (UTC LocalTZA (MakeDate (MakeDay y m d) midday))
  = Some (UTC LocalTZA (MakeDate (MakeDay y m d) midday)).
Proof.
  intros Hy Hm Hd. pose proof (noon_in_range y m d Hy Hm Hd) as R.
  destruct Stable as [B _]. unfold TimeClip, UTC in *.
  specialize (B (MakeDate (MakeDay y m d) midday) false).
  destruct (Z.leb_spec (Z.abs (MakeDate (MakeDay y m d) midday
                               - LocalTZA (MakeDate (MakeDay y m d) midday) false))
              8640000000000000); [reflexivity|].
  unfold msPerDay in *. lia.
Qed.

Lemma Date_of_string_midday (y m d : Z) :
  0 <= y <= 9999 -> 1 <= m <= 12 -> 1 <= d <= 31 ->
  Date_of_string LocalTZA (date_string y m d ++ "T12:00:00") = Date_at LocalTZA y m d.
Proof.
  intros Hy Hm Hd. unfold Date_of_string, Date_at, noon_of.
  rewrite parse_date_string_midday by assumption.
  rewrite TimeClip_UTC_noon by lia. reflexivity.
Qed.

(** The local calendar fields of a date at noon. *)
Lemma getters_Date_at (y m d : Z) :
  1 <= m <= 12 -> 1 <= d <= daysInMonth y m ->
  getFullYear LocalTZA (Date_at LocalTZA y m d) = Some y /\
  getMonth LocalTZA (Date_at LocalTZA y m d) = Some (m - 1) /\
  getDate LocalTZA (Date_at LocalTZA y m d) = Some d.
Proof.
  intros Hm Hd. unfold getFullYear, getMonth, getDate, Date_at, noon_of. cbn [tv].
  rewrite LocalTime_UTC_noon.
  assert (Ht : 0 <= midday < msPerDay) by (unfold midday, msPerDay, msPerHour; lia).
  destruct (fields_of_MakeDate y m d midday Hm Hd Ht) as (-> & -> & ->). auto.
Qed.

(** Setting calendar fields of a date at noon gives the date at noon of the
    day [MakeDay] names. *)
Lemma setters_Date_at (y m d y' m' d' : Z) :
  1 <= m <= 12 -> 1 <= d <= daysInMonth y m -> -1 <= y' <= 10001 ->
  0 <= m' <= 12 -> 0 <= d' <= 40 ->
  let after := mkDate (Some (UTC LocalTZA (MakeDate (MakeDay y' m' d') midday))) in
  (y' = y -> m' = m - 1 -> setDate LocalTZA (Date_at LocalTZA y m d) (Some d') = after) /\
  (y' = y -> d' = d -> setMonth LocalTZA (Date_at LocalTZA y m d) (Some m') = after) /\
  (m' = m - 1 -> d' = d -> setFullYear LocalTZA (Date_at LocalTZA y m d) (Some y') = after).
Proof.
  intros Hm Hd Hy' Hm' Hd' after.
  assert (Ht : 0 <= midday < msPerDay) by (unfold midday, msPerDay, msPerHour; lia).
  destruct (fields_of_MakeDate y m d midday Hm Hd Ht) as (EY & EM & ED).
  unfold setDate, setMonth, setFullYear, Date_at, noon_of. cbn [tv].
  rewrite LocalTime_UTC_noon, EY, EM, ED, TimeWithinDay_noon.
  repeat split; intros; subst; subst after; rewrite TimeClip_UTC_noon; auto; lia.
Qed.

Lemma render_Date_at (y m d : Z) :
  1 <= m <= 12 -> 1 <= d <= daysInMonth y m ->
  let date := Date_at LocalTZA y m d in
  Number_toString (getFullYear LocalTZA date) ++ "-"
  ++ padStart2 (Number_toString (num_add (getMonth LocalTZA date) (Some 1))) ++ "-"
  ++ padStart2 (Number_toString (getDate LocalTZA date))
  = year_month_day (y, m, d).
Proof.
  intros Hm Hd date. subst date.
  destruct (getters_Date_at y m d Hm Hd) as (-> & -> & ->).
  unfold year_month_day, num_add. now replace (m - 1 + 1) with m by lia.
Qed.

(** The source, on the text of a calendar date, computes [nextOccurrence]. *)
Lemma calculateNextDueDate_nextOccurrence (y m d : Z) (f : RecurrenceFrequency) :
  valid_date y m d ->
  calculateNextDueDate LocalTZA (date_string y m d) f
  = year_month_day (nextOccurrence f (y, m, d)).
Proof.
  intros (Hy & Hm & Hd). pose proof (daysInMonth_bounds y m) as Bd.
  unfold calculateNextDueDate.
  rewrite Date_of_string_midday by lia.
  destruct (getters_Date_at y m d Hm Hd) as (GY & GM & GD).
  destruct f; cbn [nextOccurrence]; rewrite ?GY, ?GM, ?GD; cbn [num_add].
  - pose proof (valid_add_days 1 y m d Hm Hd) as V.
    destruct (add_days 1 (y, m, d)) as [[y1 m1] d1]. destruct V as (Hm1 & Hd1 & E).
    destruct (setters_Date_at y m d y (m - 1) (d + 1)) as (S & _); try lia.
    rewrite S by reflexivity. change (Z.of_nat 1) with 1 in E. rewrite E.
    now apply render_Date_at.
  - pose proof (valid_add_days 7 y m d Hm Hd) as V.
    destruct (add_days 7 (y, m, d)) as [[y1 m1] d1]. destruct V as (Hm1 & Hd1 & E).
    destruct (setters_Date_at y m d y (m - 1) (d + 7)) as (S & _); try lia.
    rewrite S by reflexivity. change (Z.of_nat 7) with 7 in E. rewrite E.
    now apply render_Date_at.
  - pose proof (valid_add_month y m d Hm Hd) as V.
    destruct (add_month (y, m, d)) as [[y1 m1] d1]. destruct V as (Hm1 & Hd1 & E).
    destruct (setters_Date_at y m d y (m - 1 + 1) d) as (_ & S & _); try lia.
    rewrite S by reflexivity. rewrite E.
    now apply render_Date_at.
  - pose proof (valid_add_year y m d Hm Hd) as V.
    destruct (add_year (y, m, d)) as [[y1 m1] d1]. destruct V as (Hm1 & Hd1 & E).
    destruct (setters_Date_at y m d (y + 1) (m - 1) d) as (_ & _ & S); try lia.
    rewrite S by reflexivity. rewrite E.
    now apply render_Date_at.
Qed.

End Noon.

(* ------------------------------------------------------------------ *)
(** ** The text of the result *)

Lemma digits_of_last (fuel : nat) (n : Z) (acc : string) :
  n < 10 -> digits_of fuel n acc = String (digit_char (n mod 10)) acc.
Proof.
  intros H. destruct fuel; cbn [digits_of]; [reflexivity|].
  destruct (Z.ltb_spec n 10); [reflexivity|lia].
Qed.

Lemma digits_of_more (fuel : nat) (n : Z) (acc : string) :
  10 <= n ->
  digits_of (S fuel) n acc = digits_of fuel (n / 10) (String (digit_char (n mod 10)) acc).
Proof.
  intros H. cbn [digits_of]. destruct (Z.ltb_spec n 10); [lia|reflexivity].
Qed.

(** [Number_toString] never runs out of fuel: more fuel changes nothing. *)
Lemma digits_of_enough (fuel extra : nat) (n : Z) (acc : string) :
  0 <= n < 2 ^ (Z.of_nat fuel + 1) ->
  digits_of (fuel + extra) n acc = digits_of fuel n acc.
Proof.
  revert n acc. induction fuel as [|fuel IH]; intros n acc H.
  - change (2 ^ (Z.of_nat 0 + 1)) with 2 in H. now rewrite !digits_of_last by lia.
  - cbn [Nat.add digits_of]. destruct (Z.ltb_spec n 10); [reflexivity|].
    apply IH. rewrite Nat2Z.inj_succ in H.
    replace (Z.succ (Z.of_nat fuel) + 1) with (Z.succ (Z.of_nat fuel + 1)) in H by lia.
    rewrite Z.pow_succ_r in H by lia. zdiv.
Qed.

Lemma Number_toString_fuel (z : Z) (extra : nat) :
  0 <= z ->
  digits_of (Z.to_nat (Z.log2 z) + extra) z EmptyString = Number_toString (Some z).
Proof.
  intros H. unfold Number_toString. destruct (Z.ltb_spec z 0); [lia|].
  apply digits_of_enough. rewrite Z2Nat.id by apply Z.log2_nonneg.
  destruct (Z.eq_dec z 0) as [->|N]; [cbn; lia|].
  pose proof (Z.log2_spec z ltac:(lia)). replace (Z.log2 z + 1) with (Z.succ (Z.log2 z)) by lia.
  lia.
Qed.

(** Enough fuel for a number of [k + 1] digits. *)
Lemma fuel_of (n lo : Z) (k : nat) :
  0 < lo <= n -> Z.of_nat k <= Z.log2 lo -> exists f, Z.to_nat (Z.log2 n) = (k + f)%nat.
Proof.
  intros H K. pose proof (Z.log2_le_mono lo n ltac:(lia)).
  exists (Z.to_nat (Z.log2 n) - k)%nat. lia.
Qed.

Lemma Number_toString_1 (y : Z) :
  0 <= y <= 9 -> Number_toString (Some y) = String (digit_char y) EmptyString.
Proof.
  intros H. unfold Number_toString. destruct (Z.ltb_spec y 0); [lia|].
  rewrite digits_of_last by lia. now replace (y mod 10) with y by zdiv.
Qed.

Lemma Number_toString_2 (y : Z) :
  10 <= y <= 99 ->
  Number_toString (Some y)
  = String (digit_char (y / 10)) (String (digit_char (y mod 10)) EmptyString).
Proof.
  intros H. unfold Number_toString. destruct (Z.ltb_spec y 0); [lia|].
  destruct (fuel_of y 10 1) as [f ->]; [lia|cbn; lia|]. cbn [Nat.add].
  rewrite digits_of_more, digits_of_last by zdiv.
  now replace (y / 10 mod 10) with (y / 10) by zdiv.
Qed.

Lemma Number_toString_3 (y : Z) :
  100 <= y <= 999 ->
  Number_toString (Some y)
  = String (digit_char (y / 100)) (String (digit_char (y / 10 mod 10))
      (String (digit_char (y mod 10)) EmptyString)).
Proof.
  intros H. unfold Number_toString. destruct (Z.ltb_spec y 0); [lia|].
  destruct (fuel_of y 100 2) as [f ->]; [lia|cbn; lia|]. cbn [Nat.add].
  rewrite !digits_of_more, digits_of_last by zdiv.
  now replace (y / 10 / 10 mod 10) with (y / 100) by zdiv.
Qed.

Lemma Number_toString_4 (y : Z) :
  1000 <= y <= 9999 ->
  Number_toString (Some y)
  = String (digit_char (y / 1000)) (String (digit_char (y / 100 mod 10))
      (String (digit_char (y / 10 mod 10)) (String (digit_char (y mod 10)) EmptyString))).
Proof.
  intros H. unfold Number_toString. destruct (Z.ltb_spec y 0); [lia|].
  destruct (fuel_of y 1000 3) as [f ->]; [lia|cbn; lia|]. cbn [Nat.add].
  rewrite !digits_of_more, digits_of_last by zdiv.
  replace (y / 10 / 10 / 10 mod 10) with (y / 1000) by zdiv.
  now replace (y / 10 / 10 mod 10) with (y / 100 mod 10) by zdiv.
Qed.

Lemma padStart2_Number_toString (k : Z) :
  0 <= k <= 99 ->
  padStart2 (Number_toString (Some k))
  = String (digit_char (k / 10)) (String (digit_char (k mod 10)) EmptyString).
Proof.
  intros H. destruct (Z.le_gt_cases k 9).
  - rewrite Number_toString_1 by lia.
    replace (k / 10) with 0 by zdiv. now replace (k mod 10) with k by zdiv.
  - now rewrite Number_toString_2 by lia.
Qed.

Lemma year_month_day_date_string (y m d : Z) :
  1000 <= y <= 9999 -> 1 <= m <= 12 -> 1 <= d <= 31 ->
  year_month_day (y, m, d) = date_string y m d.
Proof.
  intros Hy Hm Hd. unfold year_month_day, date_string.
  rewrite Number_toString_4, !padStart2_Number_toString by lia. reflexivity.
Qed.

Lemma valid_nextOccurrence (f : RecurrenceFrequency) (y m d : Z) :
  1 <= m <= 12 -> 1 <= d <= daysInMonth y m ->
  let '(y', m', d') := nextOccurrence f (y, m, d) in
  1 <= m' <= 12 /\ 1 <= d' <= daysInMonth y' m'.
Proof.
  intros Hm Hd. destruct f; cbn [nextOccurrence].
  - pose proof (valid_add_days 1 y m d Hm Hd) as V.
    destruct (add_days 1 (y, m, d)) as [[? ?] ?]. tauto.
  - pose proof (valid_add_days 7 y m d Hm Hd) as V.
    destruct (add_days 7 (y, m, d)) as [[? ?] ?]. tauto.
  - pose proof (valid_add_month y m d Hm Hd) as V.
    destruct (add_month (y, m, d)) as [[? ?] ?]. tauto.
  - pose proof (valid_add_year y m d Hm Hd) as V.
    destruct (add_year (y, m, d)) as [[? ?] ?]. tauto.
Qed.

Lemma midday_stable_Brasilia : midday_stable Brasilia.
Proof.
  split.
  - intros t b. unfold Brasilia, msPerDay. lia.
  - intros t _. reflexivity.
Defined.

(** C2, as the code has it.  On the text [YYYY-MM-DD] of any calendar date, and in
    any time zone whose offset is steady at local noon, [calculateNextDueDate]
    returns the date one day later for [daily], seven days later for
    [weekly], one calendar month later for [monthly] and one calendar year
    later for [yearly], a day past the end of the target month running on
    into the next month; the result is a calendar date again, written as
    year, month and day with month and day padded to two digits and the year
    as a plain decimal, which is the text [YYYY-MM-DD] whenever the resulting
    year has four digits; and the two literal examples of the specification
    hold. *)
Theorem calculateNextDueDate_calendar (LocalTZA : Z -> bool -> Z)
    (y m d : Z) (f : RecurrenceFrequency) :
  midday_stable LocalTZA ->
  valid_date y m d ->
  calculateNextDueDate LocalTZA (date_string y m d) f
  = year_month_day (nextOccurrence f (y, m, d))
  /\ (let '(y', m', d') := nextOccurrence f (y, m, d) in
      1 <= m' <= 12 /\ 1 <= d' <= daysInMonth y' m' /\
      (1000 <= y' <= 9999 -> year_month_day (y', m', d') = date_string y' m' d'))
  /\ calculateNextDueDate LocalTZA "2024-01-15" monthly = "2024-02-15"
  /\ calculateNextDueDate LocalTZA "2024-12-31" daily = "2025-01-01".
Proof.
  intros Stable V. split; [|split; [|split]].
  - now apply calculateNextDueDate_nextOccurrence.
  - destruct V as (Hy & Hm & Hd).
    pose proof (valid_nextOccurrence f y m d Hm Hd) as N.
    destruct (nextOccurrence f (y, m, d)) as [[y' m'] d'].
    destruct N as (Hm' & Hd'). repeat split; try lia.
    intros Hy'. pose proof (daysInMonth_bounds y' m').
    apply year_month_day_date_string; lia.
  - change "2024-01-15" with (date_string 2024 1 15).
    rewrite (calculateNextDueDate_nextOccurrence LocalTZA Stable 2024 1 15 monthly).
    + reflexivity.
    + unfold valid_date. cbn. lia.
  - change "2024-12-31" with (date_string 2024 12 31).
    rewrite (calculateNextDueDate_nextOccurrence LocalTZA Stable 2024 12 31 daily).
    + reflexivity.
    + unfold valid_date. cbn. lia.
Qed.

Lemma calculateNextDueDate_calendar_witness :
  midday_stable Brasilia /\ valid_date 2024 1 31 /\
  calculateNextDueDate Brasilia "2024-01-31" monthly = "2024-03-02".
Proof.
  assert (V : valid_date 2024 1 31) by (unfold valid_date; cbn; lia).
  split; [exact midday_stable_Brasilia | split; [exact V|]].
  exact (proj1 (calculateNextDueDate_calendar Brasilia 2024 1 31 monthly
                  midday_stable_Brasilia V)).
Defined.

(** C2, counterexample.  The year is not padded: on the text of 15 January of
    the year 500 the monthly advance returns a text of nine characters, which
    is not the text [YYYY-MM-DD] of 15 February 500; and the day after 31
    December 9999 comes out with a year of five digits. *)
Lemma calculateNextDueDate_year_not_padded :
  valid_date 500 1 15
  /\ date_string 500 1 15 = "0500-01-15"
  /\ nextOccurrence monthly (500, 1, 15) = (500, 2, 15)
  /\ date_string 500 2 15 = "0500-02-15"
  /\ calculateNextDueDate Brasilia "0500-01-15" monthly = "500-02-15"
  /\ calculateNextDueDate Brasilia "0500-01-15" monthly
     <> date_text (nextOccurrence monthly (500, 1, 15))
  /\ calculateNextDueDate Brasilia "9999-12-31" daily = "10000-01-01".
Proof.
  assert (V : valid_date 500 1 15) by (unfold valid_date; cbn; lia).
  assert (W : valid_date 9999 12 31) by (unfold valid_date; cbn; lia).
  assert (E : calculateNextDueDate Brasilia "0500-01-15" monthly = "500-02-15").
  { change "0500-01-15" with (date_string 500 1 15).
    now rewrite (calculateNextDueDate_nextOccurrence Brasilia midday_stable_Brasilia
                   500 1 15 monthly V). }
  split; [exact V|]. do 3 (split; [reflexivity|]). split; [exact E|]. split.
  - rewrite E. discriminate.
  - change "9999-12-31" with (date_string 9999 12 31).
    now rewrite (calculateNextDueDate_nextOccurrence Brasilia midday_stable_Brasilia
                   9999 12 31 daily W).
Qed.

(* ------------------------------------------------------------------ *)
(** ** Today's date *)

(** [YearFromTime] is the year ECMA-262 asks for. *)
Lemma YearFromTime_largest (t : Z) :
  TimeFromYear (YearFromTime t) <= t
  /\ forall y, TimeFromYear y <= t -> y <= YearFromTime t.
Proof.
  pose proof (YearFromTime_bounds t) as [Lo Hi]. unfold TimeFromYear, Day in *.
  split; [unfold msPerDay in *; zdiv|].
  intros y H. destruct (Z.le_gt_cases y (YearFromTime t)) as [|G]; [assumption|].
  pose proof (DayFromYear_mono (YearFromTime t + 1) y ltac:(lia)).
  unfold msPerDay in *. zdiv.
Qed.

(** The calendar fields of any time value form a calendar date. *)
Lemma fields_are_a_date (t : Z) :
  0 <= MonthFromTime t <= 11
  /\ 1 <= DateFromTime t <= daysInMonth (YearFromTime t) (MonthFromTime t + 1).
Proof.
  pose proof (YearFromTime_bounds t) as B. rewrite DayFromYear_succ in B.
  unfold DateFromTime, MonthFromTime, InLeapYear, DayWithinYear, DaysInYear, daysInMonth in *.
  apply (date_of_yearday (isLeapYear (YearFromTime t))).
  destruct (isLeapYear (YearFromTime t)); lia.
Qed.

Lemma padStart0_4 (y : Z) :
  0 <= y <= 9999 ->
  padStart0 4 (Number_toString (Some y))
  = String (digit_char (y / 1000)) (String (digit_char (y / 100 mod 10))
      (String (digit_char (y / 10 mod 10)) (String (digit_char (y mod 10)) EmptyString))).
Proof.
  intros H.
  destruct (Z.le_gt_cases y 9); [|destruct (Z.le_gt_cases y 99);
                                   [|destruct (Z.le_gt_cases y 999)]].
  - rewrite Number_toString_1 by lia.
    replace (y / 1000) with 0 by zdiv. replace (y / 100 mod 10) with 0 by zdiv.
    replace (y / 10 mod 10) with 0 by zdiv. now replace (y mod 10) with y by zdiv.
  - rewrite Number_toString_2 by lia.
    replace (y / 1000) with 0 by zdiv. replace (y / 100 mod 10) with 0 by zdiv.
    now replace (y / 10 mod 10) with (y / 10) by zdiv.
  - rewrite Number_toString_3 by lia.
    replace (y / 1000) with 0 by zdiv.
    now replace (y / 100 mod 10) with (y / 100) by zdiv.
  - now rewrite Number_toString_4 by lia.
Qed.

Lemma padStart0_2 (k : Z) :
  0 <= k <= 99 ->
  padStart0 2 (Number_toString (Some k))
  = String (digit_char (k / 10)) (String (digit_char (k mod 10)) EmptyString).
Proof.
  intros H. destruct (Z.le_gt_cases k 9).
  - rewrite Number_toString_1 by lia.
    replace (k / 10) with 0 by zdiv. now replace (k mod 10) with k by zdiv.
  - now rewrite Number_toString_2 by lia.
Qed.

Lemma digit_char_not_T (k : Z) : 0 <= k <= 9 -> Ascii.eqb (digit_char k) "T" = false.
Proof.
  intros H.
  assert (C : k = 0 \/ k = 1 \/ k = 2 \/ k = 3 \/ k = 4 \/ k = 5 \/ k = 6 \/ k = 7
              \/ k = 8 \/ k = 9) by lia.
  repeat (destruct C as [C|C]); subst; reflexivity.
Qed.

(** [todayISO] is the text of the UTC calendar date of the clock reading. *)
Lemma todayISO_date_string (now : Z) :
  0 <= YearFromTime now <= 9999 ->
  todayISO now
  = date_string (YearFromTime now) (MonthFromTime now + 1) (DateFromTime now).
Proof.
  intros Hy. destruct (fields_are_a_date now) as [Hm Hd].
  pose proof (daysInMonth_bounds (YearFromTime now) (MonthFromTime now + 1)).
  unfold todayISO, toISOString. cbn [tv].
  replace ((0 <=? YearFromTime now) && (YearFromTime now <=? 9999)) with true
    by (symmetry; apply andb_true_intro; split; apply Z.leb_le; lia).
  rewrite padStart0_4 by lia.
  rewrite (padStart0_2 (MonthFromTime now + 1)), (padStart0_2 (DateFromTime now)) by lia.
  unfold date_string. cbn [append split_T_0].
  rewrite !digit_char_not_T by zdiv.
  change (Ascii.eqb "-" "T") with false. change (Ascii.eqb "T" "T") with true.
  reflexivity.
Qed.

(* ================================================================== *)
(** * Sorting *)

Section SortFacts.
Context {A : Type} (comparefn : A -> A -> num).

(** Whenever the comparator puts [x] after [y], it lets [y] stand before
    [x]. *)
Hypothesis opposite :
  forall x y, 0 < SortCompare comparefn x y -> SortCompare comparefn y x <= 0.

Lemma sort_insert_perm (x : A) (l : list A) :
  Permutation (x :: l) (sort_insert comparefn x l).
Proof.
  induction l as [|y l IH]; cbn [sort_insert]; [apply Permutation_refl|].
  destruct (0 <? SortCompare comparefn x y); [|apply Permutation_refl].
  eapply perm_trans; [apply perm_swap|]. now apply perm_skip.
Qed.

Lemma Array_sort_perm (l : list A) : Permutation l (Array_sort comparefn l).
Proof.
  induction l as [|x l IH]; [apply perm_nil|].
  cbn [Array_sort fold_right]. eapply perm_trans; [|apply sort_insert_perm].
  now apply perm_skip.
Qed.

Lemma sort_insert_sorted (x : A) (l : list A) :
  Sorted (before comparefn) l -> Sorted (before comparefn) (sort_insert comparefn x l).
Proof.
  induction 1 as [|y l S IH H]; cbn [sort_insert].
  - repeat constructor.
  - destruct (Z.ltb_spec 0 (SortCompare comparefn x y)) as [G|G].
    + constructor; [exact IH|].
      destruct H as [|z l H]; cbn [sort_insert].
      * constructor. now apply opposite.
      * destruct (0 <? SortCompare comparefn x z); constructor;
          [exact H | now apply opposite].
    + constructor; [now constructor|]. constructor. exact G.
Qed.

Lemma Array_sort_sorted (l : list A) : Sorted (before comparefn) (Array_sort comparefn l).
Proof.
  induction l as [|x l IH]; [constructor|].
  cbn [Array_sort fold_right]. now apply sort_insert_sorted.
Qed.

(** Sorting leaves a sorted array as it is. *)
Lemma Array_sort_fixes_sorted (l : list A) :
  Sorted (before comparefn) l -> Array_sort comparefn l = l.
Proof.
  induction 1 as [|x l S IH H]; [reflexivity|].
  cbn [Array_sort fold_right]. fold (Array_sort comparefn l). rewrite IH.
  destruct H as [|y l H]; [reflexivity|]. cbn [sort_insert].
  unfold before in H. destruct (Z.ltb_spec 0 (SortCompare comparefn x y)); [lia|].
  reflexivity.
Qed.

Lemma Array_sort_idempotent (l : list A) :
  Array_sort comparefn (Array_sort comparefn l) = Array_sort comparefn l.
Proof. apply Array_sort_fixes_sorted, Array_sort_sorted. Qed.
End SortFacts.

Lemma string_lt_asym (a b : string) : string_lt a b = true -> string_lt b a = false.
Proof.
  unfold string_lt, String.ltb. rewrite (String.compare_antisym b a).
  destruct (String.compare a b); cbn; congruence.
Qed.

Section TaskOrder.

Variable LocalTZA : Z -> bool -> Z.

Lemma compareIds_opposite (a b : Task) :
  0 < match compareIds a b with Some v => v | None => 0 end ->
  match compareIds b a with Some v => v | None => 0 end <= 0.
Proof.
  unfold compareIds.
  destruct (string_lt (Task.id a) (Task.id b)) eqn:L.
  - rewrite (string_lt_asym _ _ L). lia.
  - destruct (string_lt (Task.id b) (Task.id a)); lia.
Qed.

Lemma compareTasks_opposite (a b : Task) :
  0 < SortCompare (compareTasks LocalTZA) a b ->
  SortCompare (compareTasks LocalTZA) b a <= 0.
Proof.
  unfold SortCompare, compareTasks.
  destruct (Task.completed a) eqn:Ca, (Task.completed b) eqn:Cb; cbn [Bool.eqb negb];
    try lia; try apply compareIds_opposite.
  destruct (Z.eqb_spec (importanceRank (Task.importance a))
              (importanceRank (Task.importance b))) as [E|N]; cbn [negb].
  - rewrite <- E, Z.eqb_refl. cbn [negb].
    destruct (dueDate_object LocalTZA a) as [da|], (dueDate_object LocalTZA b) as [db|];
      try lia; try apply compareIds_opposite.
    unfold num_sub. destruct (getTime da), (getTime db); lia.
  - destruct (Z.eqb_spec (importanceRank (Task.importance b))
                (importanceRank (Task.importance a))); [congruence|]. cbn [negb]. lia.
Qed.

Lemma sortTasks_perm (l : list Task) : Permutation l (sortTasks LocalTZA l).
Proof. apply Array_sort_perm. Qed.

Lemma sortTasks_In (l : list Task) (t : Task) : In t (sortTasks LocalTZA l) <-> In t l.
Proof.
  split; apply Permutation_in; [apply Permutation_sym|]; apply sortTasks_perm.
Qed.

Lemma sortTasks_sorted (l : list Task) :
  Sorted (before (compareTasks LocalTZA)) (sortTasks LocalTZA l).
Proof. apply Array_sort_sorted, compareTasks_opposite. Qed.

Lemma string_ge_trans (a b c : string) :
  string_lt a b = false -> string_lt b c = false -> string_lt a c = false.
Proof.
  unfold string_lt, String.ltb. intros Hab Hbc.
  destruct (String.compare a c) eqn:Hac; try reflexivity. exfalso.
  destruct (String.compare b c) eqn:Cbc; try discriminate.
  - apply String.compare_eq_iff in Cbc. subst. now rewrite Hac in Hab.
  - assert (Hcb : String.compare c b = Lt)
      by (rewrite String.compare_antisym, Cbc; reflexivity).
    apply String_as_OT.cmp_lt in Hac, Hcb.
    pose proof (String_as_OT.lt_trans _ _ _ Hac Hcb) as Habl.
    apply String_as_OT.cmp_lt in Habl. unfold String_as_OT.cmp in Habl.
    now rewrite Habl in Hab.
Qed.

Lemma compareIds_before (a b : Task) :
  match compareIds a b with Some v => v | None => 0 end <= 0
  <-> string_lt (Task.id a) (Task.id b) = false.
Proof.
  unfold compareIds. destruct (string_lt (Task.id a) (Task.id b)).
  - split; [lia|discriminate].
  - destruct (string_lt (Task.id b) (Task.id a)); split; auto; lia.
Qed.

(** What the comparator says of two tasks with readable due dates. *)
Lemma before_precedes (a b : Task) :
  dated_ok LocalTZA a -> dated_ok LocalTZA b ->
  (before (compareTasks LocalTZA) a b <-> precedes LocalTZA a b).
Proof.
  unfold dated_ok, before, precedes, due_time, SortCompare, compareTasks.
  intros Da Db.
  destruct (Task.completed a), (Task.completed b); cbn [Bool.eqb negb];
    try apply compareIds_before; try (split; [auto|lia]); try (split; [lia|tauto]).
  destruct (Z.eqb_spec (importanceRank (Task.importance a))
              (importanceRank (Task.importance b))) as [E|N]; cbn [negb].
  - destruct (dueDate_object LocalTZA a) as [da|], (dueDate_object LocalTZA b) as [db|].
    + destruct (getTime da) as [ta|], (getTime db) as [tb|]; try congruence.
      cbn [num_sub]. split; [intros; right; split; [exact E|lia]|].
      intros [?|[_ ?]]; lia.
    + destruct (getTime da) as [ta|]; [|congruence].
      split; [intros; right; auto|lia].
    + destruct (getTime db) as [tb|]; [|congruence].
      split; [lia|]. intros [?|[_ []]]. lia.
    + rewrite compareIds_before. split; [intros; right; auto|].
      intros [?|[_ ?]]; [lia|assumption].
  - split; [intros; left; lia|]. intros [?|[? _]]; lia.
Qed.

Lemma precedes_trans (a b c : Task) :
  precedes LocalTZA a b -> precedes LocalTZA b c -> precedes LocalTZA a c.
Proof.
  unfold precedes.
  destruct (Task.completed a), (Task.completed b), (Task.completed c);
    try tauto; try apply string_ge_trans.
  intros [L1|[E1 D1]] [L2|[E2 D2]]; try (left; lia).
  right. split; [lia|].
  destruct (due_time LocalTZA a), (due_time LocalTZA b), (due_time LocalTZA c);
    try tauto; try lia.
  eapply string_ge_trans; eassumption.
Qed.

(** Between any two positions of a sorted list of tasks with readable due
    dates, the earlier task precedes the later one tier by tier. *)
Lemma sortTasks_tiers (l : list Task) :
  Forall (dated_ok LocalTZA) l -> StronglySorted (precedes LocalTZA) (sortTasks LocalTZA l).
Proof.
  intros D.
  assert (D' : Forall (dated_ok LocalTZA) (sortTasks LocalTZA l))
    by (eapply Permutation_Forall; [apply sortTasks_perm|exact D]).
  pose proof (sortTasks_sorted l) as S.
  induction S as [|x s S IH H]; [constructor|].
  inversion D' as [|? ? Dx Ds]; subst. specialize (IH Ds).
  constructor; [exact IH|].
  destruct H as [|y s H]; [constructor|].
  inversion Ds as [|? ? Dy _]; subst.
  assert (P : precedes LocalTZA x y) by (now apply before_precedes).
  constructor; [exact P|].
  inversion IH as [|? ? _ F]; subst.
  eapply Forall_impl; [|exact F]. intros z. now apply precedes_trans.
Qed.

Lemma dated_ok_num_sub (a b : Task) (da db : Date) :
  dated_ok LocalTZA a -> dated_ok LocalTZA b ->
  dueDate_object LocalTZA a = Some da -> dueDate_object LocalTZA b = Some db ->
  exists ta tb,
    getTime da = Some ta /\ getTime db = Some tb
    /\ num_sub (getTime da) (getTime db) = Some (ta - tb).
Proof.
  unfold dated_ok. intros Da Db Ea Eb. rewrite Ea in Da. rewrite Eb in Db.
  destruct (getTime da) as [ta|]; [|congruence].
  destruct (getTime db) as [tb|]; [|congruence].
  now exists ta, tb.
Qed.

(** On tasks with readable due dates the comparator never answers [NaN]. *)
Lemma compareTasks_is_a_number (a b : Task) :
  dated_ok LocalTZA a -> dated_ok LocalTZA b -> compareTasks LocalTZA a b <> NaN.
Proof.
  intros Da Db. unfold compareTasks, compareIds.
  destruct (negb (Bool.eqb _ _)); [destruct (Task.completed a); discriminate|].
  destruct (string_lt (Task.id a) (Task.id b)), (string_lt (Task.id b) (Task.id a));
    (destruct (negb (Task.completed a)); [|discriminate]);
    (destruct (negb (_ =? _)); [discriminate|]);
    (destruct (dueDate_object LocalTZA a) as [da|] eqn:Ea;
     destruct (dueDate_object LocalTZA b) as [db|] eqn:Eb; try discriminate);
    destruct (dated_ok_num_sub a b da db Da Db Ea Eb) as (ta & tb & _ & _ & ->);
    discriminate.
Qed.

(** C4.  [sortTasks] is idempotent: on a list of tasks whose due dates can
    be read, where the comparator never answers [NaN] and the result of
    [Array.prototype.sort] is the one the standard fixes, sorting the sorted
    list changes nothing. *)
Theorem sortTasks_idempotent (xs : list Task) :
  Forall (dated_ok LocalTZA) xs ->
  sortTasks LocalTZA (sortTasks LocalTZA xs) = sortTasks LocalTZA xs.
Proof. intros _. apply Array_sort_idempotent, compareTasks_opposite. Qed.

End TaskOrder.

(** C3.  Two unfinished tasks of equal importance and equal due date are left
    in the order they came in, whatever their identifiers: given ["a"] before
    ["b"], [sortTasks] returns ["a"] before ["b"], though ["a" < "b"] and a
    descending tie-break on identifiers would put ["b"] first.  The comparator
    answers 0 for them and never reaches the comparison of identifiers, which
    the same two tasks without due dates do reach. *)
Theorem sortTasks_equal_due_dates_keep_input_order (LocalTZA : Z -> bool -> Z) :
  sortTasks LocalTZA [report_a; report_b] = [report_a; report_b]
  /\ compareTasks LocalTZA report_a report_b = Some 0
  /\ string_lt (Task.id report_a) (Task.id report_b) = true
  /\ sortTasks LocalTZA [undated_a; undated_b] = [undated_b; undated_a].
Proof. repeat split. Qed.

(* ================================================================== *)
(** * Handlers of the task screen *)

Lemma In_replaceById (id : string) (u t : Task) (l : list Task) :
  In t (replaceById id u l) -> t = u \/ (In t l /\ Task.id t <> id).
Proof.
  unfold replaceById. rewrite in_map_iff. intros (x & E & I).
  destruct (String.eqb_spec (Task.id x) id); subst; auto.
Qed.


Lemma tasks_if_setOpenMenuId (b : bool) (s : State) :
  tasks (if b then setOpenMenuId None s else s) = tasks s.
Proof. now destruct b. Qed.

Lemma calls_if_setOpenMenuId (b : bool) (s : State) :
  calls (if b then setOpenMenuId None s else s) = calls s.
Proof. now destruct b. Qed.

Lemma focusedTaskId_if_setOpenMenuId (b : bool) (s : State) :
  focusedTaskId (if b then setOpenMenuId None s else s) = focusedTaskId s.
Proof. now destruct b. Qed.

Section TaskHandlers.

Variable LocalTZA : Z -> bool -> Z.

(** Toggling a recurring task that is not completed: the task keeps
    [completed = false], its due date becomes [calculateNextDueDate] of its
    due date, or of the date [todayISO] gives when it has none or an empty
    one, every subtask has [completed = false], and this task replaces the
    one with its identifier in the re-sorted list and is what is sent to the
    store.  For the text of a calendar date the new due date is the next
    occurrence the calendar gives. *)
Lemma handleToggleTask_recurring (now : Z) (persisted : bool) (task : Task)
    (frequency : RecurrenceFrequency) (s : State) :
  Task.recurring task = Some frequency ->
  Task.completed task = false ->
  exists (current : string) (updatedTask : Task),
    (forall d, Task.dueDate task = Some d -> d <> "" -> current = d)
    /\ (Task.dueDate task = None ->
        current = todayISO now
        /\ (0 <= YearFromTime now <= 9999 ->
            current = date_string (YearFromTime now) (MonthFromTime now + 1)
                        (DateFromTime now)))
    /\ Task.dueDate updatedTask = Some (calculateNextDueDate LocalTZA current frequency)
    /\ Task.completed updatedTask = false
    /\ Task.subtasks updatedTask
       = option_map (map (Subtask.with_completed false)) (Task.subtasks task)
    /\ (forall sts, Task.subtasks updatedTask = Some sts ->
          Forall (fun st => Subtask.completed st = false) sts)
    /\ Task.id updatedTask = Task.id task
    /\ Task.text updatedTask = Task.text task
    /\ Task.importance updatedTask = Task.importance task
    /\ Task.recurring updatedTask = Some frequency
    /\ tasks (handleToggleTask LocalTZA now persisted task s)
       = sortTasks LocalTZA (replaceById (Task.id task) updatedTask (tasks s))
    /\ (forall t, In t (tasks (handleToggleTask LocalTZA now persisted task s)) ->
          Task.id t = Task.id task -> t = updatedTask)
    /\ calls (handleToggleTask LocalTZA now persisted task s)
       = updateTask updatedTask :: calls s
    /\ (Task.dueDate task = Some "" -> current = todayISO now)
    /\ (In task (tasks s) ->
        In updatedTask (tasks (handleToggleTask LocalTZA now persisted task s)))
    /\ (forall y m d,
          midday_stable LocalTZA -> valid_date y m d -> current = date_string y m d ->
          Task.dueDate updatedTask = Some (year_month_day (nextOccurrence frequency (y, m, d)))).
Proof.
  intros R C.
  set (current := match truthy_string (Task.dueDate task) with
                  | Some d => d
                  | None => todayISO now
                  end).
  set (updatedTask :=
         Task.with_subtasks
           (option_map (map (Subtask.with_completed false)) (Task.subtasks task))
           (Task.with_dueDate (Some (calculateNextDueDate LocalTZA current frequency)) task)).
  assert (T : tasks (handleToggleTask LocalTZA now persisted task s)
              = sortTasks LocalTZA (replaceById (Task.id task) updatedTask (tasks s))).
  { unfold handleToggleTask. rewrite R, C, tasks_if_setOpenMenuId. reflexivity. }
  exists current, updatedTask. repeat split; try reflexivity; try assumption.
  - intros d E N. subst current. rewrite E. destruct d; [congruence|reflexivity].
  - subst current. now rewrite H.
  - intros Hy. subst current. rewrite H. cbn [truthy_string].
    now apply todayISO_date_string.
  - intros sts E. cbn in E. destruct (Task.subtasks task) as [old|]; [|discriminate].
    injection E as <-. apply Forall_forall. intros st I.
    apply in_map_iff in I. destruct I as (x & <- & _). reflexivity.
  - intros t I E. rewrite T in I. apply sortTasks_In, In_replaceById in I.
    destruct I as [->|[_ N]]; [reflexivity|contradiction].
  - unfold handleToggleTask. rewrite R, C, calls_if_setOpenMenuId. reflexivity.
  - intros E. subst current. now rewrite E.
  - intros I. rewrite T. apply sortTasks_In. unfold replaceById. apply in_map_iff.
    exists task. now rewrite String.eqb_refl.
  - intros y m d Stable V E. cbn. rewrite E. f_equal.
    now apply calculateNextDueDate_nextOccurrence.
Qed.

(** C1.  Today's date is taken from UTC.  At a quarter past nine in the
    evening of 29 February 2024 in Brasilia the local date is 29 February and
    the day after it is 1 March; ticking a daily task without a due date
    stores 2 March, the day after the date UTC has at that moment. *)
Theorem handleToggleTask_takes_the_day_of_UTC :
  YearFromTime (LocalTime Brasilia late_evening) = 2024
  /\ MonthFromTime (LocalTime Brasilia late_evening) + 1 = 2
  /\ DateFromTime (LocalTime Brasilia late_evening) = 29
  /\ year_month_day (nextOccurrence daily (2024, 2, 29)) = "2024-03-01"
  /\ todayISO late_evening = "2024-03-01"
  /\ tasks (handleToggleTask Brasilia late_evening true chore chore_screen)
     = [Task.with_dueDate (Some "2024-03-02") chore]
  /\ calls (handleToggleTask Brasilia late_evening true chore chore_screen)
     = [updateTask (Task.with_dueDate (Some "2024-03-02") chore)].
Proof. vm_compute. repeat split. Qed.

Lemma handleDeleteTask_tasks (persisted : bool) (id : string) (s : State) :
  tasks (handleDeleteTask persisted id s)
  = filter (fun t => negb (String.eqb (Task.id t) id)) (tasks s).
Proof.
  unfold handleDeleteTask. rewrite tasks_if_setOpenMenuId.
  destruct (focusedTaskId s) as [f|]; [destruct (String.eqb f id)|]; reflexivity.
Qed.

Lemma handleDeleteTask_focusedTaskId (persisted : bool) (id : string) (s : State) :
  focusedTaskId (handleDeleteTask persisted id s)
  = match focusedTaskId s with
    | Some f => if String.eqb f id then None else Some f
    | None => None
    end.
Proof.
  unfold handleDeleteTask. rewrite focusedTaskId_if_setOpenMenuId.
  destruct (focusedTaskId s) as [f|] eqn:E; [destruct (String.eqb f id)|];
    cbn; rewrite ?E; reflexivity.
Qed.

Lemma handleDeleteTask_unfocuses (persisted : bool) (id : string) (s : State) :
  focusedTaskId s = Some id ->
  focusedTaskId (handleDeleteTask persisted id s) = None
  /\ focusedTask (handleDeleteTask persisted id s) = None.
Proof.
  intros E. unfold focusedTask.
  rewrite handleDeleteTask_focusedTaskId, E, String.eqb_refl. auto.
Qed.

Lemma handleSelectFocusTask_focuses (task : Task) (s : State) :
  Task.completed task = false -> isTimerActive s = false ->
  focusedTaskId s <> Some (Task.id task) ->
  focusedTaskId (handleSelectFocusTask task s) = Some (Task.id task).
Proof.
  intros C A N. unfold handleSelectFocusTask. rewrite C, A.
  assert (E : match focusedTaskId s with
              | Some f => if String.eqb f (Task.id task) then None else Some (Task.id task)
              | None => Some (Task.id task)
              end = Some (Task.id task)).
  { destruct (focusedTaskId s) as [f|]; [|reflexivity].
    destruct (String.eqb_spec f (Task.id task)); congruence. }
  destruct (timerMode _); [destruct (_ =? _)|]; cbn; exact E.
Qed.

(** C9.  Deleting by identifier keeps, in order and unchanged, exactly the
    tasks with another identifier; if the deleted identifier was the focused
    one, no task is focused afterwards, and otherwise the focus reference is
    what it was.  So focusing a task and then deleting it leaves no task
    focused. *)
Theorem handleDeleteTask_removes_and_unfocuses (persisted : bool) (id : string) (s : State) :
  tasks (handleDeleteTask persisted id s)
  = filter (fun t => negb (String.eqb (Task.id t) id)) (tasks s)
  /\ (forall t, In t (tasks (handleDeleteTask persisted id s))
                <-> In t (tasks s) /\ Task.id t <> id)
  /\ (focusedTaskId s = Some id ->
      focusedTaskId (handleDeleteTask persisted id s) = None
      /\ focusedTask (handleDeleteTask persisted id s) = None)
  /\ (focusedTaskId s <> Some id ->
      focusedTaskId (handleDeleteTask persisted id s) = focusedTaskId s)
  /\ calls (handleDeleteTask persisted id s) = deleteTask id :: calls s
  /\ (forall task,
        Task.id task = id -> Task.completed task = false -> isTimerActive s = false ->
        focusedTaskId s <> Some id ->
        focusedTaskId (handleSelectFocusTask task s) = Some id
        /\ focusedTask (handleDeleteTask persisted id (handleSelectFocusTask task s)) = None).
Proof.
  split; [apply handleDeleteTask_tasks|].
  split; [|split; [apply handleDeleteTask_unfocuses|split; [|split]]].
  - intros t. rewrite handleDeleteTask_tasks, filter_In.
    destruct (String.eqb_spec (Task.id t) id); cbn; intuition congruence.
  - intros N. rewrite handleDeleteTask_focusedTaskId.
    destruct (focusedTaskId s) as [f|]; [|reflexivity].
    destruct (String.eqb_spec f id); congruence.
  - unfold handleDeleteTask. rewrite calls_if_setOpenMenuId.
    destruct (focusedTaskId s) as [f|]; [destruct (String.eqb f id)|]; reflexivity.
  - intros task <- C A N.
    pose proof (handleSelectFocusTask_focuses task s C A N) as E.
    split; [exact E|]. now apply handleDeleteTask_unfocuses.
Qed.

End TaskHandlers.

(* ------------------------------------------------------------------ *)
(** ** Toggling a subtask *)

Lemma find_id_unique (l : list Task) (id : string) (found t : Task) :
  NoDup (map Task.id l) ->
  find (fun x => String.eqb (Task.id x) id) l = Some found ->
  In t l -> Task.id t = id -> t = found.
Proof.
  induction l as [|x l IH]; cbn [find map]; intros N F I E; [contradiction|].
  inversion N as [|? ? NI N']; subst.
  destruct (String.eqb_spec (Task.id x) (Task.id t)) as [Ex|Nx].
  - injection F as <-. destruct I as [->|I]; [reflexivity|].
    exfalso. apply NI. rewrite Ex. now apply in_map.
  - destruct I as [->|I]; [congruence|]. now apply IH.
Qed.

Lemma find_id_none (l : list Task) (id : string) (t : Task) :
  find (fun x => String.eqb (Task.id x) id) l = None -> In t l -> Task.id t <> id.
Proof.
  intros F I E. apply (find_none _ _ F) in I. cbn in I.
  rewrite E, String.eqb_refl in I. discriminate.
Qed.

Lemma Task_with_own_subtasks (t : Task) : Task.with_subtasks (Task.subtasks t) t = t.
Proof. now destruct t. Qed.

(** What [handleToggleSubtask] does to one task of the list. *)
Lemma handleToggleSubtask_tasks (persisted : bool) (taskId : string) (subtaskId : Z)
    (s : State) :
  NoDup (map Task.id (tasks s)) ->
  tasks (handleToggleSubtask persisted taskId subtaskId s)
  = map (fun t =>
           if String.eqb (Task.id t) taskId
           then Task.with_subtasks
                  (option_map
                     (map (fun st =>
                             if Subtask.id st =? subtaskId
                             then Subtask.with_completed (negb (Subtask.completed st)) st
                             else st))
                     (Task.subtasks t)) t
           else t)
        (tasks s).
Proof.
  intros N. unfold handleToggleSubtask.
  destruct (find _ (tasks s)) as [found|] eqn:F.
  - destruct (Task.subtasks found) as [sts|] eqn:S.
    + cbn [tasks setTasks call]. unfold replaceById. apply map_ext_in.
      intros t I. destruct (String.eqb_spec (Task.id t) taskId) as [E|_]; [|reflexivity].
      rewrite (find_id_unique _ _ _ _ N F I E), S. reflexivity.
    + rewrite <- (map_id (tasks s)) at 1. apply map_ext_in.
      intros t I. destruct (String.eqb_spec (Task.id t) taskId) as [E|_]; [|reflexivity].
      rewrite (find_id_unique _ _ _ _ N F I E), S. cbn [option_map].
      rewrite <- S. symmetry. apply Task_with_own_subtasks.
  - rewrite <- (map_id (tasks s)) at 1. apply map_ext_in.
    intros t I. pose proof (find_id_none _ _ _ F I).
    destruct (String.eqb_spec (Task.id t) taskId); [contradiction|reflexivity].
Qed.

(** C5.  Toggling a subtask leaves every task at its index.  At each index the
    task keeps all its own fields; only the subtasks of the task named by
    [taskId] can differ, they keep their order, identifiers and texts, and the
    [completed] flag flips exactly on the subtask named by [subtaskId]. *)
Theorem handleToggleSubtask_in_place (persisted : bool) (taskId : string)
    (subtaskId : Z) (s : State) :
  NoDup (map Task.id (tasks s)) ->
  List.length (tasks (handleToggleSubtask persisted taskId subtaskId s))
  = List.length (tasks s)
  /\ forall i t, nth_error (tasks s) i = Some t ->
     exists t',
       nth_error (tasks (handleToggleSubtask persisted taskId subtaskId s)) i = Some t'
       /\ Task.with_subtasks (Task.subtasks t) t' = t
       /\ (Task.id t <> taskId -> t' = t)
       /\ forall sts, Task.subtasks t = Some sts ->
          exists sts',
            Task.subtasks t' = Some sts'
            /\ List.length sts' = List.length sts
            /\ forall j st, nth_error sts j = Some st ->
               exists st',
                 nth_error sts' j = Some st'
                 /\ Subtask.id st' = Subtask.id st
                 /\ Subtask.text st' = Subtask.text st
                 /\ Subtask.completed st'
                    = if String.eqb (Task.id t) taskId && (Subtask.id st =? subtaskId)
                      then negb (Subtask.completed st)
                      else Subtask.completed st.
Proof.
  intros N. rewrite (handleToggleSubtask_tasks _ _ _ _ N). split; [apply length_map|].
  intros i t Hi. eexists. split; [apply map_nth_error; exact Hi|]. cbv beta.
  destruct (String.eqb_spec (Task.id t) taskId) as [E|NE].
  - split; [now destruct t|]. split; [contradiction|].
    intros sts S. rewrite S. cbn [option_map Task.subtasks Task.with_subtasks].
    eexists. split; [reflexivity|]. split; [apply length_map|].
    intros j st Hj. eexists. split; [apply map_nth_error; exact Hj|].
    cbn [andb]. destruct (Subtask.id st =? subtaskId); auto.
  - split; [apply Task_with_own_subtasks|]. split; [reflexivity|].
    intros sts S. exists sts. split; [exact S|]. split; [reflexivity|].
    intros j st Hj. exists st. auto.
Qed.

(* ------------------------------------------------------------------ *)
(** ** Breaking a task down *)

Lemma tasks_after_catch (c : Completion) :
  tasks match c with Returned s' => s' | Thrown s' => console_error s' end
  = tasks (state_of c).
Proof. now destruct c. Qed.

Lemma calls_after_catch (c : Completion) :
  calls match c with Returned s' => s' | Thrown s' => console_error s' end
  = calls (state_of c).
Proof. now destruct c. Qed.

Lemma focusedTaskId_after_catch (c : Completion) :
  focusedTaskId match c with Returned s' => s' | Thrown s' => console_error s' end
  = focusedTaskId (state_of c).
Proof. now destruct c. Qed.


Section Breakdown.

Variable LocalTZA : Z -> bool -> Z.
Variable greater_than_zero : JSON -> bool.

(** The state the [try] block leaves behind. *)
Lemma breakdown_parsed_state (Date_now : nat -> Z) (persisted : bool) (task : Task)
    (result : JSON) (s : State) :
  state_of (breakdown_parsed LocalTZA greater_than_zero Date_now persisted task result s)
  = match generated_texts (Parsed result) with
    | Some texts =>
        let updatedTask :=
          Task.with_subtasks
            (Some (existing_subtasks task ++ newSubtasks Date_now texts)%list) task in
        call (updateTask updatedTask)
          (setTasks (fun prev => sortTasks LocalTZA (replaceById (Task.id task) updatedTask prev)) s)
    | None => s
    end.
Proof.
  unfold breakdown_parsed, generated_texts.
  destruct result as [|b|x|str|items|fields]; try reflexivity.
  destruct (lookup "subtasks" fields) as [v|]; [|reflexivity].
  destruct v as [|b|x|str|items|fields']; cbn [or_empty_array]; try reflexivity.
  - now destruct b.
  - now destruct x.
  - now destruct str.
  - destruct items as [|x rest]; [reflexivity|].
    replace (0 <? Z.of_nat (List.length (x :: rest))) with true
      by (symmetry; apply Z.ltb_lt; cbn [List.length]; lia).
    now destruct persisted.
  - destruct (lookup "length" fields') as [len|]; [|reflexivity].
    now destruct (greater_than_zero len).
Qed.




End Breakdown.


(* ------------------------------------------------------------------ *)
(** ** Recurring tasks stay active *)


Section Invariant.

Variable LocalTZA : Z -> bool -> Z.
Variable greater_than_zero : JSON -> bool.







Lemma handleSelectFocusTask_tasks (task : Task) (s : State) :
  tasks (handleSelectFocusTask task s) = tasks s.
Proof.
  unfold handleSelectFocusTask.
  destruct (Task.completed task); [reflexivity|].
  destruct (isTimerActive s); [reflexivity|].
  destruct (timerMode _); [destruct (_ =? _)|]; reflexivity.
Qed.




End Invariant.

(* ------------------------------------------------------------------ *)
(** ** Dropping a subtask *)

Section ArrayFacts.
Context {A : Type}.

Lemma findIndex_from_app (p : A -> bool) (l r : list A) (a : A) (i : Z) :
  (forall x, In x l -> p x = false) -> p a = true ->
  findIndex_from p (l ++ a :: r) i = i + Z.of_nat (List.length l).
Proof.
  revert i. induction l as [|x l IH]; intros i Hl Ha; cbn [app findIndex_from List.length].
  - rewrite Ha. lia.
  - rewrite (Hl x (or_introl eq_refl)), IH; [lia| |exact Ha].
    intros y Hy. apply Hl. now right.
Qed.

Lemma findIndex_app (p : A -> bool) (l r : list A) (a : A) :
  (forall x, In x l -> p x = false) -> p a = true ->
  findIndex p (l ++ a :: r) = Z.of_nat (List.length l).
Proof. intros. unfold findIndex. now rewrite findIndex_from_app. Qed.

(** Taking one element out at the index of [a]. *)
Lemma splice_take_one (l r : list A) (a : A) :
  splice (l ++ a :: r) (Z.of_nat (List.length l)) 1 [] = ([a], (l ++ r)%list).
Proof.
  unfold splice. rewrite length_app. cbn [List.length].
  destruct (Z.ltb_spec (Z.of_nat (List.length l)) 0); [lia|].
  replace (Z.min (Z.of_nat (List.length l)) (Z.of_nat (List.length l + S (List.length r))))
    with (Z.of_nat (List.length l)) by lia.
  replace (Z.min (Z.max 1 0) (Z.of_nat (List.length l + S (List.length r))
                             - Z.of_nat (List.length l))) with 1 by lia.
  rewrite Nat2Z.id. change (Z.to_nat 1) with 1%nat.
  rewrite skipn_app, skipn_all, Nat.sub_diag. cbn [app skipn firstn].
  rewrite firstn_app, firstn_all, Nat.sub_diag. cbn [firstn].
  rewrite app_nil_r. f_equal.
  rewrite skipn_app, skipn_all2 by lia.
  replace (List.length l + 1 - List.length l)%nat with 1%nat by lia. reflexivity.
Qed.

(** Putting one element in at the end of the prefix [l]. *)
Lemma splice_put_one (l r : list A) (a : A) (i : Z) :
  i = Z.of_nat (List.length l) ->
  snd (splice (l ++ r) i 0 [a]) = (l ++ a :: r)%list.
Proof.
  intros ->. unfold splice. rewrite length_app. cbn [snd].
  destruct (Z.ltb_spec (Z.of_nat (List.length l)) 0); [lia|].
  replace (Z.min (Z.of_nat (List.length l)) (Z.of_nat (List.length l + List.length r)))
    with (Z.of_nat (List.length l)) by lia.
  replace (Z.min (Z.max 0 0) (Z.of_nat (List.length l + List.length r)
                             - Z.of_nat (List.length l))) with 0 by lia.
  rewrite Nat2Z.id. change (Z.to_nat 0) with 0%nat. rewrite Nat.add_0_r.
  rewrite firstn_app, firstn_all, Nat.sub_diag. cbn [firstn].
  rewrite skipn_app, skipn_all, Nat.sub_diag. cbn [skipn app].
  now rewrite app_nil_r.
Qed.
End ArrayFacts.

Lemma NoDup_ids_app (l r : list Subtask) (a x : Subtask) :
  NoDup (map Subtask.id (l ++ a :: r)) -> In x (l ++ r) ->
  (Subtask.id x =? Subtask.id a) = false.
Proof.
  intros N I. apply Z.eqb_neq. intros E.
  rewrite map_app in N. cbn [map] in N. apply NoDup_remove_2 in N.
  apply N. rewrite <- map_app, <- E. now apply in_map.
Qed.

Lemma dropped_source_first (a b : Subtask) (p q r : list Subtask)
    (over : option (Z * Position)) :
  NoDup (map Subtask.id (p ++ a :: q ++ b :: r)) ->
  dropped (Subtask.id a) (Subtask.id b) over (p ++ a :: q ++ b :: r)
  = Some match over with
         | Some (_, top) => ((p ++ q) ++ a :: b :: r)%list
         | _ => ((p ++ q) ++ b :: a :: r)%list
         end.
Proof.
  intros N. unfold dropped.
  assert (Ia : findIndex (fun st => Subtask.id st =? Subtask.id a) (p ++ a :: q ++ b :: r)
               = Z.of_nat (List.length p)).
  { apply findIndex_app; [|apply Z.eqb_refl].
    intros x I. apply (NoDup_ids_app p (q ++ b :: r) a x N), in_or_app. now left. }
  assert (Ib : findIndex (fun st => Subtask.id st =? Subtask.id b) (p ++ a :: q ++ b :: r)
               = Z.of_nat (List.length (p ++ a :: q))).
  { replace (p ++ a :: q ++ b :: r)%list with ((p ++ a :: q) ++ b :: r)%list in *
      by (now rewrite <- app_assoc).
    apply findIndex_app; [|apply Z.eqb_refl].
    intros x I. apply (NoDup_ids_app (p ++ a :: q) r b x N), in_or_app. now left. }
  rewrite Ia, Ib, splice_take_one. rewrite length_app. cbn [List.length].
  destruct (Z.gtb_spec (Z.of_nat (List.length p + S (List.length q)))
              (Z.of_nat (List.length p))); [|lia].
  f_equal. destruct over as [[? []]|].
  - rewrite app_assoc. apply splice_put_one. rewrite length_app. lia.
  - replace ((p ++ q) ++ b :: a :: r)%list with (((p ++ q) ++ [b]) ++ a :: r)%list
      by (now rewrite <- app_assoc).
    replace (p ++ q ++ b :: r)%list with (((p ++ q) ++ [b]) ++ r)%list
      by (now rewrite <- !app_assoc).
    apply splice_put_one. rewrite !length_app. cbn [List.length]. lia.
  - replace ((p ++ q) ++ b :: a :: r)%list with (((p ++ q) ++ [b]) ++ a :: r)%list
      by (now rewrite <- app_assoc).
    replace (p ++ q ++ b :: r)%list with (((p ++ q) ++ [b]) ++ r)%list
      by (now rewrite <- !app_assoc).
    apply splice_put_one. rewrite !length_app. cbn [List.length]. lia.
Qed.

Lemma dropped_target_first (a b : Subtask) (p q r : list Subtask)
    (over : option (Z * Position)) :
  NoDup (map Subtask.id (p ++ b :: q ++ a :: r)) ->
  dropped (Subtask.id a) (Subtask.id b) over (p ++ b :: q ++ a :: r)
  = Some match over with
         | Some (_, top) => (p ++ a :: b :: q ++ r)%list
         | _ => (p ++ b :: a :: q ++ r)%list
         end.
Proof.
  intros N. unfold dropped.
  assert (Ib : findIndex (fun st => Subtask.id st =? Subtask.id b) (p ++ b :: q ++ a :: r)
               = Z.of_nat (List.length p)).
  { apply findIndex_app; [|apply Z.eqb_refl].
    intros x I. apply (NoDup_ids_app p (q ++ a :: r) b x N), in_or_app. now left. }
  assert (Ia : findIndex (fun st => Subtask.id st =? Subtask.id a) (p ++ b :: q ++ a :: r)
               = Z.of_nat (List.length (p ++ b :: q))).
  { replace (p ++ b :: q ++ a :: r)%list with ((p ++ b :: q) ++ a :: r)%list in *
      by (now rewrite <- app_assoc).
    apply findIndex_app; [|apply Z.eqb_refl].
    intros x I. apply (NoDup_ids_app (p ++ b :: q) r a x N), in_or_app. now left. }
  rewrite Ia, Ib.
  replace (p ++ b :: q ++ a :: r)%list with ((p ++ b :: q) ++ a :: r)%list
    by (now rewrite <- app_assoc).
  rewrite splice_take_one. rewrite length_app. cbn [List.length].
  destruct (Z.gtb_spec (Z.of_nat (List.length p))
              (Z.of_nat (List.length p + S (List.length q)))); [lia|].
  f_equal. rewrite <- app_assoc. cbn [app]. destruct over as [[? []]|].
  - now apply splice_put_one.
  - replace (p ++ b :: a :: q ++ r)%list with ((p ++ [b]) ++ a :: q ++ r)%list
      by (now rewrite <- app_assoc).
    replace (p ++ b :: q ++ r)%list with ((p ++ [b]) ++ q ++ r)%list
      by (now rewrite <- app_assoc).
    apply splice_put_one. rewrite length_app. cbn [List.length]. lia.
  - replace (p ++ b :: a :: q ++ r)%list with ((p ++ [b]) ++ a :: q ++ r)%list
      by (now rewrite <- app_assoc).
    replace (p ++ b :: q ++ r)%list with ((p ++ [b]) ++ q ++ r)%list
      by (now rewrite <- app_assoc).
    apply splice_put_one. rewrite length_app. cbn [List.length]. lia.
Qed.

Lemma handleSubtaskDrop_dropped (persisted : bool) (taskId : string)
    (dragged target : Subtask) (parent : Task) (sts : list Subtask) (s : State) :
  draggedSubtaskRef s = Some (taskId, dragged) ->
  Subtask.id dragged <> Subtask.id target ->
  find (fun t => String.eqb (Task.id t) taskId) (tasks s) = Some parent ->
  Task.subtasks parent = Some sts ->
  handleSubtaskDrop persisted taskId target s
  = match dropped (Subtask.id dragged) (Subtask.id target) (dragOverInfo s) sts with
    | Some sts' =>
        let updatedTask := Task.with_subtasks (Some sts') parent in
        let s1 :=
          call (updateTask updatedTask)
            (setTasks (fun prevTasks => replaceById taskId updatedTask prevTasks) s) in
        Some (if persisted then setDragOverInfo None s1 else s1)
    | None => None
    end.
Proof.
  intros D N F S. unfold handleSubtaskDrop, dropped.
  rewrite D, String.eqb_refl, F, S. cbn [negb orb].
  destruct (Z.eqb_spec (Subtask.id dragged) (Subtask.id target)); [contradiction|].
  destruct (splice sts _ 1 []) as [removed rest].
  destruct removed as [|movedItem removed]; reflexivity.
Qed.

Lemma filter_without (a : Subtask) (l r : list Subtask) :
  filter (fun st => negb (Subtask.id st =? Subtask.id a)) (l ++ a :: r)
  = filter (fun st => negb (Subtask.id st =? Subtask.id a)) (l ++ r).
Proof. rewrite !filter_app. cbn [filter]. now rewrite Z.eqb_refl. Qed.

(** The state a drop of [A] on [B] within one task leaves, and the order of
    the subtasks in it. *)
Lemma handleSubtaskDrop_reorders_state (persisted : bool) (taskId : string)
    (dragged A B : Subtask) (parent : Task) (sts : list Subtask) (s : State) :
  draggedSubtaskRef s = Some (taskId, dragged) ->
  Subtask.id dragged = Subtask.id A ->
  find (fun t => String.eqb (Task.id t) taskId) (tasks s) = Some parent ->
  Task.subtasks parent = Some sts ->
  NoDup (map Subtask.id sts) ->
  In A sts -> In B sts -> A <> B ->
  (exists sts',
     handleSubtaskDrop persisted taskId B s
     = (let updatedTask := Task.with_subtasks (Some sts') parent in
        let s1 :=
          call (updateTask updatedTask)
            (setTasks (fun prevTasks => replaceById taskId updatedTask prevTasks) s) in
        Some (if persisted then setDragOverInfo None s1 else s1))
     /\ Permutation sts sts'
     /\ filter (fun st => negb (Subtask.id st =? Subtask.id A)) sts'
        = filter (fun st => negb (Subtask.id st =? Subtask.id A)) sts
     /\ match dragOverInfo s with
        | Some (_, top) => exists l1 l2, sts' = (l1 ++ A :: B :: l2)%list
        | _ => exists l1 l2, sts' = (l1 ++ B :: A :: l2)%list
        end)
  /\ (forall otherTaskId target,
        otherTaskId <> taskId ->
        handleSubtaskDrop persisted otherTaskId target s = Some s)
  /\ (forall target,
        Subtask.id target = Subtask.id dragged ->
        handleSubtaskDrop persisted taskId target s = Some s).
Proof.
  intros D E F S N IA IB NE. split; [|split].
  - destruct (in_split _ _ IA) as (l1 & l2 & ->).
    assert (IB' : In B l1 \/ In B l2).
    { apply in_app_or in IB. destruct IB as [?|[?|?]]; auto. congruence. }
    destruct IB' as [I|I]; destruct (in_split _ _ I) as (p & q & ->).
    + (* the target comes first *)
      rewrite <- app_assoc in *. cbn [app] in *.
      assert (NI : Subtask.id dragged <> Subtask.id B).
      { rewrite E. intros H.
        pose proof (NoDup_ids_app (p ++ B :: q) l2 A B) as X.
        rewrite <- app_assoc in X. cbn [app] in X.
        specialize (X N ltac:(apply in_or_app; left; apply in_or_app; right; now left)).
        rewrite H, Z.eqb_refl in X. discriminate. }
      rewrite (handleSubtaskDrop_dropped _ _ _ _ _ _ _ D NI F S), E.
      rewrite (dropped_target_first A B p q l2 _ N).
      eexists. split; [reflexivity|]. split; [|split].
      * destruct (dragOverInfo s) as [[? []]|].
        -- apply Permutation_app_head.
           change (A :: B :: q ++ l2)%list with (A :: (B :: q) ++ l2)%list.
           apply Permutation_sym, (Permutation_middle (B :: q) l2 A).
        -- apply Permutation_app_head, perm_skip, Permutation_sym, Permutation_middle.
        -- apply Permutation_app_head, perm_skip, Permutation_sym, Permutation_middle.
      * replace (p ++ B :: q ++ A :: l2)%list with ((p ++ B :: q) ++ A :: l2)%list
          by (now rewrite <- app_assoc).
        rewrite (filter_without A (p ++ B :: q) l2), <- app_assoc. cbn [app].
        destruct (dragOverInfo s) as [[? []]|].
        -- apply (filter_without A p (B :: q ++ l2)).
        -- replace (p ++ B :: A :: q ++ l2)%list with ((p ++ [B]) ++ A :: q ++ l2)%list
             by (now rewrite <- app_assoc).
           rewrite (filter_without A (p ++ [B]) (q ++ l2)). now rewrite <- app_assoc.
        -- replace (p ++ B :: A :: q ++ l2)%list with ((p ++ [B]) ++ A :: q ++ l2)%list
             by (now rewrite <- app_assoc).
           rewrite (filter_without A (p ++ [B]) (q ++ l2)). now rewrite <- app_assoc.
      * destruct (dragOverInfo s) as [[? []]|]; eauto.
    + (* the source comes first *)
      assert (NI : Subtask.id dragged <> Subtask.id B).
      { rewrite E. intros H.
        pose proof (NoDup_ids_app l1 (p ++ B :: q) A B N
                      ltac:(apply in_or_app; right; apply in_or_app; right; now left)) as X.
        rewrite H, Z.eqb_refl in X. discriminate. }
      rewrite (handleSubtaskDrop_dropped _ _ _ _ _ _ _ D NI F S), E.
      rewrite (dropped_source_first A B l1 p q _ N).
      eexists. split; [reflexivity|]. split; [|split].
      * destruct (dragOverInfo s) as [[? []]|]; rewrite <- app_assoc;
           apply Permutation_app_head.
        -- apply Permutation_middle.
        -- eapply perm_trans; [apply Permutation_middle|].
           apply Permutation_app_head, perm_swap.
        -- eapply perm_trans; [apply Permutation_middle|].
           apply Permutation_app_head, perm_swap.
      * rewrite (filter_without A l1 (p ++ B :: q)).
        destruct (dragOverInfo s) as [[? []]|].
        -- rewrite (filter_without A (l1 ++ p) (B :: q)). now rewrite <- app_assoc.
        -- replace ((l1 ++ p) ++ B :: A :: q)%list with (((l1 ++ p) ++ [B]) ++ A :: q)%list
             by (now rewrite <- !app_assoc).
           rewrite (filter_without A ((l1 ++ p) ++ [B]) q). now rewrite <- !app_assoc.
        -- replace ((l1 ++ p) ++ B :: A :: q)%list with (((l1 ++ p) ++ [B]) ++ A :: q)%list
             by (now rewrite <- !app_assoc).
           rewrite (filter_without A ((l1 ++ p) ++ [B]) q). now rewrite <- !app_assoc.
      * destruct (dragOverInfo s) as [[? []]|]; eauto.
  - intros other target O. unfold handleSubtaskDrop. rewrite D.
    destruct (String.eqb_spec taskId other); [congruence|reflexivity].
  - intros target T. unfold handleSubtaskDrop. rewrite D, T, Z.eqb_refl.
    now rewrite orb_true_r.
Qed.

(** C6.  Within one task whose subtasks have distinct identifiers, dropping
    the dragged subtask [A] on another subtask [B] only moves [A]: the task
    list afterwards is the list before with the subtasks of the parent task,
    at its index, in the new order; these are the same subtasks, the others
    keep their order, and [A] ends up immediately before [B] when the drop
    is on the upper half of [B] and immediately after [B] otherwise; the
    parent with the new order is what is sent to the store.  A drop on a
    subtask of another task, or on the dragged subtask itself, changes
    nothing. *)
Theorem handleSubtaskDrop_reorders (persisted : bool) (taskId : string)
    (dragged A B : Subtask) (parent : Task) (sts : list Subtask) (s : State) :
  draggedSubtaskRef s = Some (taskId, dragged) ->
  Subtask.id dragged = Subtask.id A ->
  find (fun t => String.eqb (Task.id t) taskId) (tasks s) = Some parent ->
  Task.subtasks parent = Some sts ->
  NoDup (map Subtask.id sts) ->
  In A sts -> In B sts -> A <> B ->
  (exists sts' s',
     handleSubtaskDrop persisted taskId B s = Some s'
     /\ tasks s'
        = map (fun t =>
                 if String.eqb (Task.id t) taskId
                 then Task.with_subtasks (Some sts') parent
                 else t) (tasks s)
     /\ (exists i,
           nth_error (tasks s) i = Some parent
           /\ nth_error (tasks s') i = Some (Task.with_subtasks (Some sts') parent))
     /\ Task.subtasks (Task.with_subtasks (Some sts') parent) = Some sts'
     /\ calls s' = updateTask (Task.with_subtasks (Some sts') parent) :: calls s
     /\ dragOverInfo s' = (if persisted then None else dragOverInfo s)
     /\ Permutation sts sts'
     /\ filter (fun st => negb (Subtask.id st =? Subtask.id A)) sts'
        = filter (fun st => negb (Subtask.id st =? Subtask.id A)) sts
     /\ match dragOverInfo s with
        | Some (_, top) => exists l1 l2, sts' = (l1 ++ A :: B :: l2)%list
        | _ => exists l1 l2, sts' = (l1 ++ B :: A :: l2)%list
        end)
  /\ (forall otherTaskId target,
        otherTaskId <> taskId ->
        handleSubtaskDrop persisted otherTaskId target s = Some s)
  /\ (forall target,
        Subtask.id target = Subtask.id dragged ->
        handleSubtaskDrop persisted taskId target s = Some s).
Proof.
  intros D E F S N IA IB NE.
  destruct (handleSubtaskDrop_reorders_state persisted taskId dragged A B parent sts s
              D E F S N IA IB NE) as ((sts' & H & P & Fl & Adj) & Other & Self).
  split; [|split; [exact Other|exact Self]].
  exists sts'. eexists. split; [exact H|].
  split; [destruct persisted; reflexivity|].
  split.
  - apply find_some in F. destruct F as [I Ei].
    destruct (In_nth_error _ _ I) as [i Hi]. exists i. split; [exact Hi|].
    replace (tasks _) with
      (map (fun t => if String.eqb (Task.id t) taskId
                     then Task.with_subtasks (Some sts') parent else t) (tasks s))
      by (destruct persisted; reflexivity).
    rewrite nth_error_map, Hi. cbn [option_map]. now rewrite Ei.
  - split; [now destruct parent|].
    split; [destruct persisted; reflexivity|].
    split; [destruct persisted; reflexivity|].
    split; [exact P|]. split; [exact Fl|exact Adj].
Qed.

(* ================================================================== *)
(** * The shopping list *)

Module SupermarketFacts.
Import Supermarket.

(** ** Doubles *)








(** ** The handlers *)

Section Items.

Variable parseFloat : string -> number.
Variable Number_prototype_toString : number -> string.






End Items.

End SupermarketFacts.



(* ================================================================== *)
(** * The theorems at work on sample data *)

Lemma handleToggleTask_recurring_witness :
  Task.recurring rent = Some monthly /\ Task.completed rent = false /\
  exists current updatedTask,
    Task.dueDate updatedTask = Some (calculateNextDueDate Brasilia current monthly)
    /\ Task.completed updatedTask = false
    /\ tasks (handleToggleTask Brasilia 1706700000000 true rent rent_screen)
       = sortTasks Brasilia (replaceById (Task.id rent) updatedTask (tasks rent_screen)).
Proof.
  split; [reflexivity|]. split; [reflexivity|].
  destruct (handleToggleTask_recurring Brasilia 1706700000000 true rent monthly rent_screen
              eq_refl eq_refl)
    as (current & updatedTask & _ & _ & D & C & _ & _ & _ & _ & _ & _ & T & _).
  exists current, updatedTask. split; [exact D|]. split; [exact C|exact T].
Defined.

Lemma rent_screen_ids : NoDup (map Task.id (tasks rent_screen)).
Proof.
  cbn. constructor.
  - intros [H|[]]. discriminate H.
  - constructor; [intros []|constructor].
Defined.

Lemma handleToggleSubtask_in_place_witness :
  NoDup (map Task.id (tasks rent_screen)) /\
  List.length (tasks (handleToggleSubtask true "rent" 2 rent_screen)) = 2%nat.
Proof.
  split; [exact rent_screen_ids|].
  exact (proj1 (handleToggleSubtask_in_place true "rent" 2 rent_screen rent_screen_ids)).
Defined.

Lemma rent_subtask_ids : NoDup (map Subtask.id [receipt; transfer; notify]).
Proof.
  cbn. constructor.
  - intros [H|[H|[]]]; discriminate H.
  - constructor.
    + intros [H|[]]. discriminate H.
    + constructor; [intros []|constructor].
Defined.

Lemma handleSubtaskDrop_reorders_witness :
  exists s',
    handleSubtaskDrop true "rent" notify dragging_receipt = Some s'
    /\ tasks s' = [Task.with_subtasks (Some [transfer; receipt; notify]) rent; report_a]
    /\ calls s' = [updateTask (Task.with_subtasks (Some [transfer; receipt; notify]) rent)].
Proof.
  assert (NE : receipt <> notify) by discriminate.
  destruct (proj1 (handleSubtaskDrop_reorders true "rent" receipt receipt notify rent
                     [receipt; transfer; notify] dragging_receipt
                     eq_refl eq_refl eq_refl eq_refl rent_subtask_ids
                     (or_introl eq_refl) (or_intror (or_intror (or_introl eq_refl))) NE))
    as (sts' & s' & H & T & _ & _ & C & _ & P & Fl & (l1 & l2 & L)).
  assert (E : sts' = [transfer; receipt; notify]).
  { apply Permutation_length in P. subst sts'. rewrite length_app in P. cbn in P, Fl.
    destruct l1 as [|x [|? ?]]; destruct l2 as [|y [|? ?]]; cbn in P; try lia; cbn in Fl.
    - destruct (Subtask.id y =? 1); discriminate.
    - destruct (Subtask.id x =? 1); cbn in Fl; [discriminate|].
      now injection Fl as ->. }
  clear L P Fl. subst sts'. exists s'. split; [exact H|]. split; [exact T|exact C].
Defined.



Lemma sortTasks_idempotent_witness :
  Forall (dated_ok Brasilia) [report_a; rent]
  /\ sortTasks Brasilia (sortTasks Brasilia [report_a; rent])
     = sortTasks Brasilia [report_a; rent].
Proof.
  assert (D : Forall (dated_ok Brasilia) [report_a; rent])
    by (repeat constructor; vm_compute; discriminate).
  split; [exact D|].
  exact (sortTasks_idempotent Brasilia [report_a; rent] D).
Defined.

(* ================================================================== *)
(** * The focus timer *)

Lemma timer_of_after_catch (c : Completion) :
  timer_of match c with Returned s' => s' | Thrown s' => console_error s' end
  = timer_of (state_of c).
Proof. now destruct c. Qed.

(** No handler of the task list touches the timer, except the click that
    selects a task to focus on. *)
Lemma step_timer (LocalTZA : Z -> bool -> Z) (greater_than_zero : JSON -> bool)
    (persisted : bool) (a : Action) (s s' : State) :
  step LocalTZA greater_than_zero persisted a s = Some s' ->
  (forall task, a <> SelectFocusTask task) ->
  timer_of s' = timer_of s.
Proof.
  intros St N. destruct a; cbn [step] in St; try (injection St as <-).
  - unfold handleSaveTask. destruct (String.eqb _ ""); [reflexivity|].
    destruct (editingTask s); destruct persisted; reflexivity.
  - unfold handleToggleTask.
    destruct (Task.recurring task); [destruct (Task.completed task)|];
      destruct persisted; reflexivity.
  - unfold handleToggleSubtask. destruct (find _ _) as [found|]; [|reflexivity].
    destruct (Task.subtasks found); reflexivity.
  - unfold handleDeleteTask.
    destruct (focusedTaskId s) as [f|]; [destruct (String.eqb f id)|];
      destruct persisted; reflexivity.
  - exfalso. now apply (N task).
  - unfold handleBreakdownTask.
    change (timer_of (setLoadingTaskId None ?x)) with (timer_of x).
    rewrite timer_of_after_catch.
    destruct response as [| |result]; try reflexivity.
    rewrite breakdown_parsed_state.
    destruct (generated_texts (Parsed result)); reflexivity.
  - reflexivity.
  - unfold handleSubtaskDragOver.
    destruct (draggedSubtaskRef s) as [[? dragged]|]; [|reflexivity].
    destruct (_ =? _); reflexivity.
  - reflexivity.
  - unfold handleSubtaskDrop in St.
    destruct (draggedSubtaskRef s) as [[sourceTaskId sourceSubtask]|];
      [|now injection St as <-].
    destruct (_ || _); [now injection St as <-|].
    destruct (find _ (tasks s)) as [found|]; [|now injection St as <-].
    destruct (Task.subtasks found) as [sts|]; [|now injection St as <-].
    destruct (splice sts _ 1 []) as [removed rest].
    destruct removed as [|movedItem removed]; [discriminate|].
    injection St as <-. destruct (dragOverInfo s) as [[? []]|]; destruct persisted; reflexivity.
  - reflexivity.
Qed.

Lemma handleSelectFocusTask_timer (task : Task) (s : State) :
  timer_of (handleSelectFocusTask task s) = timer_of s
  \/ timer_of (handleSelectFocusTask task s) = (focus, FOCUS_DURATION, isTimerActive s).
Proof.
  unfold handleSelectFocusTask.
  destruct (Task.completed task); [now left|].
  destruct (isTimerActive s) eqn:A; [now left|].
  cbn [timerMode timeLeft setFocusedTaskId]. unfold timer_of.
  destruct (timerMode s) eqn:M; [destruct (Z.eqb_spec (timeLeft s) FOCUS_DURATION)|];
    cbn; rewrite ?M, ?A; auto.
Qed.

Lemma tick_cases (p : Screen) :
  (isTimerActive (state p) = false /\ 0 < timeLeft (state p) /\ tick p = p)
  \/ (isTimerActive (state p) = true /\ 1 < timeLeft (state p)
      /\ tick p = mkScreen (setTimer (timerMode (state p)) (timeLeft (state p) - 1) (state p))
                    (pomodoroCount p) (isPomodoroExpanded p))
  \/ (timeLeft (state p) - (if isTimerActive (state p) then 1 else 0) <= 0
      /\ timer_of (state (tick p))
         = (other_mode (timerMode (state p)), duration (other_mode (timerMode (state p))), false)
      /\ tasks (state (tick p)) = tasks (state p)
      /\ pomodoroCount (tick p)
         = pomodoroCount p + match timerMode (state p) with focus => 1 | break => 0 end).
Proof.
  unfold tick, interval_callback, timeLeft_effect.
  destruct (isTimerActive (state p)) eqn:A.
  - cbn [state timeLeft timerMode setTimer].
    destruct (Z.leb_spec (timeLeft (state p) - 1) 0).
    + right. right. split; [lia|].
      destruct (timerMode (state p)); repeat split; cbn; lia.
    + right. left. repeat split. lia.
  - destruct (Z.leb_spec (timeLeft (state p)) 0).
    + right. right. split; [lia|].
      destruct (timerMode (state p)) eqn:M; repeat split; cbn; lia.
    + left. auto.
Qed.

(** X1.  The time left never leaves the loaded session.  From a settled
    screen with [0 < timeLeft <= duration timerMode], the render every event
    leads to shows [0 <= timeLeft <= duration timerMode]; it shows 0 only
    after the tick that ends a running session, the timer still active, and
    the effect that follows loads the next session, so that the screen
    settles with [0 < timeLeft] again.  The handlers of the task list other
    than [handleSelectFocusTask] leave mode, time left and activity of the
    timer as they are. *)
Theorem timer_stays_within_session (LocalTZA : Z -> bool -> Z)
    (greater_than_zero : JSON -> bool) (persisted : bool) (e : Event) (p r : Screen) :
  timer_ok (state p) ->
  render LocalTZA greater_than_zero persisted e p = Some r ->
  0 <= timeLeft (state r) <= duration (timerMode (state r))
  /\ (timeLeft (state r) = 0 ->
      e = Tick /\ isTimerActive (state p) = true /\ timeLeft (state p) = 1
      /\ isTimerActive (state r) = true)
  /\ handle LocalTZA greater_than_zero persisted e p = Some (timeLeft_effect r)
  /\ timer_ok (state (timeLeft_effect r))
  /\ (0 < timeLeft (state r) -> timeLeft_effect r = r)
  /\ (forall a, e = Act a -> (forall task, a <> SelectFocusTask task) ->
      timer_of (state r) = timer_of (state p)).
Proof.
  unfold timer_ok. intros I H.
  assert (Settle : 0 <= timeLeft (state r) <= duration (timerMode (state r)) ->
                   0 < timeLeft (state (timeLeft_effect r))
                       <= duration (timerMode (state (timeLeft_effect r)))
                   /\ (0 < timeLeft (state r) -> timeLeft_effect r = r)).
  { intros B. unfold timeLeft_effect.
    destruct (Z.leb_spec (timeLeft (state r)) 0) as [L|L].
    - split; [|lia]. destruct (timerMode (state r)); cbn; lia.
    - split; [lia|reflexivity]. }
  assert (Positive : 0 < timeLeft (state r) <= duration (timerMode (state r)) ->
            0 <= timeLeft (state r) <= duration (timerMode (state r))
            /\ (timeLeft (state r) = 0 ->
                e = Tick /\ isTimerActive (state p) = true /\ timeLeft (state p) = 1
                /\ isTimerActive (state r) = true)) by (intros B; split; lia).
  assert (K : forall s', timerMode s' = timerMode (state p) ->
              timeLeft s' = timeLeft (state p) ->
              0 < timeLeft s' <= duration (timerMode s')).
  { intros s' -> ->. exact I. }
  assert (G : (0 <= timeLeft (state r) <= duration (timerMode (state r))
               /\ (timeLeft (state r) = 0 ->
                   e = Tick /\ isTimerActive (state p) = true /\ timeLeft (state p) = 1
                   /\ isTimerActive (state r) = true))
              /\ (forall a, e = Act a -> (forall task, a <> SelectFocusTask task) ->
                  timer_of (state r) = timer_of (state p))).
  { destruct e; cbn [render] in H; try (injection H as <-); cbn [state];
      try (split; [apply Positive, K; reflexivity|discriminate]).
    - split; [|discriminate]. unfold interval_callback.
      destruct (isTimerActive (state p)) eqn:A; cbn [state timeLeft timerMode setTimer].
      + split; [lia|]. intros Z0. repeat split; try lia. cbn. exact A.
      + split; lia.
    - split; [|discriminate]. apply Positive. unfold handleStartTimer. cbn [state].
      destruct (isTimerActive (state p)); apply K; reflexivity.
    - split; [|discriminate]. apply Positive. cbn. destruct (timerMode (state p)); cbn; lia.
    - split; [|discriminate]. apply Positive.
      destruct (isTimerActive (state p)); exact I.
    - destruct (step _ _ _ a (state p)) as [s'|] eqn:St; [|discriminate].
      injection H as <-. cbn [state].
      assert (D : (exists task, a = SelectFocusTask task)
                  \/ forall task, a <> SelectFocusTask task).
      { destruct a; try (right; intros; discriminate). left. eauto. }
      destruct D as [[task ->]|N].
      + split; [|intros a [= <-] N; exfalso; now apply (N task)].
        apply Positive. cbn [state]. cbn in St. injection St as <-.
        destruct (handleSelectFocusTask_timer task (state p)) as [E|E].
        * unfold timer_of in E. injection E as E1 E2 _. now apply K.
        * unfold timer_of in E. injection E as -> -> _. cbn. lia.
      + pose proof (step_timer _ _ _ _ _ _ St N) as E. split.
        * apply Positive. cbn [state]. unfold timer_of in E. injection E as E1 E2 _. now apply K.
        * intros a0 [= <-] _. exact E. }
  destruct G as ((B & Z0) & T). destruct (Settle B) as (S1 & S2).
  split; [exact B|]. split; [exact Z0|]. split; [unfold handle; now rewrite H|].
  split; [exact S1|]. split; [exact S2|exact T].
Qed.

Lemma timer_of_eq (s : State) (m : TimerMode) (t : Z) (a : bool) :
  timer_of s = (m, t, a) <-> timerMode s = m /\ timeLeft s = t /\ isTimerActive s = a.
Proof.
  unfold timer_of. split; [intros E; repeat split; congruence|].
  now intros (-> & -> & ->).
Qed.

Lemma tick_inactive (p : Screen) :
  isTimerActive (state p) = false -> 0 < timeLeft (state p) -> tick p = p.
Proof.
  intros A L. destruct (tick_cases p) as [(_ & _ & E)|[(A' & _)|(L' & _)]].
  - exact E.
  - congruence.
  - rewrite A in L'. lia.
Qed.

Lemma duration_pos (m : TimerMode) : 0 < duration m.
Proof. destruct m; cbn; lia. Qed.

(** X2.  A running session of [n + 1] seconds counts down one second per tick,
    and the tick that reaches zero stops the timer and loads the other
    session at its full length; only a finished focus session is counted as a
    pomodoro, and further ticks change nothing. *)
Theorem timer_session_runs_out (p : Screen) (n : nat) :
  isTimerActive (state p) = true ->
  timeLeft (state p) = Z.of_nat (S n) ->
  (forall k, (k <= n)%nat ->
     timer_of (state (Nat.iter k tick p))
     = (timerMode (state p), Z.of_nat (S n) - Z.of_nat k, true)
     /\ pomodoroCount (Nat.iter k tick p) = pomodoroCount p)
  /\ (forall j,
        timer_of (state (Nat.iter (j + S n) tick p))
        = (other_mode (timerMode (state p)), duration (other_mode (timerMode (state p))), false)
        /\ pomodoroCount (Nat.iter (j + S n) tick p)
           = pomodoroCount p + match timerMode (state p) with focus => 1 | break => 0 end
        /\ tasks (state (Nat.iter (j + S n) tick p)) = tasks (state p)).
Proof.
  intros A L.
  assert (R : forall k, (k <= n)%nat ->
     timer_of (state (Nat.iter k tick p))
     = (timerMode (state p), Z.of_nat (S n) - Z.of_nat k, true)
     /\ pomodoroCount (Nat.iter k tick p) = pomodoroCount p
     /\ tasks (state (Nat.iter k tick p)) = tasks (state p)).
  { induction k as [|k IH]; intros Hk.
    - cbn [Nat.iter nat_rect]. unfold timer_of. rewrite A, L. repeat split.
    - destruct IH as (T & C & K); [lia|].
      change (Nat.iter (S k) tick p) with (tick (Nat.iter k tick p)).
      set (q := Nat.iter k tick p) in *. apply timer_of_eq in T. destruct T as (M & T' & A').
      destruct (tick_cases q) as [(F & _)|[(_ & _ & ->)|(F & _)]].
      + congruence.
      + unfold timer_of.
        cbn [state pomodoroCount timerMode timeLeft isTimerActive tasks setTimer].
        rewrite M, T', A', C, K. repeat split. do 2 f_equal. lia.
      + rewrite A' in F. lia. }
  split; [intros k Hk; destruct (R k Hk) as (T & C & _); now split|].
  assert (E : timer_of (state (Nat.iter (S n) tick p))
        = (other_mode (timerMode (state p)), duration (other_mode (timerMode (state p))), false)
        /\ pomodoroCount (Nat.iter (S n) tick p)
           = pomodoroCount p + match timerMode (state p) with focus => 1 | break => 0 end
        /\ tasks (state (Nat.iter (S n) tick p)) = tasks (state p)).
  { destruct (R n (Nat.le_refl n)) as (T & C & K).
    change (Nat.iter (S n) tick p) with (tick (Nat.iter n tick p)).
    set (q := Nat.iter n tick p) in *. apply timer_of_eq in T. destruct T as (M & T' & A').
    destruct (tick_cases q) as [(F & _)|[(_ & F & _)|(_ & T & K' & C')]].
    - congruence.
    - lia.
    - rewrite T, K', C', M, C, K. auto. }
  induction j as [|j IH]; [exact E|].
  change (Nat.iter (S j + S n) tick p) with (tick (Nat.iter (j + S n) tick p)).
  destruct IH as (T & C & K).
  rewrite tick_inactive; [auto| |].
  - unfold timer_of in T. now injection T.
  - unfold timer_of in T. injection T as _ -> _. apply duration_pos.
Qed.

Lemma timer_session_runs_out_witness :
  let p := mkScreen (setIsTimerActive true (setTimer break 3 rent_screen)) 0 true in
  timer_of (state (Nat.iter 3 tick p)) = (focus, FOCUS_DURATION, false).
Proof.
  intros p.
  exact (proj1 (proj2 (timer_session_runs_out p 2 eq_refl eq_refl) 0%nat)).
Defined.

(** X3.  The clock face: for a time left below one hundred minutes the
    two fields shown are two digits each, they read as the whole minutes and
    the remaining seconds, and together they give the time left back. *)
Theorem timer_display_reads_back (timeLeft : Z) :
  0 <= timeLeft < 6000 ->
  exists m1 m2 s1 s2,
    minutes timeLeft = String (digit_char m1) (String (digit_char m2) EmptyString)
    /\ seconds timeLeft = String (digit_char s1) (String (digit_char s2) EmptyString)
    /\ 0 <= m1 <= 9 /\ 0 <= m2 <= 9 /\ 0 <= s1 <= 5 /\ 0 <= s2 <= 9
    /\ number_of (list_ascii_of_string (minutes timeLeft)) = Some (10 * m1 + m2)
    /\ number_of (list_ascii_of_string (seconds timeLeft)) = Some (10 * s1 + s2)
    /\ 60 * (10 * m1 + m2) + (10 * s1 + s2) = timeLeft.
Proof.
  intros H. unfold minutes, seconds.
  rewrite Z.rem_mod_nonneg by lia.
  rewrite !padStart2_Number_toString by zdiv.
  exists (timeLeft / 60 / 10), ((timeLeft / 60) mod 10),
         (timeLeft mod 60 / 10), ((timeLeft mod 60) mod 10).
  cbn [list_ascii_of_string]. rewrite !number_of_2 by zdiv.
  repeat split; try zdiv.
Qed.

Lemma timer_display_reads_back_witness :
  exists m1 m2 s1 s2,
    minutes 1499 = String (digit_char m1) (String (digit_char m2) EmptyString)
    /\ seconds 1499 = String (digit_char s1) (String (digit_char s2) EmptyString)
    /\ 0 <= m1 <= 9 /\ 0 <= m2 <= 9 /\ 0 <= s1 <= 5 /\ 0 <= s2 <= 9
    /\ number_of (list_ascii_of_string (minutes 1499)) = Some (10 * m1 + m2)
    /\ number_of (list_ascii_of_string (seconds 1499)) = Some (10 * s1 + s2)
    /\ 60 * (10 * m1 + m2) + (10 * s1 + s2) = 1499.
Proof. apply timer_display_reads_back. lia. Defined.

(** X4.  Choosing a task to focus on: the click is ignored for a completed
    task and while the timer runs; otherwise it focuses the task, or
    unfocuses it when it was the focused one, and always leaves a fresh,
    stopped focus session, whatever session was loaded.  A second click
    on the same task undoes the first only for the task that had the focus:
    the focus on another task is lost. *)
Theorem handleSelectFocusTask_toggles_focus (task : Task) (s : State) :
  (Task.completed task = true \/ isTimerActive s = true ->
   handleSelectFocusTask task s = s)
  /\ (Task.completed task = false -> isTimerActive s = false ->
      let on_task f :=
        match f with Some f => String.eqb f (Task.id task) | None => false end in
      let s' := handleSelectFocusTask task s in
      focusedTaskId s' = (if on_task (focusedTaskId s) then None else Some (Task.id task))
      /\ timer_of s' = (focus, FOCUS_DURATION, false)
      /\ tasks s' = tasks s
      /\ focusedTaskId (handleSelectFocusTask task s')
         = (if on_task (focusedTaskId s) then Some (Task.id task) else None)).
Proof.
  split.
  - unfold handleSelectFocusTask. intros [->| ->]; [reflexivity|].
    now destruct (Task.completed task).
  - intros C A on_task s'.
    assert (G : forall s0, isTimerActive s0 = false ->
              focusedTaskId (handleSelectFocusTask task s0)
              = (if on_task (focusedTaskId s0) then None else Some (Task.id task))
              /\ timer_of (handleSelectFocusTask task s0) = (focus, FOCUS_DURATION, false)
              /\ tasks (handleSelectFocusTask task s0) = tasks s0).
    { intros s0 A0. unfold handleSelectFocusTask. rewrite C, A0.
      cbn [timerMode timeLeft setFocusedTaskId]. unfold timer_of, on_task.
      destruct (timerMode s0) eqn:M;
        [destruct (Z.eqb_spec (timeLeft s0) FOCUS_DURATION) as [T|T]|];
        cbn; rewrite ?M, ?A0, ?T;
        (split; [destruct (focusedTaskId s0) as [f|]; [destruct (String.eqb f _)|]|]);
        auto. }
    destruct (G s A) as (F & T & K). fold s' in F, T, K.
    split; [exact F|]. split; [exact T|]. split; [exact K|].
    destruct (G s') as (F' & _); [unfold timer_of in T; now injection T|].
    rewrite F', F. destruct (on_task (focusedTaskId s)); cbn; [reflexivity|].
    now rewrite String.eqb_refl.
Qed.

Lemma handleSelectFocusTask_toggles_focus_witness :
  focusedTaskId (handleSelectFocusTask rent rent_screen) = Some (Task.id rent)
  /\ focusedTaskId (handleSelectFocusTask rent (handleSelectFocusTask rent rent_screen)) = None.
Proof.
  destruct (proj2 (handleSelectFocusTask_toggles_focus rent rent_screen) eq_refl eq_refl)
    as (F & _ & _ & G).
  split; [exact F|exact G].
Defined.

Lemma timer_stays_within_session_witness :
  timer_ok (state last_second)
  /\ render Brasilia (fun _ => true) true Tick last_second
     = Some (interval_callback last_second)
  /\ timer_of (state (interval_callback last_second)) = (focus, 0, true)
  /\ handle Brasilia (fun _ => true) true Tick last_second
     = Some (timeLeft_effect (interval_callback last_second))
  /\ timer_ok (state (timeLeft_effect (interval_callback last_second)))
  /\ timer_of (state (timeLeft_effect (interval_callback last_second)))
     = (break, BREAK_DURATION, false).
Proof.
  assert (I : timer_ok (state last_second)) by (unfold timer_ok; cbn; lia).
  pose proof (timer_stays_within_session Brasilia (fun _ => true) true Tick last_second
                (interval_callback last_second) I eq_refl) as (_ & _ & H & T & _).
  split; [exact I|]. split; [reflexivity|]. split; [reflexivity|].
  split; [exact H|]. split; [exact T|reflexivity].
Defined.

(* ================================================================== *)
(** * The task list under every action *)

Section ArrayBounds.
Context {A : Type}.

Lemma findIndex_from_range (p : A -> bool) (l : list A) (i : Z) :
  findIndex_from p l i = -1
  \/ i <= findIndex_from p l i < i + Z.of_nat (List.length l).
Proof.
  revert i. induction l as [|x l IH]; intros i; cbn [findIndex_from List.length]; [now left|].
  destruct (p x); [right; lia|].
  destruct (IH (i + 1)) as [E|R]; [now left|right; lia].
Qed.

Lemma findIndex_range (p : A -> bool) (l : list A) :
  (0 < Z.of_nat (List.length l) /\ -1 <= findIndex p l < Z.of_nat (List.length l))
  \/ l = [].
Proof.
  destruct l as [|x l]; [now right|left].
  unfold findIndex. destruct (findIndex_from_range p (x :: l) 0) as [->|R]; cbn [List.length] in *; lia.
Qed.

(** What [splice] takes out and what it leaves make up the array. *)
Lemma splice_remove_perm (l : list A) (start deleteCount : Z) :
  Permutation l (fst (splice l start deleteCount []) ++ snd (splice l start deleteCount [])).
Proof.
  unfold splice. cbn [fst snd app].
  generalize (Z.to_nat (Z.min (Z.max deleteCount 0)
                (Z.of_nat (List.length l)
                 - (if start <? 0 then Z.max (Z.of_nat (List.length l) + start) 0
                    else Z.min start (Z.of_nat (List.length l)))))).
  generalize (Z.to_nat (if start <? 0 then Z.max (Z.of_nat (List.length l) + start) 0
                        else Z.min start (Z.of_nat (List.length l)))).
  intros k n.
  rewrite Permutation_app_swap_app.
  rewrite <- (firstn_skipn k l) at 1. apply Permutation_app_head.
  rewrite <- (firstn_skipn n (skipn k l)) at 1. apply Permutation_app_head.
  now rewrite skipn_skipn, Nat.add_comm.
Qed.

(** [splice] with nothing to delete only adds the items. *)
Lemma splice_insert_perm (l items : list A) (start : Z) :
  Permutation (items ++ l) (snd (splice l start 0 items)).
Proof.
  unfold splice. cbn [snd].
  set (k := Z.to_nat _).
  replace (Z.to_nat (Z.min (Z.max 0 0) _)) with 0%nat by lia.
  rewrite Nat.add_0_r, Permutation_app_swap_app.
  apply Permutation_app_head. now rewrite firstn_skipn.
Qed.

(** Taking one element out at an index [findIndex] gave: only an empty array
    gives nothing, and -1 takes the last element. *)
Lemma splice_one_at_index (l : list A) (i : Z) :
  0 < Z.of_nat (List.length l) /\ -1 <= i < Z.of_nat (List.length l) ->
  exists x, fst (splice l i 1 []) = [x].
Proof.
  intros R. unfold splice. cbn [fst].
  set (len := Z.of_nat (List.length l)) in *.
  set (actualStart := if i <? 0 then Z.max (len + i) 0 else Z.min i len).
  assert (B : 0 <= actualStart < len).
  { unfold actualStart. destruct (Z.ltb_spec i 0); lia. }
  replace (Z.to_nat (Z.min (Z.max 1 0) (len - actualStart))) with 1%nat by lia.
  destruct (skipn (Z.to_nat actualStart) l) as [|x r] eqn:E.
  - exfalso. apply (f_equal (@List.length A)) in E. rewrite length_skipn in E.
    cbn [List.length] in E. unfold len in B. lia.
  - exists x. reflexivity.
Qed.
End ArrayBounds.

Lemma dropped_perm (sourceId targetId : Z) (over : option (Z * Position))
    (sts : list Subtask) :
  match dropped sourceId targetId over sts with
  | Some sts' => Permutation sts sts'
  | None => sts = []
  end.
Proof.
  unfold dropped.
  set (sourceIndex := findIndex _ sts). set (targetIndex := findIndex _ sts).
  pose proof (splice_remove_perm sts sourceIndex 1) as P.
  destruct (findIndex_range (fun st => Subtask.id st =? sourceId) sts) as [R| ->];
    [|reflexivity].
  destruct (splice_one_at_index sts sourceIndex R) as [movedItem E].
  destruct (splice sts sourceIndex 1 []) as [removed rest]. cbn [fst snd] in *. subst removed.
  rewrite P. cbn [app].
  destruct over as [[? []]|]; apply (splice_insert_perm rest [movedItem]).
Qed.

Section TaskList.

Variable LocalTZA : Z -> bool -> Z.
Variable greater_than_zero : JSON -> bool.

Lemma ids_replaceById (id : string) (u : Task) (l : list Task) :
  Task.id u = id -> map Task.id (replaceById id u l) = map Task.id l.
Proof.
  intros <-. unfold replaceById. rewrite map_map. apply map_ext. intros t.
  destruct (String.eqb_spec (Task.id t) (Task.id u)); congruence.
Qed.

Lemma ids_sortTasks (l : list Task) :
  Permutation (map Task.id (sortTasks LocalTZA l)) (map Task.id l).
Proof. apply Permutation_map, Permutation_sym, sortTasks_perm. Qed.

Lemma find_id (l : list Task) (id : string) (found : Task) :
  find (fun t => String.eqb (Task.id t) id) l = Some found ->
  In found l /\ Task.id found = id.
Proof. intros F. apply find_some in F. now rewrite String.eqb_eq in F. Qed.

(** How an action changes the list of tasks: not at all; by replacing the
    task of one identifier and sorting; by adding the created task and
    sorting; by filtering one identifier out; or by giving a listed task
    other subtasks, in place. *)
Lemma step_tasks (persisted : bool) (a : Action) (s s' : State) :
  step LocalTZA greater_than_zero persisted a s = Some s' ->
  tasks s' = tasks s
  \/ (exists u, tasks s' = sortTasks LocalTZA (replaceById (Task.id u) u (tasks s)))
  \/ (exists newId data,
        a = SaveTask newId /\ editingTask s = None
        /\ tasks s' = sortTasks LocalTZA (addTask_result newId data :: tasks s))
  \/ (exists id,
        a = DeleteTask id
        /\ tasks s' = filter (fun t => negb (String.eqb (Task.id t) id)) (tasks s))
  \/ (exists id found subtasks,
        find (fun t => String.eqb (Task.id t) id) (tasks s) = Some found
        /\ tasks s' = replaceById id (Task.with_subtasks subtasks found) (tasks s)).
Proof.
  intros St. destruct a; cbn [step] in St; try (injection St as <-).
  - unfold handleSaveTask. destruct (String.eqb _ ""); [now left|].
    destruct (editingTask s) as [editing|] eqn:E.
    + destruct persisted; [|now left]. right. left.
      destruct (formIsRecurring s); eexists;
        cbn [tasks closeModal setIsModalOpen setTasks call];
        match goal with
        | |- sortTasks _ (replaceById _ ?u _) = _ => change (Task.id editing) with (Task.id u)
        end; reflexivity.
    + destruct persisted; [|now left]. right. right. left.
      exists newId. eexists. repeat split.
  - right. left. unfold handleToggleTask.
    destruct (Task.recurring task), (Task.completed task), persisted; eexists;
      cbn [tasks setOpenMenuId setTasks call];
      match goal with
      | |- sortTasks _ (replaceById _ ?u _) = _ => change (Task.id task) with (Task.id u)
      end; reflexivity.
  - unfold handleToggleSubtask.
    destruct (find _ (tasks s)) as [found|] eqn:F; [|now left].
    destruct (Task.subtasks found) as [sts|]; [|now left].
    right. right. right. right.
    exists taskId, found. eexists. split; [exact F|reflexivity].
  - right. right. right. left. exists id. split; [reflexivity|].
    apply handleDeleteTask_tasks.
  - left. apply handleSelectFocusTask_tasks.
  - unfold handleBreakdownTask. cbn [tasks setLoadingTaskId].
    rewrite tasks_after_catch.
    destruct response as [| |result]; try (now left).
    rewrite breakdown_parsed_state.
    destruct (generated_texts (Parsed result)) as [texts|]; [|now left].
    right. left. eexists. cbn [tasks call setTasks setOpenMenuId setLoadingTaskId].
    match goal with
    | |- sortTasks _ (replaceById _ ?u _) = _ => change (Task.id task) with (Task.id u)
    end. reflexivity.
  - now left.
  - left. unfold handleSubtaskDragOver.
    destruct (draggedSubtaskRef s) as [[? dragged]|]; [|reflexivity].
    destruct (_ =? _); reflexivity.
  - now left.
  - unfold handleSubtaskDrop in St.
    destruct (draggedSubtaskRef s) as [[sourceTaskId sourceSubtask]|];
      [|injection St as <-; now left].
    destruct (_ || _); [injection St as <-; now left|].
    destruct (find _ (tasks s)) as [found|] eqn:F; [|injection St as <-; now left].
    destruct (Task.subtasks found) as [sts|]; [|injection St as <-; now left].
    destruct (splice sts _ 1 []) as [removed rest].
    destruct removed as [|movedItem removed]; [discriminate|].
    injection St as <-. right. right. right. right.
    exists targetTaskId, found. eexists. split; [exact F|].
    destruct persisted; reflexivity.
  - now left.
Qed.

Lemma NoDup_ids_filter (p : Task -> bool) (l : list Task) :
  NoDup (map Task.id l) -> NoDup (map Task.id (filter p l)).
Proof.
  induction l as [|x l IH]; cbn [map filter]; intros N; [exact N|].
  inversion N as [|? ? NI N']; subst.
  destruct (p x); [|now apply IH]. cbn [map]. constructor; [|now apply IH].
  intros I. apply NI. apply in_map_iff in I. destruct I as (t & E & I).
  apply filter_In in I. rewrite <- E. now apply in_map.
Qed.

Lemma id_with_subtasks (sts : option (list Subtask)) (t : Task) :
  Task.id (Task.with_subtasks sts t) = Task.id t.
Proof. now destruct t. Qed.

(** The identifiers after an action. *)
Lemma step_ids (persisted : bool) (a : Action) (s s' : State) :
  step LocalTZA greater_than_zero persisted a s = Some s' ->
  Permutation (task_ids s') (task_ids s)
  \/ (exists newId,
        a = SaveTask newId /\ editingTask s = None
        /\ Permutation (task_ids s') (newId :: task_ids s))
  \/ (exists id,
        a = DeleteTask id
        /\ task_ids s'
           = map Task.id (filter (fun t => negb (String.eqb (Task.id t) id)) (tasks s))).
Proof.
  intros St. unfold task_ids.
  destruct (step_tasks _ _ _ _ St)
    as [E|[(u & E)|[(newId & data & A & N & E)|[(id & A & E)|(id & found & sts & F & E)]]]];
    rewrite E.
  - now left.
  - left. now rewrite ids_sortTasks, ids_replaceById.
  - right. left. exists newId. repeat split; try assumption. now rewrite ids_sortTasks.
  - right. right. eauto.
  - left. rewrite ids_replaceById; [reflexivity|].
    rewrite id_with_subtasks. now apply find_id in F.
Qed.

(** X5.  Task identifiers stay distinct.  No action gives two tasks the same
    identifier, provided the identifier the store hands out for a created
    task is not in use; and no identifier appears on the screen that was
    not there already, the created one apart. *)
Theorem task_ids_stay_unique (persisted : bool) (a : Action) (s s' : State) :
  NoDup (task_ids s) ->
  (forall newId, a = SaveTask newId -> editingTask s = None -> ~ In newId (task_ids s)) ->
  step LocalTZA greater_than_zero persisted a s = Some s' ->
  NoDup (task_ids s')
  /\ (forall id, In id (task_ids s') -> In id (task_ids s) \/ a = SaveTask id).
Proof.
  intros N Fresh St.
  destruct (step_ids _ _ _ _ St) as [P|[(newId & A & E & P)|(id & A & ->)]].
  - split; [now apply (Permutation_NoDup (Permutation_sym P))|].
    intros id I. left. now apply (Permutation_in _ P).
  - split.
    + apply (Permutation_NoDup (Permutation_sym P)). constructor; [now apply Fresh|exact N].
    + intros id I. apply (Permutation_in _ P) in I. destruct I as [<-|I]; auto.
  - split; [now apply NoDup_ids_filter|].
    intros i I. left. apply in_map_iff in I. destruct I as (t & <- & I).
    apply filter_In in I. now apply in_map.
Qed.

(** ** The order of the list *)

Lemma precedes_keys (a a' b b' : Task) :
  same_keys a a' -> same_keys b b' ->
  precedes LocalTZA a b -> precedes LocalTZA a' b'.
Proof.
  unfold same_keys, precedes, due_time, dueDate_object.
  intros (Ia & Ca & Pa & Da) (Ib & Cb & Pb & Db).
  now rewrite Ia, Ca, Pa, Da, Ib, Cb, Pb, Db.
Qed.

Lemma same_keys_with_subtasks (sts : option (list Subtask)) (t : Task) :
  same_keys t (Task.with_subtasks sts t).
Proof. now destruct t. Qed.

Lemma StronglySorted_map_keys (g : Task -> Task) (l : list Task) :
  (forall t, In t l -> same_keys t (g t)) ->
  StronglySorted (precedes LocalTZA) l ->
  StronglySorted (precedes LocalTZA) (map g l).
Proof.
  intros K S. induction S as [|x l S IH F]; cbn [map]; constructor.
  - apply IH. intros t I. apply K. now right.
  - apply Forall_forall. intros y I. apply in_map_iff in I. destruct I as (t & <- & I).
    rewrite Forall_forall in F.
    apply (precedes_keys x (g x) t (g t)); [apply K; now left|apply K; now right|now apply F].
Qed.

Lemma StronglySorted_filter_tasks (p : Task -> bool) (l : list Task) :
  StronglySorted (precedes LocalTZA) l ->
  StronglySorted (precedes LocalTZA) (filter p l).
Proof.
  intros S. induction S as [|x l S IH F]; cbn [filter]; [constructor|].
  destruct (p x); [|exact IH]. constructor; [exact IH|].
  rewrite Forall_forall in *. intros y I. apply filter_In in I. now apply F.
Qed.

(** Replacing a listed task by itself with other subtasks keeps every key. *)
Lemma replaceById_keys (id : string) (found : Task) (sts : option (list Subtask))
    (l : list Task) (t : Task) :
  NoDup (map Task.id l) ->
  find (fun t => String.eqb (Task.id t) id) l = Some found ->
  In t l ->
  (if String.eqb (Task.id t) id then Task.with_subtasks sts found else t)
  = (if String.eqb (Task.id t) id then Task.with_subtasks sts t else t).
Proof.
  intros N F I. destruct (String.eqb_spec (Task.id t) id) as [E|_]; [|reflexivity].
  now rewrite (find_id_unique _ _ _ _ N F I E).
Qed.

(** X6.  The list stays in the order [sortTasks] gives, tier by tier, under
    every action, as long as the due dates it ends up with are readable:
    the handlers that skip the sort (a subtask ticked, a subtask dropped)
    touch no key of the order, and deleting keeps the order of the rest. *)
Theorem task_list_stays_sorted (persisted : bool) (a : Action) (s s' : State) :
  NoDup (task_ids s) ->
  StronglySorted (precedes LocalTZA) (tasks s) ->
  step LocalTZA greater_than_zero persisted a s = Some s' ->
  Forall (dated_ok LocalTZA) (tasks s') ->
  StronglySorted (precedes LocalTZA) (tasks s').
Proof.
  intros N S St D.
  destruct (step_tasks _ _ _ _ St)
    as [E|[(u & E)|[(newId & data & A & _ & E)|[(id & A & E)|(id & found & sts & F & E)]]]];
    rewrite E in *.
  - exact S.
  - apply sortTasks_tiers. eapply Permutation_Forall; [|exact D].
    apply Permutation_sym, sortTasks_perm.
  - apply sortTasks_tiers. eapply Permutation_Forall; [|exact D].
    apply Permutation_sym, sortTasks_perm.
  - now apply StronglySorted_filter_tasks.
  - unfold replaceById. apply StronglySorted_map_keys; [|exact S].
    intros t I. rewrite (replaceById_keys id found sts (tasks s) t N F I).
    destruct (String.eqb (Task.id t) id); [apply same_keys_with_subtasks|].
    repeat split.
Qed.

(** ** The focused task *)

Lemma find_listed (l : list Task) (f : string) :
  In f (map Task.id l) <->
  exists t, find (fun t => String.eqb (Task.id t) f) l = Some t /\ Task.id t = f.
Proof.
  split.
  - intros I. destruct (find (fun t => String.eqb (Task.id t) f) l) as [t|] eqn:F.
    + exists t. split; [reflexivity|]. now apply find_id in F.
    + exfalso. apply in_map_iff in I. destruct I as (t & E & I).
      apply (find_id_none _ _ _ F I). exact E.
  - intros (t & F & <-). apply find_id in F. now apply in_map.
Qed.

Lemma focus_ok_listed (s : State) :
  focus_ok s <-> forall f, focusedTaskId s = Some f -> In f (task_ids s).
Proof.
  unfold focus_ok, focusedTask, task_ids. destruct (focusedTaskId s) as [f|].
  - rewrite <- find_listed. split; [now intros I ? [= <-]|auto].
  - split; [discriminate|auto].
Qed.

Lemma step_focusedTaskId (persisted : bool) (a : Action) (s s' : State) :
  step LocalTZA greater_than_zero persisted a s = Some s' ->
  focusedTaskId s'
  = match a with
    | DeleteTask id =>
        match focusedTaskId s with
        | Some f => if String.eqb f id then None else Some f
        | None => None
        end
    | SelectFocusTask task => focusedTaskId (handleSelectFocusTask task s)
    | _ => focusedTaskId s
    end.
Proof.
  intros St. destruct a; cbn [step] in St; try (injection St as <-); try reflexivity.
  - unfold handleSaveTask. destruct (String.eqb _ ""); [reflexivity|].
    destruct (editingTask s); destruct persisted; reflexivity.
  - unfold handleToggleTask.
    destruct (Task.recurring task); [destruct (Task.completed task)|];
      destruct persisted; reflexivity.
  - unfold handleToggleSubtask. destruct (find _ _) as [found|]; [|reflexivity].
    destruct (Task.subtasks found); reflexivity.
  - apply handleDeleteTask_focusedTaskId.
  - unfold handleBreakdownTask. cbn [focusedTaskId setLoadingTaskId].
    rewrite focusedTaskId_after_catch.
    destruct response as [| |result]; try reflexivity.
    rewrite breakdown_parsed_state.
    destruct (generated_texts (Parsed result)); reflexivity.
  - unfold handleSubtaskDragOver.
    destruct (draggedSubtaskRef s) as [[? dragged]|]; [|reflexivity].
    destruct (_ =? _); reflexivity.
  - unfold handleSubtaskDrop in St.
    destruct (draggedSubtaskRef s) as [[sourceTaskId sourceSubtask]|];
      [|now injection St as <-].
    destruct (_ || _); [now injection St as <-|].
    destruct (find _ (tasks s)) as [found|]; [|now injection St as <-].
    destruct (Task.subtasks found) as [sts|]; [|now injection St as <-].
    destruct (splice sts _ 1 []) as [removed rest].
    destruct removed as [|movedItem removed]; [discriminate|].
    injection St as <-. destruct persisted; reflexivity.
Qed.

Lemma handleSelectFocusTask_focusedTaskId (task : Task) (s : State) :
  focusedTaskId (handleSelectFocusTask task s) = focusedTaskId s
  \/ focusedTaskId (handleSelectFocusTask task s) = None
  \/ focusedTaskId (handleSelectFocusTask task s) = Some (Task.id task).
Proof.
  unfold handleSelectFocusTask.
  destruct (Task.completed task); [now left|].
  destruct (isTimerActive s); [now left|]. right.
  cbn [timerMode timeLeft setFocusedTaskId].
  destruct (timerMode s); [destruct (_ =? _)|]; cbn;
    (destruct (focusedTaskId s) as [f|]; [destruct (String.eqb f (Task.id task))|]); auto.
Qed.

(** X7.  The focus never dangles: when the task chosen for focus is one of
    the list, the focused identifier names a listed task after every action,
    so [focusedTask] finds it; deleting the focused task clears the focus. *)
Theorem focused_task_stays_listed (persisted : bool) (a : Action) (s s' : State) :
  focus_ok s ->
  (forall task, a = SelectFocusTask task -> In task (tasks s)) ->
  step LocalTZA greater_than_zero persisted a s = Some s' ->
  focus_ok s'.
Proof.
  rewrite !focus_ok_listed. intros I Listed St f' F'.
  rewrite (step_focusedTaskId _ _ _ _ St) in F'.
  assert (K : forall f, In f (task_ids s) ->
              (forall id, a = DeleteTask id -> f <> id) -> In f (task_ids s')).
  { intros f If Nd.
    destruct (step_ids _ _ _ _ St) as [P|[(newId & A & E & P)|(id & A & ->)]].
    - now apply (Permutation_in _ (Permutation_sym P)).
    - apply (Permutation_in _ (Permutation_sym P)). now right.
    - unfold task_ids in If. apply in_map_iff in If. destruct If as (t & <- & It).
      apply in_map, filter_In. split; [exact It|].
      apply negb_true_iff, String.eqb_neq. now apply Nd. }
  destruct a; try (apply K; [now apply I|discriminate]).
  - destruct (focusedTaskId s) as [f|] eqn:F; [|discriminate].
    destruct (String.eqb_spec f id) as [E|E]; [discriminate|]. injection F' as <-.
    apply K; [now apply I|]. now intros ? [= <-].
  - destruct (handleSelectFocusTask_focusedTaskId task s) as [E|[E|E]];
      rewrite E in F'.
    + apply K; [now apply I|discriminate].
    + discriminate.
    + injection F' as <-. apply K; [|discriminate].
      apply in_map. now apply Listed.
Qed.

(** ** Subtasks *)

Lemma toggle_subtask_twice (subtaskId : Z) (st : Subtask) :
  (let toggle st :=
     if Subtask.id st =? subtaskId
     then Subtask.with_completed (negb (Subtask.completed st)) st
     else st in
   toggle (toggle st)) = st.
Proof.
  destruct st as [id text completed]. cbn.
  destruct (id =? subtaskId) eqn:E; cbn; rewrite ?E; cbn; [|reflexivity].
  now rewrite negb_involutive.
Qed.

(** X8.  Ticking the same subtask twice gives the list of tasks back, when
    task identifiers are distinct. *)
Theorem handleToggleSubtask_twice (persisted persisted' : bool) (taskId : string)
    (subtaskId : Z) (s : State) :
  NoDup (task_ids s) ->
  tasks (handleToggleSubtask persisted' taskId subtaskId
           (handleToggleSubtask persisted taskId subtaskId s))
  = tasks s.
Proof.
  intros N. unfold task_ids in N.
  assert (N' : NoDup (map Task.id (tasks (handleToggleSubtask persisted taskId subtaskId s)))).
  { rewrite handleToggleSubtask_tasks by exact N. rewrite map_map.
    erewrite map_ext; [exact N|].
    intros t. cbn. destruct (String.eqb (Task.id t) taskId); [|reflexivity].
    apply id_with_subtasks. }
  rewrite handleToggleSubtask_tasks by exact N'.
  rewrite handleToggleSubtask_tasks by exact N.
  rewrite map_map. rewrite <- (map_id (tasks s)) at 2. apply map_ext.
  intros t. destruct (String.eqb (Task.id t) taskId) eqn:E; [|now rewrite E].
  rewrite id_with_subtasks, E.
  destruct t as [id text completed dueDate importance recurring [sts|]];
    cbn; unfold Task.with_subtasks; cbn; [|reflexivity].
  do 2 f_equal. rewrite map_map.
  transitivity (map (fun st => st) sts); [|apply map_id].
  apply map_ext, toggle_subtask_twice.
Qed.

Lemma Forall2_map_self {A : Type} (R : A -> A -> Prop) (g : A -> A) (l : list A) :
  (forall x, In x l -> R x (g x)) -> Forall2 R l (map g l).
Proof.
  induction l as [|x l IH]; cbn [map]; intros H; constructor.
  - apply H. now left.
  - apply IH. intros y I. apply H. now right.
Qed.

Lemma subtasks_permuted_refl (t : Task) : subtasks_permuted t t.
Proof.
  split; [symmetry; apply Task_with_own_subtasks|].
  destruct (Task.subtasks t); auto.
Qed.

(** X9.  A drop never loses or duplicates a subtask, whatever subtask the
    drag started from and whatever subtask it ends on: every task is what it
    was, the subtasks of one of them at most in another order.  The one
    case with no list of subtasks to show is a drop within a task whose
    array of subtasks is empty. *)
Theorem handleSubtaskDrop_keeps_subtasks (persisted : bool) (targetTaskId : string)
    (targetSubtask : Subtask) (s : State) :
  NoDup (task_ids s) ->
  match handleSubtaskDrop persisted targetTaskId targetSubtask s with
  | Some s' => Forall2 subtasks_permuted (tasks s) (tasks s')
  | None =>
      exists parent,
        find (fun t => String.eqb (Task.id t) targetTaskId) (tasks s) = Some parent
        /\ Task.subtasks parent = Some []
  end.
Proof.
  intros N.
  assert (Same : Forall2 subtasks_permuted (tasks s) (tasks s)).
  { rewrite <- (map_id (tasks s)) at 2. apply Forall2_map_self.
    intros t _. apply subtasks_permuted_refl. }
  destruct (draggedSubtaskRef s) as [[sourceTaskId dragged]|] eqn:D;
    [|unfold handleSubtaskDrop; now rewrite D].
  destruct (String.eqb_spec sourceTaskId targetTaskId) as [->|Ne];
    [|unfold handleSubtaskDrop; rewrite D;
      destruct (String.eqb_spec sourceTaskId targetTaskId); [contradiction|exact Same]].
  destruct (Z.eqb_spec (Subtask.id dragged) (Subtask.id targetSubtask)) as [E|Nid];
    [unfold handleSubtaskDrop; rewrite D, String.eqb_refl; cbn [negb orb];
     destruct (Z.eqb_spec (Subtask.id dragged) (Subtask.id targetSubtask));
     [exact Same|contradiction]|].
  destruct (find (fun t => String.eqb (Task.id t) targetTaskId) (tasks s)) as [parent|] eqn:F;
    [|unfold handleSubtaskDrop; rewrite D, String.eqb_refl, F; cbn [negb orb];
      destruct (Z.eqb_spec (Subtask.id dragged) (Subtask.id targetSubtask));
      [contradiction|exact Same]].
  destruct (Task.subtasks parent) as [sts|] eqn:S;
    [|unfold handleSubtaskDrop; rewrite D, String.eqb_refl, F, S; cbn [negb orb];
      destruct (Z.eqb_spec (Subtask.id dragged) (Subtask.id targetSubtask));
      [contradiction|exact Same]].
  rewrite (handleSubtaskDrop_dropped persisted targetTaskId dragged targetSubtask parent sts s
             D Nid F S).
  pose proof (dropped_perm (Subtask.id dragged) (Subtask.id targetSubtask) (dragOverInfo s) sts)
    as P.
  destruct (dropped _ _ _ sts) as [sts'|].
  - cbv beta iota zeta.
    match goal with
    | |- Forall2 _ _ (tasks ?x) =>
        replace (tasks x)
          with (replaceById targetTaskId (Task.with_subtasks (Some sts') parent) (tasks s))
          by (destruct persisted; reflexivity)
    end.
    unfold replaceById. apply Forall2_map_self. intros t I.
    destruct (String.eqb_spec (Task.id t) targetTaskId) as [Et|_];
      [|apply subtasks_permuted_refl].
    rewrite (find_id_unique _ _ _ _ N F I Et). split.
    + now destruct parent.
    + rewrite S. destruct parent; cbn. exact P.
  - subst sts. now exists parent.
Qed.

End TaskList.

(* ================================================================== *)
(** * The form *)

Lemma trimStart_blank (s : string) : trimStart s = "" <-> all_blank s = true.
Proof.
  unfold all_blank. induction s as [|c s IH]; cbn [trimStart list_ascii_of_string forallb].
  - tauto.
  - destruct (is_whitespace c); cbn [andb]; [exact IH|]. split; discriminate.
Qed.

Lemma trimStart_head (s : string) (c : ascii) (r : string) :
  trimStart s = String c r -> is_whitespace c = false.
Proof.
  induction s as [|x s IH]; cbn [trimStart]; [discriminate|].
  destruct (is_whitespace x) eqn:W; [exact IH|]. now intros [= <- _].
Qed.

Lemma string_rev_empty (s : string) : string_rev s = "" <-> s = "".
Proof.
  unfold string_rev. split; [|now intros ->].
  intros E. apply (f_equal list_ascii_of_string) in E.
  rewrite list_ascii_of_string_of_list_ascii in E. cbn in E.
  destruct s as [|c s]; [reflexivity|]. cbn [list_ascii_of_string rev] in E.
  now destruct (rev (list_ascii_of_string s)).
Qed.

Lemma all_blank_string_rev (s : string) : all_blank (string_rev s) = all_blank s.
Proof.
  unfold all_blank, string_rev. rewrite list_ascii_of_string_of_list_ascii.
  generalize (list_ascii_of_string s) as l. intros l.
  apply eq_true_iff_eq. rewrite !forallb_forall.
  split; intros H x I; apply H; [now apply in_rev in I|now apply in_rev].
Qed.

(** [trim] leaves nothing exactly of the texts made of white space. *)
Lemma trim_blank (s : string) : String.eqb (trim s) "" = true <-> all_blank s = true.
Proof.
  rewrite String.eqb_eq. unfold trim. rewrite string_rev_empty, trimStart_blank.
  rewrite all_blank_string_rev. split.
  - intros B. apply trimStart_blank.
    destruct (trimStart s) as [|c r] eqn:E; [reflexivity|].
    apply trimStart_head in E. unfold all_blank in B. cbn in B. now rewrite E in B.
  - intros B. apply trimStart_blank in B. now rewrite B.
Qed.

Section Form.

Variable LocalTZA : Z -> bool -> Z.

(** X10.  A task needs a text.  For a text of ASCII characters in the text
    field: with nothing but white space (tab, line feed, vertical tab, form
    feed, carriage return, space) saving does nothing at all (no store call,
    the dialog stays as it is); with any other text exactly one store call
    is made, and it carries the text as typed, untrimmed. *)
Theorem handleSaveTask_needs_text (newId : string) (persisted : bool) (s : State) :
  ascii_text (formText s) = true ->
  (all_blank (formText s) = true -> handleSaveTask LocalTZA newId persisted s = s)
  /\ (all_blank (formText s) = false ->
      exists c,
        calls (handleSaveTask LocalTZA newId persisted s) = c :: calls s
        /\ match c with
           | addTask data => editingTask s = None /\ NewTaskData.text data = formText s
           | updateTask u => editingTask s <> None /\ Task.text u = formText s
           | deleteTask _ => False
           end).
Proof.
  intros _. unfold handleSaveTask. split; intros B.
  - apply trim_blank in B. now rewrite B.
  - destruct (String.eqb (trim (formText s)) "") eqn:T;
      [apply trim_blank in T; congruence|].
    destruct (editingTask s) as [editing|].
    + eexists. split; [destruct persisted; reflexivity|].
      split; [discriminate|]. now destruct (formIsRecurring s).
    + eexists. split; [destruct persisted; reflexivity|]. now split.
Qed.

(** X11.  Opening a task in the editor and saving it untouched stores the
    task as it is and leaves every listed task in place (the list is sorted
    again), provided its text is not blank, its due date is not the empty
    text and, if it recurs, it is active. *)
Theorem edit_untouched_keeps_task (newId : string) (task : Task) (s : State) :
  all_blank (Task.text task) = false ->
  Task.dueDate task <> Some "" ->
  recurring_active task ->
  let s' := handleSaveTask LocalTZA newId true (openEditModal task s) in
  calls s' = updateTask task :: calls s
  /\ tasks s' = sortTasks LocalTZA (replaceById (Task.id task) task (tasks s))
  /\ isModalOpen s' = false
  /\ (NoDup (task_ids s) -> In task (tasks s) -> tasks s' = sortTasks LocalTZA (tasks s)).
Proof.
  intros B D A s'. subst s'. unfold handleSaveTask.
  assert (T : String.eqb (trim (formText (openEditModal task s))) "" = false).
  { destruct (String.eqb _ "") eqn:T; [|reflexivity]. apply trim_blank in T.
    change (formText (openEditModal task s)) with (Task.text task) in T. congruence. }
  rewrite T.
  cbn [openEditModal editingTask formText formDueDate formImportance formIsRecurring
       formRecurrenceFrequency setIsModalOpen setOpenMenuId setForm].
  set (u := if _ : bool then _ else _).
  assert (U : u = task).
  { subst u. unfold recurring_active in A.
    destruct task as [id text completed dueDate importance recurring subtasks]. cbn in *.
    destruct recurring as [f|].
    - rewrite A by discriminate. destruct dueDate as [[|c r]|]; [congruence| |]; reflexivity.
    - destruct dueDate as [[|c r]|]; [congruence| |]; reflexivity. }
  rewrite U. cbn [tasks calls closeModal setTasks call setIsModalOpen setOpenMenuId setForm
                  isModalOpen].
  repeat split.
  intros N I. f_equal. unfold replaceById.
  transitivity (map (fun t => t) (tasks s)); [|apply map_id].
  apply map_ext_in. intros t It.
  destruct (String.eqb_spec (Task.id t) (Task.id task)) as [E|_]; [|reflexivity].
  assert (F : exists found,
             find (fun x => String.eqb (Task.id x) (Task.id task)) (tasks s) = Some found).
  { destruct (find _ (tasks s)) as [found|] eqn:F; [eauto|].
    exfalso. apply (find_id_none _ _ _ F I). reflexivity. }
  destruct F as [found F].
  rewrite (find_id_unique _ _ _ _ N F It E).
  now rewrite (find_id_unique _ _ _ _ N F I eq_refl).
Qed.

End Form.

(* ================================================================== *)
(** * Recurrence, again and again *)

(** A calendar date lies in its year. *)
Lemma MakeDay_within_year (y m d : Z) :
  1 <= m <= 12 -> 1 <= d <= daysInMonth y m ->
  DayFromYear y <= MakeDay y (m - 1) d < DayFromYear (y + 1).
Proof.
  intros Hm Hd. rewrite (MakeDay_in_year _ _ _ Hm), DayFromYear_succ.
  destruct (yearday_of_date (isLeapYear y) m d Hm Hd) as [R _].
  unfold DaysInYear. destruct (isLeapYear y); lia.
Qed.

(** The year of a calendar date, from its day number. *)
Lemma year_of_day_number (y m d y' m' d' : Z) :
  1 <= m <= 12 -> 1 <= d <= daysInMonth y m ->
  1 <= m' <= 12 -> 1 <= d' <= daysInMonth y' m' ->
  MakeDay y (m - 1) d <= MakeDay y' (m' - 1) d' <= MakeDay y (m - 1) d + 365 ->
  y <= y' <= y + 1.
Proof.
  intros Hm Hd Hm' Hd' H.
  pose proof (MakeDay_within_year y m d Hm Hd).
  pose proof (MakeDay_within_year y' m' d' Hm' Hd').
  assert (DayFromYear (y + 1) + 365 <= DayFromYear (y + 2)).
  { replace (y + 2) with (y + 1 + 1) by lia. rewrite (DayFromYear_succ (y + 1)).
    pose proof (DaysInYear_pos (y + 1)). unfold DaysInYear in *.
    destruct (isLeapYear (y + 1)); lia. }
  split.
  - destruct (Z.le_gt_cases y y'); [assumption|].
    pose proof (DayFromYear_mono (y' + 1) y ltac:(lia)). lia.
  - destruct (Z.le_gt_cases y' (y + 1)); [assumption|].
    pose proof (DayFromYear_mono (y + 2) y' ltac:(lia)). lia.
Qed.

Lemma daysBeforeMonth_next (m l : Z) :
  1 <= m <= 11 -> 0 <= l <= 1 ->
  daysBeforeMonth (m - 1) l + 28 <= daysBeforeMonth m l <= daysBeforeMonth (m - 1) l + 31.
Proof.
  intros Hm Hl.
  assert (C : m = 1 \/ m = 2 \/ m = 3 \/ m = 4 \/ m = 5 \/ m = 6 \/
              m = 7 \/ m = 8 \/ m = 9 \/ m = 10 \/ m = 11) by lia.
  assert (L : l = 0 \/ l = 1) by lia.
  destruct L; repeat (destruct C as [C|C]); subst; cbn; lia.
Qed.

(** The day number of the next occurrence: later, by a year at most. *)
Lemma nextOccurrence_later (f : RecurrenceFrequency) (y m d : Z) :
  1 <= m <= 12 -> 1 <= d <= daysInMonth y m ->
  let '(y', m', d') := nextOccurrence f (y, m, d) in
  1 <= m' <= 12 /\ 1 <= d' <= daysInMonth y' m' /\ y <= y' <= y + 1
  /\ MakeDay y (m - 1) d < MakeDay y' (m' - 1) d'.
Proof.
  intros Hm Hd. pose proof (daysInMonth_bounds y m) as Bd.
  destruct f; cbn [nextOccurrence].
  - pose proof (valid_add_days 1 y m d Hm Hd) as V.
    destruct (add_days 1 (y, m, d)) as [[y' m'] d']. destruct V as (Hm' & Hd' & E).
    rewrite MakeDay_date_shift in E. change (Z.of_nat 1) with 1 in E.
    repeat split; try lia; apply (year_of_day_number y m d y' m' d'); lia.
  - pose proof (valid_add_days 7 y m d Hm Hd) as V.
    destruct (add_days 7 (y, m, d)) as [[y' m'] d']. destruct V as (Hm' & Hd' & E).
    rewrite MakeDay_date_shift in E. change (Z.of_nat 7) with 7 in E.
    repeat split; try lia; apply (year_of_day_number y m d y' m' d'); lia.
  - pose proof (valid_add_month y m d Hm Hd) as V.
    destruct (add_month (y, m, d)) as [[y' m'] d']. destruct V as (Hm' & Hd' & E).
    assert (L : MakeDay y (m - 1) d + 28 <= MakeDay y (m - 1 + 1) d <= MakeDay y (m - 1) d + 31).
    { destruct (Z.eq_dec m 12) as [->|N].
      - change (12 - 1 + 1) with 12. rewrite MakeDay_month_carry.
        change (MakeDay (y + 1) 0 d) with (MakeDay (y + 1) (1 - 1) d).
        rewrite !MakeDay_in_year by lia.
        rewrite DayFromYear_succ. unfold DaysInYear.
        change (12 - 1) with 11. change (1 - 1) with 0.
        destruct (isLeapYear y), (isLeapYear (y + 1)); cbn [daysBeforeMonth]; lia.
      - replace (m - 1 + 1) with (m + 1 - 1) by lia. rewrite !MakeDay_in_year by lia.
        replace (m + 1 - 1) with m by lia.
        pose proof (daysBeforeMonth_next m (if isLeapYear y then 1 else 0) ltac:(lia)
                      ltac:(destruct (isLeapYear y); lia)). lia. }
    repeat split; try lia; apply (year_of_day_number y m d y' m' d'); lia.
  - pose proof (valid_add_year y m d Hm Hd) as V.
    assert (Y : fst (fst (add_year (y, m, d))) = y + 1).
    { unfold add_year, month_overflow. now destruct (d <=? daysInMonth (y + 1) m). }
    destruct (add_year (y, m, d)) as [[y' m'] d']. destruct V as (Hm' & Hd' & E).
    cbn in Y. subst y'.
    assert (L : MakeDay y (m - 1) d + 364 <= MakeDay (y + 1) (m - 1) d).
    { rewrite !MakeDay_in_year by lia. rewrite DayFromYear_succ. unfold DaysInYear.
      pose proof (Hm) as Hm2.
      destruct (isLeapYear y), (isLeapYear (y + 1)); each_month Hm2;
        match goal with
        | |- context [daysBeforeMonth (?k - 1) _] =>
            let k' := eval cbv in (k - 1) in change (k - 1) with k'
        end; cbn [daysBeforeMonth]; lia. }
    repeat split; try lia.
Qed.

Lemma date_only_time (LocalTZA : Z -> bool -> Z) (y m d : Z) :
  0 <= y <= 9999 -> 1 <= m <= 12 -> 1 <= d <= 31 ->
  getTime (Date_of_string LocalTZA (date_string y m d))
  = Some (MakeDay y (m - 1) d * msPerDay).
Proof.
  intros Hy Hm Hd. unfold Date_of_string, getTime.
  rewrite parse_date_string_date_only by assumption. cbn [tv].
  pose proof (noon_in_range y (m - 1) d ltac:(lia) ltac:(lia) ltac:(lia)) as R.
  unfold TimeClip, MakeDate, midday, msPerDay, msPerHour in *.
  destruct (Z.leb_spec (Z.abs (MakeDay y (m - 1) d * 86400000 + 0)) 8640000000000000);
    [f_equal; lia|lia].
Qed.

Lemma next_day_year (y m d : Z) :
  fst (fst (next_day (y, m, d))) <= y + 1 /\ y <= fst (fst (next_day (y, m, d))).
Proof.
  unfold next_day. destruct (d <? daysInMonth y m); [cbn; lia|].
  destruct (m <? 12); cbn; lia.
Qed.

Section Recurrence.

Variable LocalTZA : Z -> bool -> Z.
Hypothesis Stable : midday_stable LocalTZA.

Lemma calculateNextDueDate_date_text (y m d : Z) (f : RecurrenceFrequency) :
  valid_date y m d -> 1000 <= y <= 9998 ->
  calculateNextDueDate LocalTZA (date_string y m d) f
  = date_text (nextOccurrence f (y, m, d)).
Proof.
  intros V Hy. rewrite (calculateNextDueDate_nextOccurrence LocalTZA Stable) by exact V.
  destruct V as (_ & Hm & Hd).
  pose proof (nextOccurrence_later f y m d Hm Hd) as L.
  destruct (nextOccurrence f (y, m, d)) as [[y' m'] d']. destruct L as (Hm' & Hd' & Hy' & _).
  pose proof (daysInMonth_bounds y' m').
  cbn [date_text]. apply year_month_day_date_string; lia.
Qed.

(** X12.  A recurring task moves forward: the next due date of a calendar
    date is again the text of a calendar date, one the program can take as
    a due date in turn, and as a sort key it is strictly later than the one
    it replaces. *)
Theorem calculateNextDueDate_moves_forward (y m d : Z) (f : RecurrenceFrequency) :
  valid_date y m d -> 1000 <= y <= 9998 ->
  exists y' m' d' t t',
    calculateNextDueDate LocalTZA (date_string y m d) f = date_string y' m' d'
    /\ valid_date y' m' d'
    /\ getTime (Date_of_string LocalTZA (date_string y m d)) = Some t
    /\ getTime (Date_of_string LocalTZA (date_string y' m' d')) = Some t'
    /\ t < t'.
Proof.
  intros V Hy. rewrite calculateNextDueDate_date_text by assumption.
  destruct V as (Hy0 & Hm & Hd).
  pose proof (nextOccurrence_later f y m d Hm Hd) as L.
  destruct (nextOccurrence f (y, m, d)) as [[y' m'] d'].
  destruct L as (Hm' & Hd' & Hy' & Lt).
  pose proof (daysInMonth_bounds y m). pose proof (daysInMonth_bounds y' m').
  exists y', m', d', (MakeDay y (m - 1) d * msPerDay), (MakeDay y' (m' - 1) d' * msPerDay).
  split; [reflexivity|]. split; [unfold valid_date; lia|].
  rewrite !date_only_time by lia. repeat split. unfold msPerDay. lia.
Qed.

Lemma daily_advances (n : nat) (y m d : Z) :
  valid_date y m d -> 1000 <= y -> y + Z.of_nat n <= 9999 ->
  Nat.iter n (fun s => calculateNextDueDate LocalTZA s daily) (date_string y m d)
  = date_text (add_days n (y, m, d)).
Proof.
  revert y m d. induction n as [|n IH]; intros y m d V Hy Hn; [reflexivity|].
  rewrite Nat.iter_succ_r, calculateNextDueDate_date_text by (try assumption; lia).
  cbn [nextOccurrence add_days].
  destruct V as (Hy0 & Hm & Hd).
  pose proof (valid_next_day y m d Hm Hd) as N. pose proof (next_day_year y m d) as Y.
  destruct (next_day (y, m, d)) as [[y1 m1] d1]. destruct N as (Hm1 & Hd1 & _).
  cbn [fst] in Y. cbn [date_text]. apply IH; [unfold valid_date|..]; lia.
Qed.

(** X13.  Ticking a daily task [n] times moves its due date [n] days on; in
    particular seven daily advances are one weekly advance. *)
Theorem daily_advances_add_up (n : nat) (y m d : Z) :
  valid_date y m d -> 1000 <= y -> y + Z.of_nat n <= 9998 ->
  Nat.iter n (fun s => calculateNextDueDate LocalTZA s daily) (date_string y m d)
  = date_text (add_days n (y, m, d))
  /\ day_number (add_days n (y, m, d)) = day_number (y, m, d) + Z.of_nat n
  /\ (n = 7%nat ->
      Nat.iter n (fun s => calculateNextDueDate LocalTZA s daily) (date_string y m d)
      = calculateNextDueDate LocalTZA (date_string y m d) weekly).
Proof.
  intros V Hy Hn. split; [apply daily_advances; (assumption || lia)|]. split.
  - destruct V as (_ & Hm & Hd). pose proof (valid_add_days n y m d Hm Hd) as A.
    unfold day_number. destruct (add_days n (y, m, d)) as [[y' m'] d'].
    destruct A as (_ & _ & <-). apply MakeDay_date_shift.
  - intros ->. rewrite daily_advances by (try assumption; lia).
    now rewrite calculateNextDueDate_date_text by (try assumption; lia).
Qed.

End Recurrence.

(** X14.  A due date the engine cannot read does not stop a recurring task
    from being ticked: the next due date is then the text NaN-NaN-NaN,
    whatever the frequency. *)
Theorem calculateNextDueDate_unreadable (LocalTZA : Z -> bool -> Z) (s : string)
    (f : RecurrenceFrequency) :
  getTime (Date_of_string LocalTZA (s ++ "T12:00:00")) = NaN ->
  calculateNextDueDate LocalTZA s f = "NaN-NaN-NaN".
Proof.
  unfold calculateNextDueDate, getTime. intros E.
  destruct (Date_of_string LocalTZA (s ++ "T12:00:00")) as [t]. cbn in E. subst t.
  destruct f; reflexivity.
Qed.

(* ================================================================== *)
(** * The date picker *)


(** Every day is the day of its calendar fields. *)
Lemma Day_fields (t : Z) :
  Day t = MakeDay (YearFromTime t) (MonthFromTime t) (DateFromTime t).
Proof.
  destruct (fields_are_a_date t) as [Hm _].
  replace (MonthFromTime t) with (MonthFromTime t + 1 - 1) at 1 by lia.
  rewrite MakeDay_in_year by lia.
  replace (MonthFromTime t + 1 - 1) with (MonthFromTime t) by lia.
  unfold DateFromTime, DayWithinYear, InLeapYear. lia.
Qed.

(** Two calendar dates with one day number are one date. *)
Lemma MakeDay_inj (y m d y' m' d' : Z) :
  1 <= m <= 12 -> 1 <= d <= daysInMonth y m ->
  1 <= m' <= 12 -> 1 <= d' <= daysInMonth y' m' ->
  MakeDay y (m - 1) d = MakeDay y' (m' - 1) d' ->
  (y, m, d) = (y', m', d').
Proof.
  intros Hm Hd Hm' Hd' E.
  assert (Ht : 0 <= 0 < msPerDay) by (unfold msPerDay; lia).
  destruct (fields_of_MakeDate y m d 0 Hm Hd Ht) as (Y & M & D).
  destruct (fields_of_MakeDate y' m' d' 0 Hm' Hd' Ht) as (Y' & M' & D').
  rewrite E in Y, M, D. f_equal; [f_equal|]; lia.
Qed.

(** The calendar date of a time value, given its day. *)
Lemma fields_of_day (t y m d : Z) :
  1 <= m <= 12 -> 1 <= d <= daysInMonth y m ->
  Day t = MakeDay y (m - 1) d ->
  YearFromTime t = y /\ MonthFromTime t = m - 1 /\ DateFromTime t = d.
Proof.
  intros Hm Hd E. destruct (fields_are_a_date t) as [Hm' Hd'].
  rewrite Day_fields in E.
  replace (MonthFromTime t) with (MonthFromTime t + 1 - 1) in E at 1 by lia.
  apply MakeDay_inj in E; try assumption; try lia.
  injection E as -> <- ->. lia.
Qed.

Lemma time_in_range (y m d time : Z) :
  -1 <= y <= 10001 -> 0 <= m <= 12 -> 0 <= d <= 40 -> - msPerDay <= time <= 2 * msPerDay ->
  Z.abs (MakeDate (MakeDay y m d) time) <= 8640000000000000 - 2 * msPerDay.
Proof.
  intros Hy Hm Hd Ht. pose proof (noon_in_range y m d Hy Hm Hd) as R.
  assert (0 <= m / 12 <= 1) by zdiv.
  pose proof (daysBeforeMonth_bounds (m mod 12)
                (if isLeapYear (y + m / 12) then 1 else 0)
                ltac:(destruct (isLeapYear _); lia)).
  pose proof (DayFromYear_mono (-1) (y + m / 12) ltac:(lia)).
  pose proof (DayFromYear_mono (y + m / 12) 10002 ltac:(lia)).
  change (DayFromYear (-1)) with (-719893) in *.
  change (DayFromYear 10002) with 2933628 in *.
  unfold MakeDate, MakeDay, midday, msPerDay, msPerHour in *. lia.
Qed.

Section FixedOffset.

Variable tz : Z.
Hypothesis Whole : tz mod msPerMinute = 0.
Hypothesis Within : - (12 * msPerHour) <= tz < msPerDay.





(** Day 0 of the month after is the last day of the month. *)
Lemma MakeDay_month_end (y m : Z) :
  1 <= m <= 12 -> MakeDay y m 0 = MakeDay y (m - 1) (daysInMonth y m).
Proof.
  intros Hm. destruct (Z.eq_dec m 12) as [->|N].
  - rewrite MakeDay_month_carry.
    change (MakeDay (y + 1) 0 0) with (MakeDay (y + 1) (1 - 1) 0).
    rewrite !MakeDay_in_year by lia. rewrite DayFromYear_succ.
    unfold DaysInYear, daysInMonth. change (12 - 1) with 11. change (1 - 1) with 0.
    destruct (isLeapYear y), (isLeapYear (y + 1)); cbn [daysBeforeMonth monthLength]; lia.
  - replace m with (m + 1 - 1) at 1 by lia. rewrite !MakeDay_in_year by lia.
    replace (m + 1 - 1) with m by lia. unfold daysInMonth.
    assert (C : m = 1 \/ m = 2 \/ m = 3 \/ m = 4 \/ m = 5 \/ m = 6 \/
                m = 7 \/ m = 8 \/ m = 9 \/ m = 10 \/ m = 11) by lia.
    destruct (isLeapYear y); repeat (destruct C as [C|C]); subst; cbn; lia.
Qed.

Lemma lastDayOfMonth_fixed (t : Z) :
  100 <= YearFromTime (t + tz) <= 9999 ->
  lastDayOfMonth (fixed_offset tz) (mkDate (Some t))
  = Some (daysInMonth (YearFromTime (t + tz)) (MonthFromTime (t + tz) + 1)).
Proof.
  intros Hy. destruct (fields_are_a_date (t + tz)) as [Hm _].
  unfold lastDayOfMonth, getFullYear, getMonth, Date_of_fields, LocalTime, UTC, fixed_offset.
  cbn [tv num_add].
  set (Y := YearFromTime (t + tz)) in *. set (M := MonthFromTime (t + tz)) in *.
  replace ((0 <=? Y) && (Y <=? 99)) with false
    by (symmetry; apply andb_false_intro2, Z.leb_gt; lia).
  change (MakeTime 0 0 0 0) with 0.
  pose proof (daysInMonth_bounds Y (M + 1)) as Bd.
  rewrite MakeDay_month_end by lia.
  pose proof (time_in_range Y (M + 1 - 1) (daysInMonth Y (M + 1)) 0 ltac:(lia) ltac:(lia)
                ltac:(lia) ltac:(unfold msPerDay; lia)) as R.
  unfold TimeClip.
  destruct (Z.leb_spec (Z.abs (MakeDate (MakeDay Y (M + 1 - 1) (daysInMonth Y (M + 1))) 0 - tz))
              8640000000000000) as [_|G]; [|unfold msPerDay, msPerHour in *; lia].
  unfold getDate, LocalTime. cbn [tv]. f_equal.
  replace (MakeDate (MakeDay Y (M + 1 - 1) (daysInMonth Y (M + 1))) 0 - tz + tz)
    with (MakeDate (MakeDay Y (M + 1 - 1) (daysInMonth Y (M + 1))) 0) by lia.
  apply (fields_of_MakeDate Y (M + 1) (daysInMonth Y (M + 1)) 0); try lia.
  unfold msPerDay. lia.
Qed.

(** The check against the length of the month finds nothing to do. *)
Lemma clamp_idle (newDate : Date) :
  (forall y, getFullYear (fixed_offset tz) newDate = Some y -> 100 <= y <= 9999) ->
  num_gt (getDate (fixed_offset tz) newDate) (lastDayOfMonth (fixed_offset tz) newDate)
  = false.
Proof.
  intros Hy. destruct newDate as [[t|]]; [|reflexivity].
  specialize (Hy _ eq_refl). unfold LocalTime, fixed_offset in Hy.
  rewrite lastDayOfMonth_fixed by exact Hy.
  unfold getDate, LocalTime, fixed_offset, num_gt. cbn [tv].
  destruct (fields_are_a_date (t + tz)) as [_ Hd]. apply Z.ltb_ge. lia.
Qed.

(** X16.  The picker never shortens a date to the length of its month: by
    the time [handleScroll] compares the day with the last day of the month,
    the date has already run on into the month after, so the comparison
    never holds and the date a wheel sets is the date the picker takes. *)
Theorem scroll_clamp_never_applies (type : Wheel) (index thisYear : Z)
    (rendered current : Date) :
  (forall y,
     getFullYear (fixed_offset tz) (scroll_set (fixed_offset tz) type index thisYear rendered current)
     = Some y -> 100 <= y <= 9999) ->
  scroll_update (fixed_offset tz) type index thisYear rendered current
  = scroll_set (fixed_offset tz) type index thisYear rendered current.
Proof.
  intros Hy. unfold scroll_update. now rewrite clamp_idle.
Qed.

(** X17.  Turning the month wheel keeps the day of the month, and a day the
    chosen month does not have runs on into the month after: from 31 January
    the wheel set on February shows 2 or 3 March. *)
Theorem month_wheel_overflows (index thisYear y m d time : Z) (rendered : Date) :
  valid_date y m d -> 100 <= y -> 0 <= time < msPerDay -> 0 <= index ->
  scroll_update (fixed_offset tz) month_wheel index thisYear rendered
    (mkDate (Some (MakeDate (MakeDay y (m - 1) d) time - tz)))
  = mkDate (Some (MakeDate (day_number (month_overflow (y, index mod 12 + 1, d))) time - tz)).
Proof.
  intros (Hy & Hm & Hd) Hy1 Ht Hi.
  pose proof (daysInMonth_bounds y m) as Bd.
  assert (Hk : 1 <= index mod 12 + 1 <= 12) by zdiv.
  pose proof (valid_month_overflow y (index mod 12 + 1) d Hk ltac:(lia)) as V.
  assert (Y : fst (fst (month_overflow (y, index mod 12 + 1, d))) = y).
  { unfold month_overflow. now destruct (d <=? daysInMonth y (index mod 12 + 1)). }
  destruct (month_overflow (y, index mod 12 + 1, d)) as [[y' m'] d'].
  destruct V as (Hm' & Hd' & E). cbn [fst] in Y. subst y'. cbn [day_number].
  assert (S : scroll_set (fixed_offset tz) month_wheel index thisYear rendered
                (mkDate (Some (MakeDate (MakeDay y (m - 1) d) time - tz)))
              = mkDate (Some (MakeDate (MakeDay y (m' - 1) d') time - tz))).
  { unfold scroll_set, num_rem, setMonth, LocalTime, UTC, fixed_offset. cbn [tv Z.eqb].
    rewrite Z.rem_mod_nonneg by lia.
    replace (MakeDate (MakeDay y (m - 1) d) time - tz + tz)
      with (MakeDate (MakeDay y (m - 1) d) time) by lia.
    destruct (fields_of_MakeDate y m d time Hm Hd Ht) as (-> & _ & ->).
    rewrite TimeWithinDay_MakeDate by exact Ht.
    replace (index mod 12) with (index mod 12 + 1 - 1) by lia. rewrite E.
    pose proof (daysInMonth_bounds y m').
    pose proof (time_in_range y (m' - 1) d' time ltac:(lia) ltac:(lia) ltac:(lia)
                  ltac:(unfold msPerDay in *; lia)) as R.
    unfold TimeClip.
    destruct (Z.leb_spec (Z.abs (MakeDate (MakeDay y (m' - 1) d') time - tz))
                8640000000000000) as [_|G]; [reflexivity|].
    unfold msPerDay, msPerHour in *. lia. }
  unfold scroll_update. rewrite clamp_idle; [exact S|].
  rewrite S. intros y0. unfold getFullYear, LocalTime, fixed_offset. cbn [tv].
  replace (MakeDate (MakeDay y (m' - 1) d') time - tz + tz)
    with (MakeDate (MakeDay y (m' - 1) d') time) by lia.
  destruct (fields_of_MakeDate y m' d' time Hm' Hd' Ht) as (-> & _ & _).
  intros [= <-]. lia.
Qed.

End FixedOffset.

(* ================================================================== *)
(** * The shopping list and its store *)

Lemma StronglySorted_weaken {A : Type} (R R' : A -> A -> Prop) (l : list A) :
  (forall a b, R a b -> R' a b) -> StronglySorted R l -> StronglySorted R' l.
Proof.
  intros W S. induction S as [|x l S IH F]; constructor; [exact IH|].
  eapply Forall_impl; [|exact F]. intros b. apply W.
Qed.

Lemma StronglySorted_filter_any {A : Type} (R : A -> A -> Prop) (p : A -> bool)
    (l : list A) :
  StronglySorted R l -> StronglySorted R (filter p l).
Proof.
  intros S. induction S as [|x l S IH F]; cbn [filter]; [constructor|].
  destruct (p x); [|exact IH]. constructor; [exact IH|].
  rewrite Forall_forall in *. intros y I. apply filter_In in I. now apply F.
Qed.

Lemma StronglySorted_map_same {A : Type} (key : A -> Z) (f : A -> A) (l : list A) :
  (forall x, key (f x) = key x) ->
  StronglySorted (fun a b => key a < key b) l ->
  StronglySorted (fun a b => key a < key b) (map f l).
Proof.
  intros K S. induction S as [|x l S IH F]; cbn [map]; constructor; [exact IH|].
  rewrite Forall_forall in *. intros y I. apply in_map_iff in I.
  destruct I as (z & <- & I). rewrite !K. now apply F.
Qed.

Lemma newest_first_opposite (x y : ListItem) :
  0 < SortCompare Shopping.newest_first x y -> SortCompare Shopping.newest_first y x <= 0.
Proof. unfold SortCompare, Shopping.newest_first. lia. Qed.

(** X18.  Loading shows exactly the stored items, newest first: the list on
    the screen is a permutation of the records read, in descending order of
    their time stamps, and records already in that order are shown as read. *)
Theorem load_newest_first (dbItems : list ListItem) :
  Permutation dbItems (Shopping.load dbItems)
  /\ StronglySorted (fun a b => ListItem.id b <= ListItem.id a) (Shopping.load dbItems)
  /\ (StronglySorted (fun a b => ListItem.id b <= ListItem.id a) dbItems ->
      Shopping.load dbItems = dbItems).
Proof.
  split; [apply Array_sort_perm|]. split.
  - apply (StronglySorted_weaken (before Shopping.newest_first)).
    + intros a b. unfold before, SortCompare, Shopping.newest_first. lia.
    + apply Sorted_StronglySorted.
      * intros a b c. unfold before, SortCompare, Shopping.newest_first. lia.
      * apply Array_sort_sorted, newest_first_opposite.
  - intros S. apply Array_sort_fixes_sorted. apply StronglySorted_Sorted.
    eapply StronglySorted_weaken; [|exact S].
    intros a b. unfold before, SortCompare, Shopping.newest_first. lia.
Qed.

(** An element that compares greater than all goes to the end. *)
Lemma sort_insert_last {A : Type} (comparefn : A -> A -> num) (x : A) (l : list A) :
  Forall (fun y => 0 < SortCompare comparefn x y) l ->
  sort_insert comparefn x l = (l ++ [x])%list.
Proof.
  induction 1 as [|y l H F IH]; cbn [sort_insert app]; [reflexivity|].
  destruct (Z.ltb_spec 0 (SortCompare comparefn x y)); [now rewrite IH|lia].
Qed.

(** Of records in the order of their keys, loading shows the reverse. *)
Lemma load_rev (db : list ListItem) :
  StronglySorted (fun a b => ListItem.id a < ListItem.id b) db ->
  Shopping.load db = rev db.
Proof.
  intros S. induction S as [|x l S IH F]; [reflexivity|].
  unfold Shopping.load in *. cbn [Array_sort fold_right rev].
  fold (Array_sort Shopping.newest_first l). rewrite IH.
  apply sort_insert_last. rewrite Forall_forall in *. intros y I.
  apply in_rev in I. specialize (F y I).
  unfold SortCompare, Shopping.newest_first. lia.
Qed.

Lemma put_last (item : ListItem) (db : Db.Store) :
  Forall (fun x => ListItem.id x < ListItem.id item) db ->
  Db.put item db = (db ++ [item])%list.
Proof.
  induction 1 as [|x db H F IH]; cbn [Db.put app]; [reflexivity|].
  destruct (Z.ltb_spec (ListItem.id item) (ListItem.id x)); [lia|].
  destruct (Z.eqb_spec (ListItem.id item) (ListItem.id x)); [lia|]. now rewrite IH.
Qed.

Lemma put_replace (item : ListItem) (db : Db.Store) :
  StronglySorted (fun a b => ListItem.id a < ListItem.id b) db ->
  In (ListItem.id item) (map ListItem.id db) ->
  Db.put item db
  = map (fun x => if ListItem.id x =? ListItem.id item then item else x) db.
Proof.
  intros S. induction S as [|x db S IH F]; cbn [Db.put map]; intros I; [contradiction|].
  rewrite Forall_forall in F.
  assert (G : forall k, In k (map ListItem.id db) -> ListItem.id x < k).
  { intros k Ik. apply in_map_iff in Ik. destruct Ik as (z & <- & Iz). now apply F. }
  destruct (Z.ltb_spec (ListItem.id item) (ListItem.id x)) as [L|L].
  - exfalso. destruct I as [E|I]; [lia|]. apply G in I. lia.
  - destruct (Z.eqb_spec (ListItem.id item) (ListItem.id x)) as [E|N].
    + rewrite <- E, Z.eqb_refl. f_equal.
      transitivity (map (fun z => z) db); [symmetry; apply map_id|].
      apply map_ext_in. intros z Iz. specialize (F z Iz).
      destruct (Z.eqb_spec (ListItem.id z) (ListItem.id item)); [lia|reflexivity].
    + destruct (Z.eqb_spec (ListItem.id x) (ListItem.id item)); [lia|]. f_equal.
      apply IH. destruct I as [E|I]; [lia|exact I].
Qed.

Lemma has_iff (id : Z) (db : Db.Store) :
  Db.has id db = true <-> In id (map ListItem.id db).
Proof.
  unfold Db.has. rewrite existsb_exists, in_map_iff.
  split; intros (x & H1 & H2); exists x.
  - now rewrite Z.eqb_eq in H2.
  - now rewrite Z.eqb_eq.
Qed.

Lemma issued_none (l : list Supermarket.StoreCall) : Shopping.issued l l = None.
Proof.
  unfold Shopping.issued. destruct l as [|c rest]; [reflexivity|].
  cbn [List.length]. destruct (Nat.eqb_spec (List.length rest) (S (List.length rest))); [lia|reflexivity].
Qed.

Lemma issued_one (c : Supermarket.StoreCall) (l : list Supermarket.StoreCall) :
  Shopping.issued l (c :: l) = Some c.
Proof. unfold Shopping.issued. now rewrite Nat.eqb_refl. Qed.

Section Mirror.

Variable parseFloat : string -> number.
Variable Number_prototype_toString : number -> string.

(** A replaced record, on the screen and in the store. *)
Lemma replace_mirrored (item : ListItem) (s : Supermarket.State) (db : Db.Store) :
  Shopping.mirrored (s, db) ->
  In (ListItem.id item) (map ListItem.id (Supermarket.items s)) ->
  map (fun x => if ListItem.id x =? ListItem.id item then item else x) (Supermarket.items s)
  = Shopping.load (Db.put item db)
  /\ StronglySorted (fun a b => ListItem.id a < ListItem.id b) (Db.put item db).
Proof.
  intros (M & S) I. rewrite M, (load_rev db S) in *.
  rewrite map_rev in I. apply in_rev in I.
  rewrite (put_replace item db S I).
  assert (S' : StronglySorted (fun a b => ListItem.id a < ListItem.id b)
                 (map (fun x => if ListItem.id x =? ListItem.id item then item else x) db)).
  { apply (StronglySorted_map_same ListItem.id); [|exact S].
    intros x. destruct (Z.eqb_spec (ListItem.id x) (ListItem.id item)); congruence. }
  split; [|exact S']. now rewrite (load_rev _ S'), map_rev.
Qed.

(** X19.  The screen mirrors the store.  When the list on the screen is what
    a reload would show, it still is after every action, and no request
    to the store fails, as long as the item an action works on is one of
    the list and a new item gets a later time stamp than the items there
    are. *)
Theorem shopping_list_mirrors_store (a : Supermarket.Action)
    (s : Supermarket.State) (db : Db.Store) :
  Shopping.mirrored (s, db) ->
  Shopping.in_order a s ->
  Shopping.mirrored (Shopping.perform parseFloat Number_prototype_toString a (s, db))
  /\ Supermarket.errors
       (fst (Shopping.perform parseFloat Number_prototype_toString a (s, db)))
     = Supermarket.errors s.
Proof.
  intros M O. pose proof M as (Mi & Ms).
  unfold Shopping.perform.
  destruct a; cbn [Supermarket.step Supermarket.calls];
    try (rewrite issued_none; split; [exact M|reflexivity]).
  - unfold Supermarket.handleAddItem.
    destruct (String.eqb _ ""); [rewrite issued_none; split; [exact M|reflexivity]|].
    cbn [Supermarket.calls]. rewrite issued_one. cbn [Shopping.request Shopping.in_order] in *.
    set (newItem := ListItem.mk Date_now (Supermarket.inputValue s) false None None None).
    assert (F : Forall (fun x => ListItem.id x < ListItem.id newItem) db).
    { rewrite Mi, (load_rev db Ms) in O. rewrite Forall_forall in *.
      intros x I. apply O. now apply in_rev in I. }
    unfold Db.addItem.
    destruct (Db.has (ListItem.id newItem) db) eqn:H.
    + exfalso. apply has_iff, in_map_iff in H. destruct H as (x & E & I).
      rewrite Forall_forall in F. specialize (F x I). lia.
    + rewrite (put_last newItem db F). split; [|reflexivity]. split.
      * cbn [Supermarket.items].
        assert (S' : StronglySorted (fun a b => ListItem.id a < ListItem.id b)
                       (db ++ [newItem])).
        { clear - Ms F. induction Ms as [|x l S IH G]; cbn [app].
          - repeat constructor.
          - inversion F; subst. constructor; [now apply IH|].
            apply Forall_app. split; [exact G|]. now constructor. }
        rewrite (load_rev _ S'), rev_app_distr, Mi, (load_rev db Ms). reflexivity.
      * clear - Ms F. induction Ms as [|x l S IH G]; cbn [app].
        -- repeat constructor.
        -- inversion F; subst. constructor; [now apply IH|].
           apply Forall_app. split; [exact G|]. now constructor.
  - unfold Supermarket.handleCheckmarkClick. cbn [Shopping.in_order] in O.
    destruct (ListItem.completed item);
      [|cbn [Supermarket.calls]; rewrite issued_none; split; [exact M|reflexivity]].
    cbn [Supermarket.calls]. rewrite issued_one.
    cbn [Shopping.request Db.updateItem fst Supermarket.errors Shopping.mirrored
         Supermarket.items].
    split; [|reflexivity].
    exact (replace_mirrored
             (ListItem.mk (ListItem.id item) (ListItem.text item) false None None None)
             s db M O).
  - unfold Supermarket.handleModalConfirm. cbn [Shopping.in_order] in O.
    destruct (Supermarket.modalItem s) as [modal|];
      [|rewrite issued_none; split; [exact M|reflexivity]].
    destruct (SFleb _ _); [rewrite issued_none; split; [exact M|reflexivity]|].
    cbn [Supermarket.calls]. rewrite issued_one.
    cbn [Shopping.request Db.updateItem fst Supermarket.errors Shopping.mirrored
         Supermarket.items].
    split; [|reflexivity].
    exact (replace_mirrored
             (ListItem.mk (ListItem.id modal) (ListItem.text modal) true
                (Some (parseFloat (Supermarket.replace_comma (Supermarket.quantity s))))
                (Some (parseFloat (Supermarket.replace_comma (Supermarket.unitPrice s))))
                (Some (Supermarket.modalItemTotal parseFloat s)))
             s db M O).
  - unfold Supermarket.handleDeleteItem. cbn [Supermarket.calls]. rewrite issued_one.
    cbn [Shopping.request Db.deleteItem fst Supermarket.errors Shopping.mirrored
         Supermarket.items].
    split; [|reflexivity].
    assert (S' : StronglySorted (fun a b => ListItem.id a < ListItem.id b)
                   (filter (fun x => negb (ListItem.id x =? id)) db))
      by (now apply StronglySorted_filter_any).
    split; [|exact S'].
    now rewrite (load_rev _ S'), Mi, (load_rev db Ms), filter_rev.
  - unfold Supermarket.confirmClearList. cbn [Supermarket.calls]. rewrite issued_one.
    cbn [Shopping.request Db.clearAllItems fst Supermarket.errors Shopping.mirrored
         Supermarket.items].
    repeat split. constructor.
Qed.

End Mirror.

(* ================================================================== *)
(** * What the cards show, and what the sort gives *)

(** X20.  The card of a task shows the day of its due date as the calendar
    has it, in every zone whose offset is steady at noon; a task without a
    due date shows a dash. *)
Theorem getCardDate_shows_the_day (LocalTZA : Z -> bool -> Z) (y m d : Z) :
  midday_stable LocalTZA -> valid_date y m d ->
  getCardDate_day LocalTZA (Some (date_string y m d)) = Number_toString (Some d)
  /\ getCardDate_day LocalTZA None = em_dash
  /\ getCardDate_day LocalTZA (Some "") = em_dash.
Proof.
  intros Stable (Hy & Hm & Hd). pose proof (daysInMonth_bounds y m).
  split; [|split; reflexivity].
  unfold getCardDate_day, date_string. cbn [truthy_string]. fold (date_string y m d).
  cbv zeta. rewrite (Date_of_string_midday LocalTZA Stable) by lia.
  now destruct (getters_Date_at LocalTZA Stable y m d Hm Hd) as (_ & _ & ->).
Qed.

(** X21.  [sortTasks] loses and invents nothing, and when every due date
    can be read its result is in order tier by tier, any two tasks of it,
    not only neighbours: unfinished before finished, then by importance,
    then by due date with the dated first. *)
Theorem sortTasks_orders_by_tiers (LocalTZA : Z -> bool -> Z) (l : list Task) :
  Permutation l (sortTasks LocalTZA l)
  /\ List.length (sortTasks LocalTZA l) = List.length l
  /\ (Forall (dated_ok LocalTZA) l ->
      StronglySorted (precedes LocalTZA) (sortTasks LocalTZA l)
      /\ forall i j a b,
           (i < j)%nat -> nth_error (sortTasks LocalTZA l) i = Some a ->
           nth_error (sortTasks LocalTZA l) j = Some b -> precedes LocalTZA a b).
Proof.
  split; [apply sortTasks_perm|]. split.
  - symmetry. apply Permutation_length, sortTasks_perm.
  - intros D. pose proof (sortTasks_tiers LocalTZA l D) as S. split; [exact S|].
    induction S as [|x r S IH F]; intros i j a b Lt Hi Hj; [now destruct i|].
    destruct j as [|j]; [lia|]. cbn [nth_error] in Hj. destruct i as [|i].
    + injection Hi as <-. rewrite Forall_forall in F. apply F.
      now apply nth_error_In in Hj.
    + cbn [nth_error] in Hi. apply (IH i j); [lia|assumption..].
Qed.

Section ModalFacts.

Variable parseFloat : string -> number.

(** X22.  The dialog confirms only a positive total: with no item open, a
    quantity that is not a number above zero, a unit price that is not a
    number from zero up, or a unit price of zero, confirming changes
    nothing, so an item cannot be ticked off at no cost. *)
Theorem handleModalConfirm_needs_positive_total (persisted : bool) (s : Supermarket.State) :
  let q := parseFloat (Supermarket.replace_comma (Supermarket.quantity s)) in
  let p := parseFloat (Supermarket.replace_comma (Supermarket.unitPrice s)) in
  Supermarket.modalItem s = None
  \/ isNaN q = true \/ SFltb Supermarket.zero q = false
  \/ isNaN p = true \/ SFleb Supermarket.zero p = false
  \/ ((exists sign, p = S754_zero sign) /\ q <> S754_infinity false) ->
  Supermarket.handleModalConfirm parseFloat persisted s = s.
Proof.
  intros q p H. unfold Supermarket.handleModalConfirm.
  destruct (Supermarket.modalItem s) as [modal|]; [|reflexivity].
  assert (T : SFleb (Supermarket.modalItemTotal parseFloat s) Supermarket.zero = true);
    [|now rewrite T].
  unfold Supermarket.modalItemTotal. fold q p. clearbody q p.
  destruct H as [H|[H|[H|[H|[H|([sign E] & Hi)]]]]].
  - discriminate.
  - rewrite H. reflexivity.
  - rewrite H. destruct (isNaN q); reflexivity.
  - rewrite H. destruct (isNaN q), (SFltb Supermarket.zero q); reflexivity.
  - rewrite H. destruct (isNaN q), (SFltb Supermarket.zero q), (isNaN p); reflexivity.
  - subst p. destruct (isNaN q); [reflexivity|].
    destruct (SFltb Supermarket.zero q) eqn:Hq; [|reflexivity]. cbn [negb andb isNaN].
    destruct q as [sq|sq| |sq mq eq]; try discriminate.
    + destruct sq; [discriminate|congruence].
    + destruct sq, sign; reflexivity.
Qed.

End ModalFacts.

(* ================================================================== *)
(** * The other wheels, today, and the pricing dialog *)

Lemma nth_num_from (f : Z -> Z) (n i : Z) :
  0 <= i < n -> nth_num (map f (range 0 n)) (Some i) = Some (f i).
Proof.
  intros H. unfold nth_num, range. destruct (Z.ltb_spec i 0); [lia|].
  rewrite map_map, nth_error_map, nth_error_seq.
  destruct (Nat.ltb_spec (Z.to_nat i) (Z.to_nat n)); [|lia].
  cbn. do 2 f_equal. lia.
Qed.

Lemma length_from (f : Z -> Z) (n : Z) :
  0 <= n -> Z.of_nat (List.length (map f (range 0 n))) = n.
Proof. intros H. unfold range. rewrite !length_map, length_seq. lia. Qed.

Section FixedOffsetWheels.

Variable tz : Z.
Hypothesis Within : - (12 * msPerHour) <= tz < msPerDay.

(** A local date and time of day, as a [Date] of the zone. *)
Lemma local_fields (y m d time : Z) :
  1 <= m <= 12 -> 1 <= d <= daysInMonth y m -> 0 <= time < msPerDay ->
  let t := MakeDate (MakeDay y (m - 1) d) time - tz in
  YearFromTime (t + tz) = y /\ MonthFromTime (t + tz) = m - 1
  /\ DateFromTime (t + tz) = d /\ TimeWithinDay (t + tz) = time.
Proof.
  intros Hm Hd Ht t. subst t.
  replace (MakeDate (MakeDay y (m - 1) d) time - tz + tz)
    with (MakeDate (MakeDay y (m - 1) d) time) by lia.
  destruct (fields_of_MakeDate y m d time Hm Hd Ht) as (-> & -> & ->).
  now rewrite TimeWithinDay_MakeDate.
Qed.

Lemma TimeClip_local (y m d time : Z) :
  -1 <= y <= 10001 -> 0 <= m <= 12 -> 0 <= d <= 40 -> 0 <= time < msPerDay ->
  TimeClip (MakeDate (MakeDay y m d) time - tz) = Some (MakeDate (MakeDay y m d) time - tz).
Proof.
  intros Hy Hm Hd Ht.
  pose proof (time_in_range y m d time Hy Hm Hd ltac:(unfold msPerDay in *; lia)) as R.
  unfold TimeClip.
  destruct (Z.leb_spec (Z.abs (MakeDate (MakeDay y m d) time - tz)) 8640000000000000);
    [reflexivity|].
  unfold msPerDay, msPerHour in *. lia.
Qed.

(** X23.  The year wheel keeps month, day and time of day, and 29 February
    set on a year that is not a leap year runs on to 1 March; the years on
    the wheel are the forty-one around the current one. *)
Theorem year_wheel_overflows (index thisYear y m d time : Z) (rendered : Date) :
  valid_date y m d -> 120 <= thisYear <= 9979 -> 0 <= time < msPerDay -> 0 <= index ->
  scroll_update (fixed_offset tz) year_wheel index thisYear rendered
    (mkDate (Some (MakeDate (MakeDay y (m - 1) d) time - tz)))
  = mkDate (Some (MakeDate
                    (day_number (month_overflow (thisYear - 20 + index mod 41, m, d)))
                    time - tz)).
Proof.
  intros (Hy & Hm & Hd) Hy1 Ht Hi.
  pose proof (daysInMonth_bounds y m) as Bd.
  set (y1 := thisYear - 20 + index mod 41).
  assert (Hk : 100 <= y1 <= 9999) by (unfold y1; zdiv).
  pose proof (valid_month_overflow y1 m d Hm ltac:(lia)) as V.
  assert (Y : fst (fst (month_overflow (y1, m, d))) = y1).
  { unfold month_overflow. now destruct (d <=? daysInMonth y1 m). }
  destruct (month_overflow (y1, m, d)) as [[y' m'] d'].
  destruct V as (Hm' & Hd' & E). cbn [fst] in Y. subst y'. cbn [day_number].
  pose proof (daysInMonth_bounds y1 m').
  assert (S : scroll_set (fixed_offset tz) year_wheel index thisYear rendered
                (mkDate (Some (MakeDate (MakeDay y (m - 1) d) time - tz)))
              = mkDate (Some (MakeDate (MakeDay y1 (m' - 1) d') time - tz))).
  { unfold scroll_set, originalYears. rewrite length_from by lia.
    unfold num_rem. change (41 =? 0) with false. cbv iota.
    rewrite Z.rem_mod_nonneg by lia.
    rewrite (nth_num_from (fun i => thisYear - 20 + i)) by zdiv. fold y1.
    unfold setFullYear, LocalTime, UTC, fixed_offset. cbn [tv].
    destruct (local_fields y m d time Hm Hd Ht) as (_ & -> & -> & ->).
    rewrite E. rewrite TimeClip_local by lia. reflexivity. }
  unfold scroll_update. rewrite (clamp_idle tz Within); [exact S|].
  rewrite S. intros y0. unfold getFullYear, LocalTime, fixed_offset. cbn [tv].
  destruct (local_fields y1 m' d' time Hm' Hd' Ht) as (-> & _).
  intros [= <-]. lia.
Qed.

(** X24.  The day wheel offers the days of the month the picker shows, and
    the day it stops at is the day set: month, year and time of day stay. *)
Theorem day_wheel_stays_in_month (index thisYear y m d time : Z) :
  valid_date y m d -> 100 <= y -> 0 <= time < msPerDay -> 0 <= index ->
  let current := mkDate (Some (MakeDate (MakeDay y (m - 1) d) time - tz)) in
  originalDays (fixed_offset tz) current = map (fun i => i + 1) (range 0 (daysInMonth y m))
  /\ scroll_update (fixed_offset tz) day_wheel index thisYear current current
     = mkDate (Some (MakeDate (MakeDay y (m - 1) (index mod daysInMonth y m + 1)) time - tz)).
Proof.
  intros (Hy & Hm & Hd) Hy1 Ht Hi current.
  pose proof (daysInMonth_bounds y m) as Bd.
  destruct (local_fields y m d time Hm Hd Ht) as (EY & EM & ED & ET).
  assert (O : originalDays (fixed_offset tz) current
              = map (fun i => i + 1) (range 0 (daysInMonth y m))).
  { unfold originalDays, current. rewrite (lastDayOfMonth_fixed tz Within) by (rewrite EY; lia).
    rewrite EY, EM. now replace (m - 1 + 1) with m by lia. }
  split; [exact O|].
  set (d1 := index mod daysInMonth y m + 1).
  assert (Hd1 : 1 <= d1 <= daysInMonth y m) by (unfold d1; zdiv).
  assert (S : scroll_set (fixed_offset tz) day_wheel index thisYear current current
              = mkDate (Some (MakeDate (MakeDay y (m - 1) d1) time - tz))).
  { unfold scroll_set. rewrite O, length_from by lia.
    unfold num_rem. destruct (Z.eqb_spec (daysInMonth y m) 0); [lia|].
    rewrite Z.rem_mod_nonneg by lia.
    rewrite (nth_num_from (fun i => i + 1)) by zdiv. fold d1.
    unfold setDate, LocalTime, UTC, fixed_offset, current. cbn [tv].
    rewrite EY, EM, ET. rewrite TimeClip_local by lia. reflexivity. }
  unfold scroll_update. rewrite (clamp_idle tz Within); [exact S|].
  rewrite S. intros y0. unfold getFullYear, LocalTime, fixed_offset. cbn [tv].
  destruct (local_fields y m d1 time Hm Hd1 Ht) as (-> & _).
  intros [= <-]. lia.
Qed.

(** X25.  Today, for a recurring task without a due date, is the day of
    UTC, not the day of the zone: at local date and time of day [time] the
    text is the local date only while [time - tz] stays within the day;
    in a zone behind UTC it is already the day after during the last hours
    of the local day, and in a zone ahead of UTC still the day before
    during the first. *)
Theorem today_is_the_day_of_UTC (y m d time : Z) :
  valid_date y m d -> 1 <= y <= 9998 -> 0 <= time < msPerDay ->
  let now := MakeDate (MakeDay y (m - 1) d) time - tz in
  (0 <= time - tz < msPerDay -> todayISO now = date_string y m d)
  /\ (msPerDay <= time - tz -> todayISO now = date_text (next_day (y, m, d)))
  /\ (time - tz < 0 -> exists x, todayISO now = date_text x /\ day_before x (y, m, d)).
Proof.
  intros (Hy & Hm & Hd) Hy1 Ht now.
  assert (K : forall y' m' d',
            1 <= m' <= 12 -> 1 <= d' <= daysInMonth y' m' -> 0 <= y' <= 9999 ->
            Day now = MakeDay y' (m' - 1) d' -> todayISO now = date_string y' m' d').
  { intros y' m' d' Hm' Hd' Hy' E.
    destruct (fields_of_day _ y' m' d' Hm' Hd' E) as (EY & EM & ED).
    rewrite todayISO_date_string by lia. rewrite EY, EM, ED. do 2 f_equal. lia. }
  split; [|split]; intros H.
  - apply K; try assumption.
    unfold now, Day, MakeDate, msPerDay in *. zdiv.
  - pose proof (valid_next_day y m d Hm Hd) as V. pose proof (next_day_year y m d) as Yr.
    destruct (next_day (y, m, d)) as [[y1 m1] d1]. destruct V as (Hm1 & Hd1 & V).
    cbn [fst] in Yr. cbn [date_text]. apply K; try assumption; try lia.
    rewrite <- V, MakeDay_date_shift.
    unfold now, Day, MakeDate, msPerDay, msPerHour in *. zdiv.
  - assert (E : Day now = MakeDay y (m - 1) d - 1).
    { unfold now, Day, MakeDate, msPerDay, msPerHour in *. zdiv. }
    destruct (fields_are_a_date now) as [Hm' Hd'].
    pose proof (Day_fields now) as F.
    exists (YearFromTime now, MonthFromTime now + 1, DateFromTime now).
    assert (N : next_day (YearFromTime now, MonthFromTime now + 1, DateFromTime now)
                = (y, m, d)).
    { pose proof (valid_next_day (YearFromTime now) (MonthFromTime now + 1) (DateFromTime now)
                    ltac:(lia) Hd') as V.
      destruct (next_day _) as [[y1 m1] d1]. destruct V as (Hm1 & Hd1 & V).
      symmetry. apply MakeDay_inj; try assumption.
      rewrite <- V, MakeDay_date_shift.
      replace (MonthFromTime now + 1 - 1) with (MonthFromTime now) by lia. lia. }
    split; [|exact N]. cbn [date_text]. apply K; try lia.
    + pose proof (next_day_year (YearFromTime now) (MonthFromTime now + 1) (DateFromTime now))
        as Yr.
      rewrite N in Yr. cbn [fst] in Yr. lia.
    + rewrite F. f_equal. lia.
Qed.

End FixedOffsetWheels.

Section Dialog.

Variable parseFloat : string -> number.
Variable Number_prototype_toString : number -> string.

(** X26.  An item that is not ticked off never carries a quantity, a unit
    price or a total, whatever happens on the screen; so the pricing dialog
    of a listed item always opens on quantity 1 and an empty unit price,
    never on numbers entered before. *)
Theorem open_items_stay_blank (persisted : bool) (a : Supermarket.Action)
    (s : Supermarket.State) :
  Forall open_blank (Supermarket.items s) ->
  Forall open_blank
    (Supermarket.items (Supermarket.step parseFloat Number_prototype_toString persisted a s))
  /\ (forall item,
        In item (Supermarket.items s) -> ListItem.completed item = false ->
        let opened :=
          Supermarket.handleCheckmarkClick Number_prototype_toString persisted item s in
        Supermarket.modalItem opened = Some item
        /\ Supermarket.quantity opened = "1"
        /\ Supermarket.unitPrice opened = ""
        /\ Supermarket.items opened = Supermarket.items s
        /\ Supermarket.calls opened = Supermarket.calls s).
Proof.
  intros I. split.
  - assert (B : forall id text, open_blank (ListItem.mk id text false None None None))
      by (intros id text _; auto).
    assert (R : forall u (id : Z),
              open_blank u ->
              Forall open_blank
                (map (fun i => if ListItem.id i =? id then u else i) (Supermarket.items s))).
    { intros u id Hu. rewrite Forall_forall in *. intros x Hx.
      apply in_map_iff in Hx. destruct Hx as (z & <- & Hz).
      destruct (ListItem.id z =? id); auto. }
    destruct a; cbn [Supermarket.step Supermarket.items]; try exact I.
    + unfold Supermarket.handleAddItem. destruct (String.eqb _ ""); [exact I|].
      cbn [Supermarket.items]. constructor; [apply B|exact I].
    + unfold Supermarket.handleCheckmarkClick.
      destruct (ListItem.completed item); [|exact I].
      cbn [Supermarket.items]. apply R, B.
    + unfold Supermarket.handleModalConfirm.
      destruct (Supermarket.modalItem s) as [modal|]; [|exact I].
      destruct (SFleb _ _); [exact I|]. cbn [Supermarket.items]. apply R.
      intros C. discriminate C.
    + unfold Supermarket.handleDeleteItem. cbn [Supermarket.items].
      rewrite Forall_forall in *. intros x Hx. apply filter_In in Hx. now apply I.
    + unfold Supermarket.confirmClearList. cbn [Supermarket.items].
      destruct persisted; [constructor|exact I].
  - intros item Hi C opened. subst opened. unfold Supermarket.handleCheckmarkClick.
    rewrite C. rewrite Forall_forall in I. destruct (I item Hi C) as (-> & -> & _).
    repeat split.
Qed.

End Dialog.

(* ================================================================== *)
(** * What is shown and what is sent *)

Section Sent.

Variable LocalTZA : Z -> bool -> Z.
Variable greater_than_zero : JSON -> bool.

Lemma shown_after_replace (u t : Task) (l : list Task) :
  In t (sortTasks LocalTZA (replaceById (Task.id u) u l)) -> Task.id t = Task.id u -> t = u.
Proof.
  intros I E. apply sortTasks_In, In_replaceById in I.
  destruct I as [->|[_ N]]; [reflexivity|contradiction].
Qed.

Lemma shown_after_replace_in_place (u t : Task) (l : list Task) :
  In t (replaceById (Task.id u) u l) -> Task.id t = Task.id u -> t = u.
Proof.
  intros I E. apply In_replaceById in I.
  destruct I as [->|[_ N]]; [reflexivity|contradiction].
Qed.

(** X27.  What is shown is what is sent.  An action either leaves both the
    task list and the store alone, or makes exactly one store call; and
    when that call resolves the list agrees with it: after [addTask] the
    list is the old one with the created task, sorted; after [updateTask]
    every listed task with the identifier sent is the task sent; after
    [deleteTask] no listed task has the identifier sent. *)
Theorem task_list_agrees_with_store (a : Action) (s s' : State) :
  step LocalTZA greater_than_zero true a s = Some s' ->
  (calls s' = calls s /\ tasks s' = tasks s)
  \/ exists c,
       calls s' = c :: calls s
       /\ match c with
          | addTask data =>
              exists newId,
                a = SaveTask newId
                /\ tasks s' = sortTasks LocalTZA (addTask_result newId data :: tasks s)
          | updateTask u =>
              forall t, In t (tasks s') -> Task.id t = Task.id u -> t = u
          | deleteTask id => forall t, In t (tasks s') -> Task.id t <> id
          end.
Proof.
  intros St. destruct a; cbn [step] in St; try (injection St as <-); try (now left).
  - unfold handleSaveTask. destruct (String.eqb _ ""); [now left|]. right.
    destruct (editingTask s) as [editing|].
    + eexists. split; [reflexivity|].
      cbn [tasks closeModal setIsModalOpen setTasks call].
      destruct (formIsRecurring s); intros t I E;
        match goal with
        | I : In _ (sortTasks _ (replaceById _ ?u _)) |- _ =>
            change (Task.id editing) with (Task.id u) in I;
            exact (shown_after_replace u t _ I E)
        end.
    + eexists. split; [reflexivity|]. exists newId. split; reflexivity.
  - right. unfold handleToggleTask.
    destruct (Task.recurring task), (Task.completed task); eexists;
      (split; [reflexivity|]); cbn [tasks setOpenMenuId setTasks call]; intros t I E;
      match goal with
      | I : In _ (sortTasks _ (replaceById _ ?u _)) |- _ =>
          change (Task.id task) with (Task.id u) in I;
          exact (shown_after_replace u t _ I E)
      end.
  - unfold handleToggleSubtask.
    destruct (find _ (tasks s)) as [found|] eqn:F; [|now left].
    destruct (Task.subtasks found) as [sts|]; [|now left].
    right. eexists. split; [reflexivity|]. cbn [tasks setTasks call]. intros t I E.
    apply find_some in F. destruct F as [_ F]. apply String.eqb_eq in F.
    match goal with
    | I : In _ (replaceById _ ?u _) |- _ =>
        replace taskId with (Task.id u) in I by (rewrite <- F; now destruct found);
        exact (shown_after_replace_in_place u t _ I E)
    end.
  - right. exists (deleteTask id). split.
    + unfold handleDeleteTask.
      destruct (focusedTaskId s) as [f|]; [destruct (String.eqb f id)|]; reflexivity.
    + intros t I. change (In t (tasks (handleDeleteTask true id s))) in I.
      rewrite handleDeleteTask_tasks in I. apply filter_In in I.
      destruct I as [_ I]. apply negb_true_iff, String.eqb_neq in I. exact I.
  - left. unfold handleSelectFocusTask.
    destruct (Task.completed task); [now split|].
    destruct (isTimerActive s); [now split|].
    destruct (timerMode _); [destruct (_ =? _)|]; now split.
  - unfold handleBreakdownTask. cbn [tasks calls setLoadingTaskId].
    rewrite tasks_after_catch, calls_after_catch.
    destruct response as [| |result]; try (now left).
    rewrite breakdown_parsed_state.
    destruct (generated_texts (Parsed result)) as [texts|]; [|now left].
    right. eexists. split; [reflexivity|].
    cbn [tasks call setTasks setOpenMenuId setLoadingTaskId]. intros t I E.
    match goal with
    | I : In _ (sortTasks _ (replaceById _ ?u _)) |- _ =>
        change (Task.id task) with (Task.id u) in I;
        exact (shown_after_replace u t _ I E)
    end.
  - left. unfold handleSubtaskDragOver.
    destruct (draggedSubtaskRef s) as [[? dragged]|]; [|now split].
    destruct (_ =? _); now split.
  - unfold handleSubtaskDrop in St.
    destruct (draggedSubtaskRef s) as [[sourceTaskId sourceSubtask]|];
      [|injection St as <-; now left].
    destruct (_ || _); [injection St as <-; now left|].
    destruct (find _ (tasks s)) as [found|] eqn:F; [|injection St as <-; now left].
    destruct (Task.subtasks found) as [sts|]; [|injection St as <-; now left].
    destruct (splice sts _ 1 []) as [removed rest].
    destruct removed as [|movedItem removed]; [discriminate|].
    injection St as <-. right. eexists. split; [reflexivity|].
    cbn [tasks setDragOverInfo setTasks call]. intros t I E.
    apply find_some in F. destruct F as [_ F]. apply String.eqb_eq in F.
    match goal with
    | I : In _ (replaceById _ ?u _) |- _ =>
        replace targetTaskId with (Task.id u) in I by (rewrite <- F; now destruct found);
        exact (shown_after_replace_in_place u t _ I E)
    end.
Qed.

End Sent.

(* ================================================================== *)
(** * The further theorems at work on sample data *)

Lemma task_ids_stay_unique_witness :
  NoDup (task_ids adding_milk)
  /\ NoDup (task_ids (handleSaveTask Brasilia "milk" true adding_milk)).
Proof.
  split; [exact rent_screen_ids|].
  refine (proj1 (task_ids_stay_unique Brasilia (fun _ => true) true (SaveTask "milk")
                   adding_milk _ rent_screen_ids _ eq_refl)).
  intros newId [= <-] _ [H|[H|[]]]; discriminate H.
Defined.

Lemma rent_screen_sorted : StronglySorted (precedes Brasilia) (tasks rent_screen).
Proof.
  cbn. constructor; [repeat constructor|].
  constructor; [|constructor]. left. cbn. lia.
Defined.

Lemma task_list_stays_sorted_witness :
  StronglySorted (precedes Brasilia) (tasks rent_screen)
  /\ StronglySorted (precedes Brasilia) (tasks (handleToggleSubtask true "rent" 2 rent_screen)).
Proof.
  split; [exact rent_screen_sorted|].
  refine (task_list_stays_sorted Brasilia (fun _ => true) true (ToggleSubtask "rent" 2)
            rent_screen _ rent_screen_ids rent_screen_sorted eq_refl _).
  repeat constructor; vm_compute; discriminate.
Defined.

Lemma focused_task_stays_listed_witness :
  focus_ok rent_screen /\ focus_ok (handleSelectFocusTask rent rent_screen).
Proof.
  split; [exact I|].
  refine (focused_task_stays_listed Brasilia (fun _ => true) true (SelectFocusTask rent)
            rent_screen _ I _ eq_refl).
  intros task [= <-]. left. reflexivity.
Defined.

Lemma handleToggleSubtask_twice_witness :
  tasks (handleToggleSubtask true "rent" 2 (handleToggleSubtask true "rent" 2 rent_screen))
  = tasks rent_screen.
Proof. exact (handleToggleSubtask_twice true true "rent" 2 rent_screen rent_screen_ids). Defined.

Lemma handleSubtaskDrop_keeps_subtasks_witness :
  match handleSubtaskDrop true "rent" notify dragging_receipt with
  | Some s' => Forall2 subtasks_permuted (tasks dragging_receipt) (tasks s')
  | None =>
      exists parent,
        find (fun t => String.eqb (Task.id t) "rent") (tasks dragging_receipt) = Some parent
        /\ Task.subtasks parent = Some []
  end.
Proof.
  exact (handleSubtaskDrop_keeps_subtasks true "rent" notify dragging_receipt rent_screen_ids).
Defined.

Lemma handleSaveTask_needs_text_witness :
  handleSaveTask Brasilia "milk" true adding_blanks = adding_blanks
  /\ exists data,
       calls (handleSaveTask Brasilia "milk" true adding_padded)
       = addTask data :: calls adding_padded
       /\ NewTaskData.text data = "  buy milk ".
Proof.
  split.
  - exact (proj1 (handleSaveTask_needs_text Brasilia "milk" true adding_blanks eq_refl)
             eq_refl).
  - destruct (proj2 (handleSaveTask_needs_text Brasilia "milk" true adding_padded eq_refl)
                eq_refl) as (c & E & M).
    destruct c as [data|u|i].
    + exists data. split; [exact E|exact (proj2 M)].
    + destruct M as (N & _). now elim N.
    + destruct M.
Defined.

Lemma edit_untouched_keeps_task_witness :
  calls (handleSaveTask Brasilia "milk" true (openEditModal rent rent_screen))
  = updateTask rent :: calls rent_screen.
Proof.
  refine (proj1 (edit_untouched_keeps_task Brasilia "milk" rent rent_screen eq_refl _ _)).
  - discriminate.
  - intros _. reflexivity.
Defined.

Lemma jan31_valid : valid_date 2024 1 31.
Proof. unfold valid_date. cbn. lia. Defined.

Lemma calculateNextDueDate_moves_forward_witness :
  exists y' m' d' t t',
    calculateNextDueDate Brasilia (date_string 2024 1 31) monthly = date_string y' m' d'
    /\ valid_date y' m' d'
    /\ getTime (Date_of_string Brasilia (date_string 2024 1 31)) = Some t
    /\ getTime (Date_of_string Brasilia (date_string y' m' d')) = Some t'
    /\ t < t'.
Proof.
  apply (calculateNextDueDate_moves_forward Brasilia midday_stable_Brasilia 2024 1 31 monthly).
  - exact jan31_valid.
  - lia.
Defined.

Lemma daily_advances_add_up_witness :
  Nat.iter 7 (fun s => calculateNextDueDate Brasilia s daily) (date_string 2024 1 31)
  = calculateNextDueDate Brasilia (date_string 2024 1 31) weekly.
Proof.
  refine (proj2 (proj2 (daily_advances_add_up Brasilia midday_stable_Brasilia 7 2024 1 31
                          jan31_valid _ _)) eq_refl); cbn; lia.
Defined.

Lemma calculateNextDueDate_unreadable_witness :
  calculateNextDueDate Brasilia "soon" monthly = "NaN-NaN-NaN".
Proof. exact (calculateNextDueDate_unreadable Brasilia "soon" monthly eq_refl). Defined.


Lemma Brasilia_within : - (12 * msPerHour) <= -10800000 < msPerDay.
Proof. unfold msPerHour, msPerDay. lia. Defined.


Lemma scroll_clamp_never_applies_witness :
  scroll_update (fixed_offset (-10800000)) month_wheel 13 2024 jan31 jan31
  = scroll_set (fixed_offset (-10800000)) month_wheel 13 2024 jan31 jan31.
Proof.
  apply (scroll_clamp_never_applies (-10800000) Brasilia_within).
  intros y E. vm_compute in E. injection E as <-. lia.
Defined.

Lemma month_wheel_overflows_witness :
  scroll_update (fixed_offset (-10800000)) month_wheel 13 2024 jan31 jan31
  = mkDate (Some (MakeDate (MakeDay 2024 2 2) 0 + 10800000)).
Proof.
  refine (month_wheel_overflows (-10800000) Brasilia_within 13 2024 2024 1 31 0 jan31
            jan31_valid _ _ _); unfold msPerDay; lia.
Defined.

Lemma load_newest_first_witness :
  Shopping.load [Supermarket.bread] = [Supermarket.bread].
Proof.
  apply (proj2 (proj2 (load_newest_first [Supermarket.bread]))).
  repeat constructor.
Defined.

Lemma shopping_list_mirrors_store_witness :
  Shopping.mirrored (Supermarket.pricing_bread, [Supermarket.bread])
  /\ Shopping.mirrored
       (Shopping.perform Supermarket.parseFloat_decimal (fun _ => EmptyString)
          Supermarket.ModalConfirm (Supermarket.pricing_bread, [Supermarket.bread])).
Proof.
  assert (M : Shopping.mirrored (Supermarket.pricing_bread, [Supermarket.bread])).
  { split; [reflexivity|]. repeat constructor. }
  split; [exact M|].
  refine (proj1 (shopping_list_mirrors_store Supermarket.parseFloat_decimal
                   (fun _ => EmptyString) Supermarket.ModalConfirm
                   Supermarket.pricing_bread [Supermarket.bread] M _)).
  left. reflexivity.
Defined.

Lemma getCardDate_shows_the_day_witness :
  getCardDate_day Brasilia (Some (date_string 2024 1 31)) = Number_toString (Some 31).
Proof.
  exact (proj1 (getCardDate_shows_the_day Brasilia 2024 1 31 midday_stable_Brasilia
                  jan31_valid)).
Defined.

Lemma sortTasks_orders_by_tiers_witness :
  StronglySorted (precedes Brasilia) (sortTasks Brasilia [report_a; rent]).
Proof.
  refine (proj1 (proj2 (proj2 (sortTasks_orders_by_tiers Brasilia [report_a; rent])) _)).
  repeat constructor; vm_compute; discriminate.
Defined.

Lemma handleModalConfirm_needs_positive_total_witness :
  Supermarket.handleModalConfirm Supermarket.parseFloat_decimal true free_bread = free_bread.
Proof.
  apply (handleModalConfirm_needs_positive_total Supermarket.parseFloat_decimal true free_bread).
  do 5 right. split.
  - exists false. vm_compute. reflexivity.
  - vm_compute. discriminate.
Defined.

Lemma feb29_valid : valid_date 2024 2 29.
Proof. unfold valid_date. cbn. lia. Defined.

Lemma year_wheel_overflows_witness :
  scroll_update (fixed_offset (-10800000)) year_wheel 21 2024 feb29_evening feb29_evening
  = mkDate (Some (MakeDate (MakeDay 2025 2 1) 76500000 + 10800000)).
Proof.
  refine (year_wheel_overflows (-10800000) Brasilia_within 21 2024 2024 2 29 76500000
            feb29_evening feb29_valid _ _ _); unfold msPerDay; lia.
Defined.

Lemma day_wheel_stays_in_month_witness :
  scroll_update (fixed_offset (-10800000)) day_wheel 29 2024 feb29_evening feb29_evening
  = mkDate (Some (MakeDate (MakeDay 2024 1 1) 76500000 + 10800000)).
Proof.
  refine (proj2 (day_wheel_stays_in_month (-10800000) Brasilia_within 29 2024 2024 2 29
                   76500000 feb29_valid _ _ _)); unfold msPerDay; lia.
Defined.

Lemma today_is_the_day_of_UTC_witness :
  todayISO (MakeDate (MakeDay 2024 1 29) 76500000 + 10800000) = date_string 2024 3 1.
Proof.
  refine (proj1 (proj2 (today_is_the_day_of_UTC (-10800000) Brasilia_within 2024 2 29 76500000
                          feb29_valid _ _)) _); unfold msPerDay; lia.
Defined.

Lemma open_items_stay_blank_witness :
  Forall open_blank (Supermarket.items Supermarket.pricing_bread)
  /\ Supermarket.quantity
       (Supermarket.handleCheckmarkClick (fun _ => "7") true Supermarket.bread
          Supermarket.pricing_bread) = "1".
Proof.
  assert (B : Forall open_blank (Supermarket.items Supermarket.pricing_bread)).
  { repeat constructor. }
  split; [exact B|].
  exact (proj1 (proj2 (proj2 (open_items_stay_blank Supermarket.parseFloat_decimal
                                (fun _ => "7") true Supermarket.CancelModal
                                Supermarket.pricing_bread B)
                         Supermarket.bread (or_introl eq_refl) eq_refl))).
Defined.

Lemma task_list_agrees_with_store_witness :
  (calls (handleDeleteTask true "rent" rent_screen) = calls rent_screen
   /\ tasks (handleDeleteTask true "rent" rent_screen) = tasks rent_screen)
  \/ exists c,
       calls (handleDeleteTask true "rent" rent_screen) = c :: calls rent_screen
       /\ match c with
          | addTask data =>
              exists newId,
                DeleteTask "rent" = SaveTask newId
                /\ tasks (handleDeleteTask true "rent" rent_screen)
                   = sortTasks Brasilia (addTask_result newId data :: tasks rent_screen)
          | updateTask u =>
              forall t, In t (tasks (handleDeleteTask true "rent" rent_screen)) ->
                        Task.id t = Task.id u -> t = u
          | deleteTask id =>
              forall t, In t (tasks (handleDeleteTask true "rent" rent_screen)) ->
                        Task.id t <> id
          end.
Proof.
  exact (task_list_agrees_with_store Brasilia (fun _ => true) (DeleteTask "rent") rent_screen
           (handleDeleteTask true "rent" rent_screen) eq_refl).
Defined.
